(** * Control Center dashboard and the channel-manager core it fronts

    The first half of this development embeds the three TypeScript sources
    of the dashboard (ControlCenterPage, InventoryGrid, ChannelHealthWidget
    and BulkUpdateDrawer).  The second half models the synchronisation core
    whose code is not part of the front-end sources. *)

From Stdlib Require Import ZArith Lia Bool Sorted.
From stdpp Require Import base option list strings gmap fin_maps pretty sorting.

Local Open Scope Z_scope.

(** ** Non-negative IEEE-754 binary64 numbers

    A finite non-negative double is an integer multiple of [2^-1074] with at
    most 53 significant bits.  It is represented by that integer multiple. *)
Module Float64.

(** The number 1.0, in units of [2^-1074]. *)
Definition one : Z := 2 ^ 1074.

(** Round to nearest, ties to even, keeping 53 significant bits. *)
Definition round (n : Z) : Z :=
  let e := Z.log2 n - 52 in
  if e <=? 0 then n
  else
    let q := n / 2 ^ e in
    let r := n mod 2 ^ e in
    let half := 2 ^ (e - 1) in
    if (r <? half) || ((r =? half) && Z.even q)
    then q * 2 ^ e
    else (q + 1) * 2 ^ e.

Definition is_float (x : Z) : bool := (0 <=? x) && (round x =? x).

(** What [Math.random()] may return: a double in [0, 1). *)
Definition in_unit_interval (x : Z) : bool := is_float x && (x <? one).

(** [x * k] for a double [x] and an integer literal [k]: the exact
    product, rounded. *)
Definition mul_literal (x k : Z) : Z := round (x * k).

(** [Math.floor] of a non-negative double, as an integer. *)
Definition floor (x : Z) : Z := x / one.

End Float64.

(** ** The dashboard (TypeScript sources) *)
Module Dashboard.

(** *** Data types of the three source files *)

Module RoomType.
Record t := mk { id : string; name : string }.
End RoomType.

Module DailyStats.
Record t := mk {
  date : string; (* YYYY-MM-DD *)
  inventory : Z;
  rate : Z;
  isSoldOut : bool;
}.
End DailyStats.

Inductive Status := online | error.

Module ChannelStatus.
Record t := mk {
  id : string;
  name : string;
  status : Status;
  lastSync : string;
}.
End ChannelStatus.

(** A JavaScript [Date] is its time value, milliseconds since the epoch. *)
Module DateRange.
Record t := mk { from : option Z; to : option Z }.
End DateRange.

(** The four [useState] cells of BulkUpdateDrawer; also the object that
    [handleUpdate] logs. *)
Module Form.
Record t := mk {
  date : option DateRange.t;
  roomType : string;
  rate : string;
  isOpen : bool;
}.
End Form.

Record LogEntry := mkLog { message : string; payload : Form.t }.

(** *** The environment a component runs in

    Everything a browser component could read or change: the random
    number generator behind [Math.random], the clock, the console, the
    network, persistent storage, and the React state of the page. *)
Record World := mkWorld {
  random_stream : nat -> Z;      (* the doubles Math.random() will return *)
  random_used : nat;             (* how many of them were consumed *)
  now : Z;                       (* the clock: new Date() *)
  console : list LogEntry;       (* lines written by console.log *)
  requests : list string;        (* network requests issued *)
  storage : gmap string string;  (* persisted key/value state *)
  isDrawerOpen : bool;           (* useState of ControlCenterPage *)
  drawer : Form.t;               (* useState cells of BulkUpdateDrawer *)
}.

Inductive JsError := TypeError (msg : string).

Inductive Outcome (A : Type) := Ok (a : A) | Throw (e : JsError).
Arguments Ok {A} a.
Arguments Throw {A} e.

Definition M (A : Type) : Type := World -> Outcome A * World.

#[export] Instance M_ret : MRet M := fun A a w => (Ok a, w).
#[export] Instance M_bind : MBind M := fun A B f c w =>
  match c w with
  | (Ok a, w') => f a w'
  | (Throw e, w') => (Throw e, w')
  end.

Definition throw {A} (e : JsError) : M A := fun w => (Throw e, w).

Definition Math_random : M Z := fun w =>
  (Ok (random_stream w (random_used w)),
   mkWorld (random_stream w) (S (random_used w)) (now w) (console w)
           (requests w) (storage w) (isDrawerOpen w) (drawer w)).

(** Reading a part of the environment. *)
Definition read {A} (f : World -> A) : M A := fun w => (Ok (f w), w).

Definition new_Date : M Z := read now.

Definition console_log (msg : string) (obj : Form.t) : M unit := fun w =>
  (Ok tt,
   mkWorld (random_stream w) (random_used w) (now w)
           (console w ++ [mkLog msg obj])
           (requests w) (storage w) (isDrawerOpen w) (drawer w)).

Definition setIsDrawerOpen (b : bool) : M unit := fun w =>
  (Ok tt,
   mkWorld (random_stream w) (random_used w) (now w) (console w)
           (requests w) (storage w) b (drawer w)).

Definition setDrawer (f : Form.t -> Form.t) : M unit := fun w =>
  (Ok tt,
   mkWorld (random_stream w) (random_used w) (now w) (console w)
           (requests w) (storage w) (isDrawerOpen w) (f (drawer w))).

(** What a component that talked to a server or persisted state would
    call.  None of the three sources does; the two effects are here so that
    the environment can tell such a component from the ones embedded. *)
Definition fetch (url : string) : M unit := fun w =>
  (Ok tt,
   mkWorld (random_stream w) (random_used w) (now w) (console w)
           (requests w ++ [url]) (storage w) (isDrawerOpen w) (drawer w)).

Definition localStorage_setItem (key value : string) : M unit := fun w =>
  (Ok tt,
   mkWorld (random_stream w) (random_used w) (now w) (console w)
           (requests w) (<[key := value]> (storage w)) (isDrawerOpen w) (drawer w)).

(** [array.forEach] / [array.map] with an effectful callback. *)
Fixpoint forEach {A S} (l : list A) (f : A -> S -> M S) (s : S) : M S :=
  match l with
  | [] => mret s
  | a :: l' => s' ← f a s; forEach l' f s'
  end.

Fixpoint mapM {A B} (f : A -> M B) (l : list A) : M (list B) :=
  match l with
  | [] => mret []
  | a :: l' => b ← f a; bs ← mapM f l'; mret (b :: bs)
  end.

(** [Array.from({ length: n }).map((_, i) => f i)] *)
Definition Array_from_map {B} (n : nat) (f : Z -> B) : list B :=
  map (fun i => f (Z.of_nat i)) (seq 0 n).

(** *** Rendered trees

    A component returns a tree of elements.  An event listener is a
    closure of the component; [Handler A] names the closures that occur
    in the sources, [A] being the type of the argument the listener is
    called with. *)
Inductive Handler : Type -> Type :=
| H_openDrawer : Handler unit          (* () => setIsDrawerOpen(true) *)
| H_setIsDrawerOpen : Handler bool     (* setIsDrawerOpen *)
| H_setDate : Handler (option DateRange.t)
| H_setRoomType : Handler string
| H_setRate : Handler string           (* (e) => setRate(e.target.value) *)
| H_setIsOpen : Handler bool
| H_handleUpdate (onOpenChange : Handler bool) : Handler unit.

Inductive Attr :=
| className (s : string)
| attr (name value : string)
| flag (name : string) (b : bool)
| date_attr (name : string) (d : option Z)
| range_attr (name : string) (r : option DateRange.t)
| listener (name : string) {A : Type} (h : Handler A).

#[warnings="-register-all"]
Inductive Node :=
| El (tag : string) (attrs : list Attr) (children : list Node)
| Txt (s : string)
| Num (n : Z).

Definition div (cls : string) (children : list Node) : Node :=
  El "div" [className cls] children.

Definition span (cls : string) (children : list Node) : Node :=
  El "span" [className cls] children.

(** *** InventoryGrid.tsx *)

(* Mock Room Types *)
Definition ROOM_TYPES : list RoomType.t :=
  [ RoomType.mk "deluxe" "Deluxe King";
    RoomType.mk "standard" "Standard Twin";
    RoomType.mk "suite" "Executive Suite";
    RoomType.mk "family" "Family Room" ].

Abbreviation Row := (gmap string DailyStats.t).
Abbreviation Grid := (gmap string (gmap string DailyStats.t)).

(** [data[roomId][dateStr] = cell]: the inner object is updated in place. *)
Definition set_cell (roomId dateStr : string) (cell : DailyStats.t)
    (data : Grid) : Grid :=
  alter (fun row : Row => <[dateStr := cell]> row) roomId data.

(** [gridData[roomId][dateStr]]; reading a property of [undefined]
    throws, a missing property reads as [undefined]. *)
Definition get_cell (data : Grid) (roomId dateStr : string)
    : M (option DailyStats.t) :=
  match data !! roomId with
  | None => throw (TypeError "Cannot read properties of undefined")
  | Some row => mret (row !! dateStr)
  end.

(** *** Vocabulary of the properties *)

(** The environment after [n] further calls of [Math.random]. *)
Definition advance (n : nat) (w : World) : World :=
  mkWorld (random_stream w) (n + random_used w) (now w) (console w)
          (requests w) (storage w) (isDrawerOpen w) (drawer w).

(** A computation that neither reads nor changes the environment. *)
Definition pure_run {A} (c : M A) : Prop := ∃ o, ∀ w, c w = (o, w).

(** Two environments in which [Math.random] will return the same numbers. *)
Definition same_draws (w1 w2 : World) : Prop :=
  ∀ n, random_stream w1 (random_used w1 + n)%nat
       = random_stream w2 (random_used w2 + n)%nat.

(** A cell as the loop body builds it, from two consecutive draws that
    [Math.random] had not yet returned in [w]. *)
Definition drawn_cell (w : World) (cell : DailyStats.t) : Prop :=
  ∃ (n : nat) (dateStr : string),
    (random_used w <= n)%nat ∧
    cell =
      DailyStats.mk dateStr
        (Float64.floor (Float64.mul_literal (random_stream w n) 11))
        (100 + Float64.floor (Float64.mul_literal (random_stream w (S n)) 50))
        (Float64.floor (Float64.mul_literal (random_stream w n) 11) =? 0).

(** The texts a tree shows, in document order. *)
Fixpoint texts (n : Node) : list string :=
  match n with
  | El _ _ children => flat_map texts children
  | Txt s => [s]
  | Num z => [pretty z]
  end.

Definition is_listener (a : Attr) : bool :=
  match a with listener _ _ => true | _ => false end.

(** How many event listeners a tree carries. *)
Fixpoint listener_count (n : Node) : nat :=
  match n with
  | El _ attrs children =>
      length (filter (fun a => is_listener a = true) attrs)
      + foldr Nat.add 0%nat (map listener_count children)
  | _ => 0%nat
  end.

Section WithLibraries.

(** Functions of date-fns, [Date.prototype.toString] and the class-name
    helper [cn], which the sources import. *)
Context (addDays : Z -> Z -> Z)
        (format : Z -> string -> string)
        (startOfDay : Z -> Z)
        (Date_toString : Z -> string)
        (cn : list (option string) -> string).

Definition startOfToday : M Z := read (fun w => startOfDay (now w)).

(** The body of [for (let i = 0; i < days; i++)], run for the [count]
    remaining indices starting at [i]. *)
Fixpoint generate_days (startDate : Z) (roomId : string)
    (i : nat) (count : nat) (data : Grid) : M Grid :=
  match count with
  | O => mret data
  | S count' =>
      let date := addDays startDate (Z.of_nat i) in
      let dateStr := format date "yyyy-MM-dd" in
      (* Random inventory between 0 and 10 *)
      r ← Math_random;
      let inventory := Float64.floor (Float64.mul_literal r 11) in
      r' ← Math_random;
      let cell :=
        DailyStats.mk dateStr inventory
          (100 + Float64.floor (Float64.mul_literal r' 50))
          (inventory =? 0) in
      generate_days startDate roomId (S i) count'
        (set_cell roomId dateStr cell data)
  end.

(** The callback of [ROOM_TYPES.forEach]: [data[room.id] = {}], then the
    loop over the days. *)
Definition generate_room (startDate : Z) (days : nat) (room : RoomType.t)
    (data : Grid) : M Grid :=
  generate_days startDate (RoomType.id room) 0 days
    (<[RoomType.id room := ∅]> data).

(* Generate Mock Data for 30 days *)
Definition generateMockData (startDate : Z) (days : nat) : M Grid :=
  forEach ROOM_TYPES (generate_room startDate days) ∅.

(** A row that holds a cell under the key of each of the [days] dates. *)
Definition populated (startDate : Z) (days : nat) (row : Row) : Prop :=
  ∀ k, (k < days)%nat ->
    is_Some (row !! format (addDays startDate (Z.of_nat k)) "yyyy-MM-dd").

Definition getCellColor (inventory : Z) (isSoldOut : bool) : string :=
  if isSoldOut || (inventory =? 0) then "bg-red-50 text-red-900" (* Sold out *)
  else if inventory <=? 5 then "bg-amber-50 text-amber-900" (* Low inventory (Yellow) *)
  else "bg-emerald-50 text-emerald-900". (* High inventory (Green) *)

(** One data cell: the body of the inner [dateHeaders.map] callback. *)
Definition data_cell (gridData : Grid) (room : RoomType.t) (date : Z) : M Node :=
  let dateStr := format date "yyyy-MM-dd" in
  found ← get_cell gridData (RoomType.id room) dateStr;
  match found with
  | None => throw (TypeError "Cannot read properties of undefined")
  | Some cellData =>
      let colorClass :=
        getCellColor (DailyStats.inventory cellData) (DailyStats.isSoldOut cellData) in
      mret
        (El "div"
           [attr "key" dateStr;
            className (cn [Some "w-24 flex-shrink-0 border-r border-slate-100 p-2 flex flex-col justify-center items-center h-20 last:border-r-0 transition-colors cursor-pointer hover:brightness-95";
                           Some colorClass])]
           [El "div"
              [className (cn [Some "text-lg font-bold leading-none";
                              if DailyStats.isSoldOut cellData
                              then Some "line-through opacity-50" else None])]
              [if DailyStats.isSoldOut cellData
               then Txt "SOLD" else Num (DailyStats.inventory cellData)];
            div "text-xs font-medium mt-1 opacity-80"
              [Txt "$"; Num (DailyStats.rate cellData)]])
  end.

Definition date_column (date : Z) : Node :=
  El "div"
    [attr "key" (Date_toString date);
     className "w-24 flex-shrink-0 border-r border-slate-100 p-2 text-center bg-slate-50 last:border-r-0"]
    [div "text-xs font-medium text-slate-500 uppercase" [Txt (format date "EEE")];
     div "text-sm font-bold text-slate-900" [Txt (format date "d MMM")]].

Definition room_row (gridData : Grid) (dateHeaders : list Z) (room : RoomType.t)
    : M Node :=
  cells ← mapM (data_cell gridData room) dateHeaders;
  mret
    (El "div"
       [attr "key" (RoomType.id room);
        className "flex hover:bg-slate-50/50 transition-colors"]
       ((* Sticky Room Name *)
        div "w-48 flex-shrink-0 sticky left-0 z-10 bg-white border-r border-slate-200 p-4 font-medium text-slate-900 flex items-center shadow-[4px_0_8px_-4px_rgba(0,0,0,0.1)]"
          [Txt (RoomType.name room)]
        (* Data Cells *)
        :: cells)).

(** The JSX that InventoryGrid returns, around the rendered rows. *)
Definition InventoryGrid_jsx (dateHeaders : list Z) (rows : list Node) : Node :=
  div "relative w-full overflow-x-auto"
    [div "min-w-max"
       [(* Header Row *)
        div "flex border-b border-slate-200"
          (div "w-48 sticky left-0 z-20 bg-slate-50 border-r border-slate-200 p-4 font-semibold text-slate-700 flex items-center shadow-[4px_0_8px_-4px_rgba(0,0,0,0.1)]"
             [Txt "Room Type"]
           (* Date Columns *)
           :: map date_column dateHeaders);
        (* Rows *)
        div "divide-y divide-slate-100" rows]].

(** [today] is a new [Date] object at every render, so both [useMemo]
    calls, which depend on it, recompute at every render. *)
Definition InventoryGrid : M Node :=
  today ← startOfToday;
  let days := 30%nat in
  (* Memoize dates and data *)
  let dateHeaders := Array_from_map days (fun i => addDays today i) in
  gridData ← generateMockData today days;
  rows ← mapM (room_row gridData dateHeaders) ROOM_TYPES;
  mret (InventoryGrid_jsx dateHeaders rows).

(** *** ChannelHealthWidget.tsx *)

Definition CHANNELS : list ChannelStatus.t :=
  [ ChannelStatus.mk "booking" "Booking.com" online "2 mins ago";
    ChannelStatus.mk "airbnb" "Airbnb" online "5 mins ago";
    ChannelStatus.mk "expedia" "Expedia" error "Failed 1h ago";
    ChannelStatus.mk "agoda" "Agoda" online "10 mins ago" ].

Definition channel_card (channel : ChannelStatus.t) : Node :=
  El "div"
    [attr "key" (ChannelStatus.id channel);
     className (cn [Some "flex flex-col p-4 rounded-lg border transition-all hover:shadow-md";
                    Some (match ChannelStatus.status channel with
                          | error => "bg-red-50 border-red-100"
                          | online => "bg-white border-slate-200"
                          end)])]
    [div "flex justify-between items-start mb-2"
       [span "font-semibold text-slate-900" [Txt (ChannelStatus.name channel)];
        match ChannelStatus.status channel with
        | online => El "CheckCircle2" [className "h-5 w-5 text-emerald-500"] []
        | error => El "AlertCircle" [className "h-5 w-5 text-red-500"] []
        end];
     div "text-sm text-slate-500 mt-1"
       [match ChannelStatus.status channel with
        | online =>
            span "text-emerald-700 flex items-center gap-1.5"
              [span "w-1.5 h-1.5 rounded-full bg-emerald-500" [];
               Txt "Synced "; Txt (ChannelStatus.lastSync channel)]
        | error =>
            div "flex flex-col gap-2"
              [span "text-red-700 flex items-center gap-1.5 text-xs font-medium"
                 [span "w-1.5 h-1.5 rounded-full bg-red-500" [];
                  Txt "Auth Failed"];
               El "Button"
                 [attr "size" "sm"; attr "variant" "destructive";
                  className "h-7 text-xs w-full"]
                 [Txt "Reconnect"]]
        end]].

(** The JSX that ChannelHealthWidget returns. *)
Definition ChannelHealthWidget_jsx : Node :=
    (El "Card" [className "col-span-1 md:col-span-3 border-slate-200 shadow-sm"]
       [El "CardHeader" [className "pb-3 border-b border-slate-100"]
          [El "CardTitle" [className "flex justify-between items-center text-lg font-medium"]
             [div "flex items-center gap-2"
                [El "Layers" [className "h-5 w-5 text-indigo-600"] [];
                 Txt "Channel Health"];
              El "Button"
                [attr "variant" "ghost"; attr "size" "sm";
                 className "text-slate-500 hover:text-indigo-600"]
                [El "RefreshCw" [className "h-4 w-4 mr-2"] [];
                 Txt "Refresh All"]]];
        El "CardContent"
          [className "pt-6 grid grid-cols-1 sm:grid-cols-2 lg:grid-cols-4 gap-4"]
          (map channel_card CHANNELS)]).

Definition ChannelHealthWidget : M Node := mret ChannelHealthWidget_jsx.

(** *** BulkUpdateDrawer.tsx *)

(** The initial values of the four [useState] cells. *)
Definition BulkUpdateDrawer_mount : M unit :=
  from ← new_Date;
  to ← new_Date;
  setDrawer (fun _ => Form.mk (Some (DateRange.mk (Some from) (Some to))) "" "" true).

Definition handleUpdate (onOpenChange : bool -> M unit) : M unit :=
  (* Logic to update inventory would go here *)
  state ← read drawer;
  console_log "Updating" state;;
  onOpenChange false.

Definition setDate (d : option DateRange.t) : M unit :=
  setDrawer (fun f => Form.mk d (Form.roomType f) (Form.rate f) (Form.isOpen f)).

Definition setRoomType (v : string) : M unit :=
  setDrawer (fun f => Form.mk (Form.date f) v (Form.rate f) (Form.isOpen f)).

Definition setRate (v : string) : M unit :=
  setDrawer (fun f => Form.mk (Form.date f) (Form.roomType f) v (Form.isOpen f)).

Definition setIsOpen (b : bool) : M unit :=
  setDrawer (fun f => Form.mk (Form.date f) (Form.roomType f) (Form.rate f) b).

(** Calling a listener with its argument. *)
Fixpoint fire {A : Type} (h : Handler A) : A -> M unit :=
  match h in Handler T return T -> M unit with
  | H_openDrawer => fun _ => setIsDrawerOpen true
  | H_setIsDrawerOpen => setIsDrawerOpen
  | H_setDate => setDate
  | H_setRoomType => setRoomType
  | H_setRate => setRate
  | H_setIsOpen => setIsOpen
  | H_handleUpdate onOpenChange => fun _ => handleUpdate (fire onOpenChange)
  end.

Definition date_button_label (date : option DateRange.t) : list Node :=
  match date ≫= DateRange.from with
  | Some from =>
      match date ≫= DateRange.to with
      | Some to =>
          [Txt (format from "LLL dd, y"); Txt " -"; Txt " ";
           Txt (format to "LLL dd, y")]
      | None => [Txt (format from "LLL dd, y")]
      end
  | None => [El "span" [] [Txt "Pick a date range"]]
  end.

(** The JSX that BulkUpdateDrawer returns, for its props and the values of
    its state cells. *)
Definition BulkUpdateDrawer_jsx (open : bool) (onOpenChange : Handler bool)
    (date : option DateRange.t) (roomType rate : string) (isOpen : bool) : Node :=
    (El "Sheet" [flag "open" open; listener "onOpenChange" onOpenChange]
       [El "SheetContent" [className "w-full sm:w-[540px] overflow-y-auto"]
          [El "SheetHeader" []
             [El "SheetTitle" [] [Txt "Bulk Update"];
              El "SheetDescription" []
                [Txt "Modify rates and availability for a specific date range."]];
           div "grid gap-6 py-6 font-medium"
             [(* Date Range Picker *)
              div "grid gap-2"
                [El "Label" [] [Txt "Date Range"];
                 El "Popover" []
                   [El "PopoverTrigger" [flag "asChild" true]
                      [El "Button"
                         [attr "id" "date"; attr "variant" "outline";
                          className (cn [Some "w-full justify-start text-left font-normal";
                                         if date is None
                                         then Some "text-muted-foreground" else None])]
                         (El "CalendarIcon" [className "mr-2 h-4 w-4"] []
                          :: date_button_label date)];
                    El "PopoverContent" [className "w-auto p-0"; attr "align" "start"]
                      [El "Calendar"
                         [flag "initialFocus" true; attr "mode" "range";
                          date_attr "defaultMonth" (date ≫= DateRange.from);
                          range_attr "selected" date;
                          listener "onSelect" H_setDate;
                          attr "numberOfMonths" "2"]
                         []]]];
              (* Room Type Selector *)
              div "grid gap-2"
                [El "Label" [attr "htmlFor" "room-type"] [Txt "Room Type"];
                 El "Select" [listener "onValueChange" H_setRoomType; attr "value" roomType]
                   [El "SelectTrigger" [attr "id" "room-type"]
                      [El "SelectValue" [attr "placeholder" "Select room type"] []];
                    El "SelectContent" []
                      [El "SelectItem" [attr "value" "deluxe"] [Txt "Deluxe King"];
                       El "SelectItem" [attr "value" "standard"] [Txt "Standard Twin"];
                       El "SelectItem" [attr "value" "suite"] [Txt "Executive Suite"];
                       El "SelectItem" [attr "value" "family"] [Txt "Family Room"];
                       El "SelectItem" [attr "value" "all"] [Txt "All Room Types"]]]];
              (* Rate Input *)
              div "grid gap-2"
                [El "Label" [attr "htmlFor" "rate"] [Txt "New Rate (USD)"];
                 El "Input"
                   [attr "id" "rate"; attr "type" "number";
                    attr "placeholder" "e.g. 150"; attr "value" rate;
                    listener "onChange" H_setRate]
                   []];
              (* Availability Toggle *)
              div "flex items-center justify-between space-x-2 border rounded-lg p-4"
                [div "flex flex-col space-y-1"
                   [El "Label" [attr "htmlFor" "availability"] [Txt "Open for Booking"];
                    span "text-xs text-muted-foreground"
                      [Txt "Turn off to stop selling on all channels."]];
                 El "Switch"
                   [attr "id" "availability"; flag "checked" isOpen;
                    listener "onCheckedChange" H_setIsOpen]
                   []]];
           El "SheetFooter" []
             [El "SheetClose" [flag "asChild" true]
                [El "Button" [attr "variant" "outline"] [Txt "Cancel"]];
              El "Button"
                [listener "onClick" (H_handleUpdate onOpenChange); attr "type" "submit";
                 className "bg-indigo-600 hover:bg-indigo-700 text-white"]
                [Txt "Apply Changes"]]]]).

Definition BulkUpdateDrawer (open : bool) (onOpenChange : Handler bool) : M Node :=
  state ← read drawer;
  mret (BulkUpdateDrawer_jsx open onOpenChange (Form.date state) (Form.roomType state)
          (Form.rate state) (Form.isOpen state)).

(** *** ControlCenterPage.tsx *)

(** The JSX that ControlCenterPage returns, around its three rendered
    children. *)
Definition ControlCenterPage_jsx (health grid bulk : Node) : Node :=
    (div "min-h-screen bg-slate-50 p-4 md:p-8 space-y-6"
       [div "flex justify-between items-center"
          [El "div" []
             [El "h1" [className "text-3xl font-bold tracking-tight text-slate-900"]
                [Txt "Control Center"];
              El "p" [className "text-slate-500 mt-1"]
                [Txt "Manage inventory, rates, and channels."]];
           div "flex gap-3"
             [(* Open Drawer Button *)
              El "Button" [listener "onClick" H_openDrawer] [Txt "Bulk Update"]]];
        (* Channel Health Widget *)
        div "grid grid-cols-1 md:grid-cols-3 gap-6" [health];
        (* Inventory Grid *)
        div "bg-white rounded-xl shadow-sm border border-slate-200 overflow-hidden"
          [div "p-4 border-b border-slate-200"
             [El "h2" [className "text-lg font-semibold text-slate-900"]
                [Txt "Availability & Rates"]];
           grid];
        bulk]).

(** The initial value of the page's [useState] cell. *)
Definition ControlCenterPage_mount : M unit := setIsDrawerOpen false.

Definition ControlCenterPage : M Node :=
  isDrawerOpen ← read isDrawerOpen;
  health ← ChannelHealthWidget;
  grid ← InventoryGrid;
  bulk ← BulkUpdateDrawer isDrawerOpen H_setIsDrawerOpen;
  mret (ControlCenterPage_jsx health grid bulk).

End WithLibraries.

End Dashboard.

(** ** A reference instance of the imported library functions

    Dates in UTC, enough of date-fns' [format] for the four patterns the
    sources use, and [cn] as a plain join.  The theorems below hold for any
    instance; this one is used to run the model. *)
Module Utc.

Definition ms_per_day : Z := 86400000.

Definition addDays (date amount : Z) : Z := date + amount * ms_per_day.

Definition startOfDay (date : Z) : Z := date - date mod ms_per_day.

(** Proleptic Gregorian (year, month, day) of a day number counted from
    1970-01-01. *)
Definition civil (days : Z) : Z * Z * Z :=
  let z := days + 719468 in
  let era := z / 146097 in
  let doe := z mod 146097 in
  let yoe := (doe - doe / 1460 + doe / 36524 - doe / 146096) / 365 in
  let doy := doe - (365 * yoe + yoe / 4 - yoe / 100) in
  let mp := (5 * doy + 2) / 153 in
  let d := doy - (153 * mp + 2) / 5 + 1 in
  let m := if mp <? 10 then mp + 3 else mp - 9 in
  let y := yoe + era * 400 + (if m <=? 2 then 1 else 0) in
  (y, m, d).

Definition pad (width : nat) (n : Z) : string :=
  let s := pretty n in
  String.concat "" (replicate (width - String.length s) "0") +:+ s.

Definition month_name (m : Z) : string :=
  default "" (["Jan"; "Feb"; "Mar"; "Apr"; "May"; "Jun";
               "Jul"; "Aug"; "Sep"; "Oct"; "Nov"; "Dec"] !! Z.to_nat (m - 1)).

Definition weekday_name (days : Z) : string :=
  default "" (["Thu"; "Fri"; "Sat"; "Sun"; "Mon"; "Tue"; "Wed"] !! Z.to_nat (days mod 7)).

Definition format (date : Z) (pattern : string) : string :=
  let days := date / ms_per_day in
  let '(y, m, d) := civil days in
  if String.eqb pattern "yyyy-MM-dd" then pad 4 y +:+ "-" +:+ pad 2 m +:+ "-" +:+ pad 2 d
  else if String.eqb pattern "EEE" then weekday_name days
  else if String.eqb pattern "d MMM" then pretty d +:+ " " +:+ month_name m
  else if String.eqb pattern "LLL dd, y" then month_name m +:+ " " +:+ pad 2 d +:+ ", " +:+ pretty y
  else pattern.

Definition Date_toString (date : Z) : string := pretty date.

Definition cn (inputs : list (option string)) : string :=
  String.concat " " (omap (fun x => x) inputs).

(** Draws cycling through 0, 0.5, the largest double below 1, 0.1875
    and 0.75. *)
Definition draws (n : nat) : Z :=
  match (n mod 5)%nat with
  | 0%nat => 0
  | 1%nat => 2 ^ 1073
  | 2%nat => Float64.one - 2 ^ 1021
  | 3%nat => 3 * 2 ^ 1070
  | _ => 3 * 2 ^ 1072
  end.

(** A browser session on 3 November 2026, 09:30 UTC. *)
Definition world : Dashboard.World :=
  Dashboard.mkWorld draws 0 1793698200000 [] [] ∅ false
    (Dashboard.Form.mk None "" "" true).

(** The same session, with requests on the wire, a stored value and a
    console line behind it. *)
Definition world_with_history : Dashboard.World :=
  Dashboard.mkWorld draws 0 1793698200000
    [Dashboard.mkLog "Updating" (Dashboard.Form.mk None "all" "150" false)]
    ["GET /api/v1/inventory/deluxe"; "POST /api/v1/rates/deluxe/parity"]
    {[ "gridData" := "stale" ]} false
    (Dashboard.Form.mk None "" "" true).

Definition generateMockData := Dashboard.generateMockData addDays format.
Definition InventoryGrid := Dashboard.InventoryGrid addDays format startOfDay Date_toString cn.
Definition ChannelHealthWidget := Dashboard.ChannelHealthWidget cn.
Definition BulkUpdateDrawer := Dashboard.BulkUpdateDrawer format cn.
Definition ControlCenterPage :=
  Dashboard.ControlCenterPage addDays format startOfDay Date_toString cn.

End Utc.

(** ** The synchronisation core (specification sections 3 and 4)

    The README names a back end (webhook ingestion, iCal sync, rate parity)
    whose code is not among the front-end sources.  It is modelled here from
    the specification, one definition per sentence of it. *)
Module Core.

(** *** Data model (section 3) *)

(** Modelled from the spec: the [last_modified_by] source enum
    {manual, channel:<id>, reconciliation}; no back-end source declares it. *)
Inductive Source := manual | channel (id : string) | reconciliation.

(** Modelled from the spec: InventoryDay, keyed by (room_type_id, date),
    with the fields of section 3; the rate is in minor currency units.  The
    back-end record is missing from the sources. *)
Module InventoryDay.
Record t := mk {
  available_units : Z;
  rate : Z;
  is_open : bool;
  version : Z;
  last_modified_by : Source;
}.
End InventoryDay.

(** Modelled from the spec: the Booking status {confirmed, cancelled} of
    section 3 together with the CONFLICT state of section 4.3; the back-end
    enum is missing from the sources. *)
Inductive BookingStatus := confirmed | cancelled | conflict.

(** Modelled from the spec: Booking (section 3), with the date range
    [check_in, check_out) as day numbers and the number of units the
    scenarios of section 8 give a booking; the back-end record is missing
    from the sources. *)
Module Booking.
Record t := mk {
  id : Z;
  room_type_id : string;
  check_in : Z;
  check_out : Z;
  units : N;
  source_channel : string;
  external_reservation_id : string;
  status : BookingStatus;
  created_at : Z;
}.
End Booking.

(** Modelled from the spec: the payload of [POST /webhook/booking-received]
    and of one event of an iCal feed (section 6); the back-end schema is
    missing from the sources. *)
Module Reservation.
Record t := mk {
  channel_id : string;
  external_reservation_id : string;
  room_type_id : string;
  check_in : Z;
  check_out : Z;
  units : N;
  created_at : Z;
}.
End Reservation.

(** Modelled from the spec: SyncTask (section 3), the queued unit of
    outbound work; the back-end record is missing from the sources. *)
Module SyncTask.
Record t := mk {
  channel_id : string;
  room_type_id : string;
  date : Z;
  target_version : Z;
}.
End SyncTask.

(** Modelled from the spec: the error taxonomy of section 7; the back-end
    exception classes are missing from the sources. *)
Inductive Error :=
| ValidationError | VersionConflict | CapacityConflict
| ChannelUnavailable | ChannelRejected | StorageFailure.

(** *** Inventory Ledger (section 4.1) *)

(** Modelled from the spec: "InventoryDay: key = (room_type_id, date)". *)
Abbreviation Key := (string * Z)%type.

(** Modelled from the spec: a Ledger mutation, the new field values of one
    (room_type_id, date) key and who writes them; the back-end type is
    missing from the sources. *)
Module Mutation.
Record t := mk {
  key : Key;
  available_units : Z;
  rate : Z;
  is_open : bool;
  source : Source;
}.
End Mutation.

Module Ledger.

(** Modelled from the spec: the Ledger state of section 4.1, a durable
    change log and the materialized view derived from it; the back-end
    store is missing from the sources. *)
Record t := mk {
  change_log : list (Mutation.t * Z);
  view : gmap Key InventoryDay.t;
}.

(** Modelled from the spec: the result of [apply], "new_version | fails
    with VersionConflict" (section 4.1); missing from the sources. *)
Inductive ApplyResult := new_version (v : Z) | fails (e : Error).

(** Modelled from the spec: the version stored under a key, none before
    the first write; the back-end accessor is missing from the sources. *)
Definition stored_version (l : t) (k : Key) : option Z :=
  InventoryDay.version <$> view l !! k.

(** Modelled from the spec: "version (monotonic integer) ... strictly
    increases on every mutation": a counter, 1 at the first write.  The
    back-end function is missing from the sources. *)
Definition next_version (current : option Z) : Z :=
  match current with
  | None => 1
  | Some v => v + 1
  end.

(** Modelled from the spec: [apply(mutation, expected_version|none) ->
    new_version | fails with VersionConflict]: "every write must supply the
    version it read (or none for first write)"; the mutation is appended to
    the change log before the view updates.  The back-end function is
    missing from the sources. *)
Definition apply (l : t) (m : Mutation.t) (expected_version : option Z)
    : ApplyResult * t :=
  if decide (expected_version = stored_version l (Mutation.key m)) then
    let v := next_version expected_version in
    let log := change_log l ++ [(m, v)] in
    let day :=
      InventoryDay.mk (Mutation.available_units m) (Mutation.rate m)
        (Mutation.is_open m) v (Mutation.source m) in
    (new_version v, mk log (<[Mutation.key m := day]> (view l)))
  else (fails VersionConflict, l).

(** Modelled from the spec: [get(room_type_id, date_range) -> ordered
    sequence of InventoryDay] (section 4.1); the back-end function is
    missing from the sources. *)
Definition get (l : t) (room_type_id : string) (from to : Z) : list InventoryDay.t :=
  omap (fun d => view l !! (room_type_id, d)) (seqZ from (to - from)).

(** Modelled from the spec: a sequence of [apply] calls run one after the
    other ("for all sequences of Ledger mutations", section 8), with the
    result of each; the back-end has no such function, it is the test
    driver of the property. *)
Fixpoint apply_all (l : t) (calls : list (Mutation.t * option Z))
    : list ApplyResult * t :=
  match calls with
  | [] => ([], l)
  | (m, expected_version) :: calls' =>
      let '(r, l1) := apply l m expected_version in
      let '(rs, l2) := apply_all l1 calls' in
      (r :: rs, l2)
  end.

(** Modelled from the spec: the versions a sequence of [apply] calls
    stored under the key [k], in the order they were stored (the "stored
    version" of the optimistic-lock property); an observation, not
    back-end code. *)
Fixpoint versions_stored (k : Key) (l : t) (calls : list (Mutation.t * option Z))
    : list Z :=
  match calls with
  | [] => []
  | (m, expected_version) :: calls' =>
      match apply l m expected_version with
      | (new_version v, l1) =>
          if decide (Mutation.key m = k)
          then v :: versions_stored k l1 calls'
          else versions_stored k l1 calls'
      | (fails _, l1) => versions_stored k l1 calls'
      end
  end.

End Ledger.

(** *** Reconciliation Engine (section 4.3) and iCal ingestion (section 6) *)

(** Modelled from the spec: the state the Reconciliation Engine works on:
    room-type capacities, the authorised channels, the Ledger with its
    Bookings (indexed by (channel, external_reservation_id), "unique per
    channel"), and the outbound SyncTask queue.  The back-end state is
    missing from the sources. *)
Record Engine := mkEngine {
  capacity : gmap string Z;
  channels : list string;
  ledger : Ledger.t;
  bookings : gmap (string * string) Booking.t;
  next_booking_id : Z;
  queue : list SyncTask.t;
}.

(** Modelled from the spec: the terminal states of the per-event state
    machine, RECEIVED -> VALIDATED -> {APPLIED | REJECTED | CONFLICT_QUEUED}
    (section 4.3); an applied event returns the versions of the Ledger keys
    of the stay, as (date, version) pairs.  Missing from the sources. *)
Inductive Outcome :=
| APPLIED (versions : list (Z * Z))
| REJECTED (why : Error)
| CONFLICT_QUEUED.

(** Modelled from the spec: a SyncTask is "idempotent by (channel_id,
    room_type_id, date) key". *)
Definition same_key (a b : SyncTask.t) : bool :=
  String.eqb (SyncTask.channel_id a) (SyncTask.channel_id b)
  && String.eqb (SyncTask.room_type_id a) (SyncTask.room_type_id b)
  && (SyncTask.date a =? SyncTask.date b).

(** Modelled from the spec: "coalesced if a newer task for the same key is
    enqueued before dispatch" (section 3): the newer task replaces the
    older.  The back-end queue is missing from the sources. *)
Definition enqueue (t : SyncTask.t) (q : list SyncTask.t) : list SyncTask.t :=
  filter (fun t' => same_key t t' = false) q ++ [t].

(** Modelled from the spec: the (date, version) pairs currently stored for
    the nights [check_in, check_out) of a room type, what an applied event
    returns. *)
Definition current_versions (l : Ledger.t) (room_type_id : string)
    (check_in check_out : Z) : list (Z * Z) :=
  omap (fun d => pair d <$> Ledger.stored_version l (room_type_id, d))
       (seqZ check_in (check_out - check_in)).

(** Modelled from the spec: one Ledger mutation of a night: the engine reads
    the day (a day never written holds the full capacity), changes the
    available units by [delta] and writes it back with the version it read
    (section 4.1). *)
Definition adjust_night (cap delta : Z) (src : Source) (room_type_id : string)
    (l : Ledger.t) (d : Z) : Ledger.t :=
  let current := Ledger.view l !! (room_type_id, d) in
  let m :=
    Mutation.mk (room_type_id, d)
      (from_option InventoryDay.available_units cap current + delta)
      (from_option InventoryDay.rate 0 current)
      (from_option InventoryDay.is_open true current)
      src in
  (Ledger.apply l m (InventoryDay.version <$> current)).2.

(** Modelled from the spec: "enqueues a SyncTask per affected channel
    excluding the originating channel (no self-sync loop)" (section 4.3),
    for one night at its stored version. *)
Definition enqueue_night (origin room_type_id : string) (l : Ledger.t)
    (targets : list string) (q : list SyncTask.t) (d : Z) : list SyncTask.t :=
  match Ledger.stored_version l (room_type_id, d) with
  | None => q
  | Some v =>
      foldl (fun q c =>
               if String.eqb c origin then q
               else enqueue (SyncTask.mk c room_type_id d v) q)
            q targets
  end.

(** Modelled from the spec: "every applied event produces one Ledger
    mutation and enqueues a SyncTask per affected channel" (section 4.3),
    here one mutation per night of the stay. *)
Definition move_units (e : Engine) (origin room_type_id : string)
    (check_in check_out delta : Z) : Engine :=
  let nights := seqZ check_in (check_out - check_in) in
  let cap := default 0 (capacity e !! room_type_id) in
  let l := foldl (adjust_night cap delta (channel origin) room_type_id) (ledger e) nights in
  let q := foldl (enqueue_night origin room_type_id l (channels e)) (queue e) nights in
  mkEngine (capacity e) (channels e) l (bookings e) (next_booking_id e) q.

(** Modelled from the spec: "Validation checks capacity, date sanity, and
    channel authorization" (section 4.3). *)
Definition valid (e : Engine) (r : Reservation.t) : bool :=
  bool_decide (Reservation.channel_id r ∈ channels e)
  && (Reservation.check_in r <? Reservation.check_out r)
  && (0 <? Reservation.units r)%N
  && match capacity e !! Reservation.room_type_id r with
     | Some cap => Z.of_N (Reservation.units r) <=? cap
     | None => false
     end.

(** Modelled from the spec: the Booking status tests of section 3. *)
Definition is_confirmed (bk : Booking.t) : bool :=
  match Booking.status bk with confirmed => true | _ => false end.

(** Modelled from the spec: the Booking status tests of section 3. *)
Definition is_cancelled (bk : Booking.t) : bool :=
  match Booking.status bk with cancelled => true | _ => false end.

(** Modelled from the spec: whether a Booking counts towards a room type on
    a night: it is confirmed and its range [check_in, check_out) holds the
    night (section 3). *)
Definition counts (room_type_id : string) (d : Z) (bk : Booking.t) : bool :=
  is_confirmed bk
  && String.eqb (Booking.room_type_id bk) room_type_id
  && (Booking.check_in bk <=? d) && (d <? Booking.check_out bk).

(** Modelled from the spec: "sum of overlapping confirmed Bookings for a
    room_type/date" (section 3). *)
Definition load (bs : gmap (string * string) Booking.t) (room_type_id : string) (d : Z) : Z :=
  map_fold
    (fun _ bk acc =>
       if counts room_type_id d bk then acc + Z.of_N (Booking.units bk) else acc)
    0 bs.

(** Modelled from the spec: a confirmed Booking of the same room type whose
    date range overlaps the incoming one (section 4.3). *)
Definition is_rival (r : Reservation.t) (bk : Booking.t) : bool :=
  is_confirmed bk
  && String.eqb (Booking.room_type_id bk) (Reservation.room_type_id r)
  && (Booking.check_in bk <? Reservation.check_out r)
  && (Reservation.check_in r <? Booking.check_out bk).

(** Modelled from the spec: a status transition of a Booking, which keeps
    every other field (section 4.3). *)
Definition set_status (s : BookingStatus) (bk : Booking.t) : Booking.t :=
  Booking.mk (Booking.id bk) (Booking.room_type_id bk) (Booking.check_in bk)
    (Booking.check_out bk) (Booking.units bk) (Booking.source_channel bk)
    (Booking.external_reservation_id bk) s (Booking.created_at bk).

(** Modelled from the spec: the index of a Booking, "external_reservation_id
    (unique per channel)" (section 3). *)
Definition key_of (r : Reservation.t) : string * string :=
  (Reservation.channel_id r, Reservation.external_reservation_id r).

(** Modelled from the spec: the Booking a reservation becomes. *)
Definition booking_of (r : Reservation.t) (id : Z) (s : BookingStatus) : Booking.t :=
  Booking.mk id (Reservation.room_type_id r)
    (Reservation.check_in r) (Reservation.check_out r) (Reservation.units r)
    (Reservation.channel_id r) (Reservation.external_reservation_id r) s
    (Reservation.created_at r).

(** Modelled from the spec: recording the Booking of a reservation under
    its (channel, external_reservation_id). *)
Definition store (e : Engine) (r : Reservation.t) (s : BookingStatus) : Engine :=
  mkEngine (capacity e) (channels e) (ledger e)
    (<[key_of r := booking_of r (next_booking_id e) s]> (bookings e))
    (next_booking_id e + 1) (queue e).

(** Modelled from the spec: "earliest created_at wins confirmation"
    (section 4.3): the part of the load of a room type on a night that comes
    from the Bookings created up to the time [t], the ones the tie-break
    puts first. *)
Definition load_until (t : Z) (bs : gmap (string * string) Booking.t)
    (room_type_id : string) (d : Z) : Z :=
  map_fold
    (fun _ bk acc =>
       if counts room_type_id d bk && (Booking.created_at bk <=? t)
       then acc + Z.of_N (Booking.units bk) else acc)
    0 bs.

(** Modelled from the spec: the confirmed rivals of a reservation that
    were created after it, the Bookings a winning reservation can push out
    (section 4.3). *)
Definition later_rivals (bs : gmap (string * string) Booking.t) (r : Reservation.t)
    : list ((string * string) * Booking.t) :=
  filter (fun kb : (string * string) * Booking.t =>
            is_rival r kb.2 = true ∧ Reservation.created_at r < Booking.created_at kb.2)
         (map_to_list bs).

(** Modelled from the spec: the order of the tie-break, by created_at. *)
Definition created_le (x y : (string * string) * Booking.t) : Prop :=
  Booking.created_at x.2 <= Booking.created_at y.2.

#[export] Instance created_le_dec x y : Decision (created_le x y) :=
  Z_le_dec (Booking.created_at x.2) (Booking.created_at y.2).

(** Modelled from the spec: a Booking keeps its confirmation when, on every
    night of its stay, the Bookings created up to its own created_at (itself
    among them) fit in the capacity (sections 3 and 4.3). *)
Definition keeps (cap : Z) (bs : gmap (string * string) Booking.t) (bk : Booking.t) : bool :=
  forallb (fun d => load_until (Booking.created_at bk) bs (Booking.room_type_id bk) d <=? cap)
          (seqZ (Booking.check_in bk) (Booking.check_out bk - Booking.check_in bk)).

(** Modelled from the spec: "the losing Booking transitions to a CONFLICT
    state" (section 4.3): a Booking that no longer keeps its confirmation
    loses it and its units return to the Ledger. *)
Definition rejudge (origin : string) (e : Engine) (kb : (string * string) * Booking.t)
    : Engine :=
  let bk := kb.2 in
  let cap := default 0 (capacity e !! Booking.room_type_id bk) in
  if keeps cap (bookings e) bk then e
  else
    let e1 :=
      move_units e origin (Booking.room_type_id bk) (Booking.check_in bk)
        (Booking.check_out bk) (Z.of_N (Booking.units bk)) in
    mkEngine (capacity e1) (channels e1) (ledger e1)
      (<[kb.1 := set_status conflict bk]> (bookings e1))
      (next_booking_id e1) (queue e1).

(** Modelled from the spec: the tie-break won by the incoming reservation
    (section 4.3): its Booking is recorded as confirmed, the confirmed rivals
    created after it are judged again one by one, the earliest first, and
    the reservation's units are taken from the Ledger. *)
Definition settle (e : Engine) (r : Reservation.t) : Engine :=
  let rivals := merge_sort created_le (later_rivals (bookings e) r) in
  let e1 := foldl (rejudge (Reservation.channel_id r)) (store e r confirmed) rivals in
  move_units e1 (Reservation.channel_id r) (Reservation.room_type_id r)
    (Reservation.check_in r) (Reservation.check_out r) (- Z.of_N (Reservation.units r)).

(** Modelled from the spec: a booking confirmation run through the event
    state machine of section 4.3.  A reservation already known under its
    (channel, external id) creates no duplicate (section 4.2).  One that
    fits is applied.  "On capacity overflow ... the engine applies a
    deterministic tie-break: earliest created_at wins confirmation; the
    losing Booking transitions to a CONFLICT state": the incoming reservation
    wins when it fits beside the Bookings created no later than it, and the
    confirmed rivals created after it are then judged again; otherwise the
    incoming reservation is the one recorded in CONFLICT.  The back-end
    handler is missing from the sources. *)
Definition receive_confirmation (e : Engine) (r : Reservation.t) : Outcome * Engine :=
  let rt := Reservation.room_type_id r in
  let check_in := Reservation.check_in r in
  let check_out := Reservation.check_out r in
  if negb (valid e r) then (REJECTED ValidationError, e)
  else
    match bookings e !! key_of r with
    | Some bk => (APPLIED (current_versions (ledger e) rt check_in check_out), e)
    | None =>
        let cap := default 0 (capacity e !! rt) in
        let nights := seqZ check_in (check_out - check_in) in
        let units := Z.of_N (Reservation.units r) in
        if forallb (fun d => load (bookings e) rt d + units <=? cap) nights
        then
          let e' := store (move_units e (Reservation.channel_id r) rt check_in check_out
                             (- units)) r confirmed in
          (APPLIED (current_versions (ledger e') rt check_in check_out), e')
        else if forallb (fun d => load_until (Reservation.created_at r) (bookings e) rt d
                                  + units <=? cap) nights
        then
          let e' := settle e r in
          (APPLIED (current_versions (ledger e') rt check_in check_out), e')
        else (CONFLICT_QUEUED, store e r conflict)
    end.

(** Modelled from the spec: a cancellation event for the Booking known
    under (channel, external id).  "Cancellations always apply regardless of
    order (monotonic: a later cancellation event for an already-cancelled
    booking is a no-op, not an error)"; cancelling a confirmed Booking
    returns its units to the Ledger, a Booking in CONFLICT holds none.  The
    back-end handler is missing from the sources. *)
Definition receive_cancellation (e : Engine) (channel_id external_reservation_id : string)
    : Outcome * Engine :=
  match bookings e !! (channel_id, external_reservation_id) with
  | None => (REJECTED ValidationError, e)
  | Some bk =>
      let rt := Booking.room_type_id bk in
      let check_in := Booking.check_in bk in
      let check_out := Booking.check_out bk in
      match Booking.status bk with
      | cancelled => (APPLIED (current_versions (ledger e) rt check_in check_out), e)
      | s =>
          let e1 :=
            match s with
            | confirmed =>
                move_units e channel_id rt check_in check_out (Z.of_N (Booking.units bk))
            | _ => e
            end in
          let e2 :=
            mkEngine (capacity e1) (channels e1) (ledger e1)
              (<[(channel_id, external_reservation_id) := set_status cancelled bk]>
                 (bookings e1))
              (next_booking_id e1) (queue e1) in
          (APPLIED (current_versions (ledger e2) rt check_in check_out), e2)
      end
  end.

(** Modelled from the spec: the events of a feed posted to
    [/webhook/{channel}/ical-sync] are reservations of that channel. *)
Definition with_channel (channel_id : string) (r : Reservation.t) : Reservation.t :=
  Reservation.mk channel_id (Reservation.external_reservation_id r)
    (Reservation.room_type_id r) (Reservation.check_in r) (Reservation.check_out r)
    (Reservation.units r) (Reservation.created_at r).

(** Modelled from the spec: "adds new": the events of the feed that match
    no existing Booking (section 6). *)
Definition new_in_feed (e : Engine) (feed : list Reservation.t) : list Reservation.t :=
  filter (fun r => bookings e !! key_of r = None) feed.

(** Modelled from the spec: "cancels missing": the Bookings of the channel
    that are not yet cancelled and whose external id the feed no longer
    holds (section 6). *)
Definition missing_from_feed (e : Engine) (channel_id : string)
    (feed : list Reservation.t) : list ((string * string) * Booking.t) :=
  filter (fun kb : (string * string) * Booking.t =>
            kb.1.1 = channel_id ∧ is_cancelled kb.2 = false
            ∧ kb.1.2 ∉ map Reservation.external_reservation_id feed)
         (map_to_list (bookings e)).

(** Modelled from the spec: the new events, received as confirmations one
    after the other. *)
Definition receive_all (e : Engine) (rs : list Reservation.t) : Engine :=
  foldl (fun e' r => (receive_confirmation e' r).2) e rs.

(** Modelled from the spec: the missing Bookings, cancelled one after the
    other. *)
Definition cancel_all (channel_id : string) (e : Engine)
    (kbs : list ((string * string) * Booking.t)) : Engine :=
  foldl (fun e' kb => (receive_cancellation e' channel_id kb.1.2).2) e kbs.

(** Modelled from the spec: [POST /webhook/{channel}/ical-sync] "ingests a
    full iCal feed and diffs against existing Bookings for that channel
    (adds new, cancels missing, idempotent re-ingestion)" (section 6).  The
    back-end handler is missing from the sources. *)
Definition ingest_ical (e : Engine) (channel_id : string) (feed : list Reservation.t)
    : Engine :=
  let feed := map (with_channel channel_id) feed in
  let new := new_in_feed e feed in
  let missing := missing_from_feed e channel_id feed in
  cancel_all channel_id (receive_all e new) missing.

(** *** Outbound Sync Scheduler (section 4.4) *)

(** Modelled from the spec: [circuit_state {closed, open, half_open}]
    (section 3); the back-end enum is missing from the sources. *)
Inductive CircuitState := closed | open | half_open.

(** Modelled from the spec: ChannelAdapterState (section 3), with the time
    the circuit last opened and the time before which backoff suspends
    dispatch, which the cool-down window and the backoff of section 4.4 are
    measured from.  The back-end record is missing from the sources. *)
Module ChannelAdapterState.
Record t := mk {
  channel_id : string;
  credentials_ref : string;
  last_successful_sync_at : option Z;
  consecutive_failure_count : nat;
  circuit_state : CircuitState;
  opened_at : Z;
  retry_at : Z;
}.
End ChannelAdapterState.

(** Modelled from the spec: the settings of section 4.4: the failure count
    K that opens the circuit (default 5), the cool-down window, the batch
    size N, and the base and the cap of the backoff delay.  The back-end
    configuration is missing from the sources. *)
Record Config := mkConfig {
  failure_threshold : nat;
  cool_down : Z;
  batch_size : nat;
  base_delay : Z;
  max_delay : Z;
}.

(** Modelled from the spec: a channel as the Scheduler sees it, its adapter
    state and its queue of SyncTasks (section 4.4). *)
Record Channel := mkChannel {
  adapter : ChannelAdapterState.t;
  pending : list SyncTask.t;
}.

(** Modelled from the spec: what one dispatch cycle sends to a channel:
    nothing, a batch of tasks, or the half_open probe task (section 4.4). *)
Inductive Dispatch :=
| idle
| batch (tasks : list SyncTask.t)
| probe (task : option SyncTask.t).

(** Modelled from the spec: what the Scheduler reacts to: a dispatch cycle
    at a time, or the outcome of a task it sent (section 4.4). *)
Inductive Event :=
| Tick (now : Z)
| Result (now : Z) (task : option SyncTask.t) (success : bool).

(** Modelled from the spec: "exponential backoff per channel (base delay
    doubling, capped)" (section 4.4). *)
Definition backoff (cfg : Config) (failures : nat) : Z :=
  Z.min (max_delay cfg) (base_delay cfg * 2 ^ (Z.of_nat failures - 1)).

(** Modelled from the spec: one dispatch cycle for a channel.  Closed:
    "batch up to N tasks per channel per cycle", once the backoff delay has
    passed.  Open: "suspending dispatch for a cool-down window; a half_open
    probe task is sent after the window".  Half-open: the probe is out,
    nothing else is sent.  The back-end dispatcher is missing from the
    sources. *)
Definition tick (cfg : Config) (now : Z) (c : Channel) : Dispatch * Channel :=
  let a := adapter c in
  match ChannelAdapterState.circuit_state a with
  | closed =>
      if now <? ChannelAdapterState.retry_at a then (idle, c)
      else
        match take (batch_size cfg) (pending c) with
        | [] => (idle, c)
        | tasks => (batch tasks, mkChannel a (drop (batch_size cfg) (pending c)))
        end
  | open =>
      if now <? ChannelAdapterState.opened_at a + cool_down cfg then (idle, c)
      else
        (probe (head (pending c)),
         mkChannel
           (ChannelAdapterState.mk (ChannelAdapterState.channel_id a)
              (ChannelAdapterState.credentials_ref a)
              (ChannelAdapterState.last_successful_sync_at a)
              (ChannelAdapterState.consecutive_failure_count a)
              half_open
              (ChannelAdapterState.opened_at a) (ChannelAdapterState.retry_at a))
           (tail (pending c)))
  | half_open => (idle, c)
  end.

(** Modelled from the spec: the outcome of a sent task.  Success resets the
    failure count, and "success closes the circuit" of a probe.  A failure
    is retried with backoff; "after K consecutive failures ... the channel's
    circuit opens"; a failed probe "reopens it with reset backoff".  The
    back-end handler is missing from the sources. *)
Definition result (cfg : Config) (now : Z) (task : option SyncTask.t) (success : bool)
    (c : Channel) : Channel :=
  let a := adapter c in
  let state := ChannelAdapterState.circuit_state a in
  if success then
    mkChannel
      (ChannelAdapterState.mk (ChannelAdapterState.channel_id a)
         (ChannelAdapterState.credentials_ref a)
         (Some now) 0
         (match state with half_open => closed | s => s end)
         (ChannelAdapterState.opened_at a) now)
      (pending c)
  else
    let failures := S (ChannelAdapterState.consecutive_failure_count a) in
    let retried := from_option (fun t => enqueue t (pending c)) (pending c) task in
    let opens :=
      match state with
      | closed => bool_decide (failure_threshold cfg <= failures)%nat
      | half_open => true
      | open => false
      end in
    mkChannel
      (ChannelAdapterState.mk (ChannelAdapterState.channel_id a)
         (ChannelAdapterState.credentials_ref a)
         (ChannelAdapterState.last_successful_sync_at a)
         failures
         (if opens then open else state)
         (if opens then now else ChannelAdapterState.opened_at a)
         (if opens then now else now + backoff cfg failures))
      retried.

(** Modelled from the spec: the Scheduler's reaction to one event; only a
    dispatch cycle sends anything (section 4.4). *)
Definition step (cfg : Config) (ev : Event) (c : Channel) : Dispatch * Channel :=
  match ev with
  | Tick now => tick cfg now c
  | Result now task success => (idle, result cfg now task success c)
  end.

(** Modelled from the spec: the Scheduler run over a sequence of events,
    with what each of them dispatched. *)
Fixpoint run (cfg : Config) (evs : list Event) (c : Channel) : list Dispatch * Channel :=
  match evs with
  | [] => ([], c)
  | ev :: evs' =>
      let '(d, c1) := step cfg ev c in
      let '(ds, c2) := run cfg evs' c1 in
      (d :: ds, c2)
  end.

(** Modelled from the spec: the "dispatch failures" and successes among
    the events (section 4.4). *)
Definition is_failure (ev : Event) : bool :=
  match ev with Result _ _ false => true | _ => false end.

(** Modelled from the spec: see [is_failure]. *)
Definition is_success (ev : Event) : bool :=
  match ev with Result _ _ true => true | _ => false end.

(** *** Vocabulary of the properties *)

(** A Booking is known under a (channel, external id). *)
Definition known (e : Engine) (k : string * string) : Prop := is_Some (bookings e !! k).

(** A Booking is known under a (channel, external id) and cancelled. *)
Definition dead (e : Engine) (k : string * string) : Prop :=
  ∃ bk, bookings e !! k = Some bk ∧ is_cancelled bk = true.

(** What every event preserves: the configuration, the Bookings that are
    known, and the Bookings that are cancelled. *)
Definition evolves (e e' : Engine) : Prop :=
  capacity e' = capacity e ∧ channels e' = channels e ∧
  (∀ k, known e k -> known e' k) ∧ (∀ k, dead e k -> dead e' k).

(** *** The scenario of section 8

    Room type "deluxe" with capacity 10; booking A of booking.com, 2 units,
    2024-06-01 to 2024-06-03, created at T0; booking B of airbnb, 9 units,
    same range, created at T1 > T0; further bookings of the same range to
    put beside them; and a channel that fails five times. *)
Module Scenario.

Definition e0 : Engine :=
  mkEngine {[ "deluxe" := 10 ]} ["booking.com"; "airbnb"; "expedia"; "agoda"]
    (Ledger.mk [] ∅) ∅ 1 [].

Definition A : Reservation.t :=
  Reservation.mk "booking.com" "BK-1" "deluxe" 19875 19877 2 1000.

Definition B : Reservation.t :=
  Reservation.mk "airbnb" "AB-7" "deluxe" 19875 19877 9 2000.

(** A third booking of the same range, of expedia, 1 unit, created before
    A and B; and the engine that holds it confirmed. *)
Definition C : Reservation.t :=
  Reservation.mk "expedia" "EX-3" "deluxe" 19875 19877 1 0.

Definition e_C : Engine := (receive_confirmation e0 C).2.

(** A booking of agoda, 1 unit, created after A and B. *)
Definition D : Reservation.t :=
  Reservation.mk "agoda" "AG-9" "deluxe" 19875 19877 1 3000.

(** A booking of expedia created before A and B that takes 9 units. *)
Definition C9 : Reservation.t :=
  Reservation.mk "expedia" "EX-4" "deluxe" 19875 19877 9 0.

(** The engine after A was confirmed and then cancelled once. *)
Definition e_cancelled : Engine :=
  (receive_cancellation (receive_confirmation e0 A).2 "booking.com" "BK-1").2.

Definition cfg : Config := mkConfig 5 300 10 1 60.

Definition task : SyncTask.t := SyncTask.mk "expedia" "deluxe" 19875 1.

Definition expedia : Channel :=
  mkChannel (ChannelAdapterState.mk "expedia" "vault/expedia" None 0 closed 0 0) [task].

Definition four_failures : list Event :=
  [Tick 0; Result 1 (Some task) false; Tick 2; Result 3 (Some task) false;
   Result 4 None false; Tick 5; Result 6 (Some task) false].

End Scenario.

End Core.

(** ** Vocabulary for further properties of the dashboard *)
Module Coverage.
Import Dashboard.

(** The cell the loop body of [generateMockData] builds for the date string
    [dateStr] when [Math.random] returns the numbers [draw n] and
    [draw (n + 1)]. *)
Definition mock_cell (draw : nat -> Z) (n : nat) (dateStr : string) : DailyStats.t :=
  DailyStats.mk dateStr
    (Float64.floor (Float64.mul_literal (draw n) 11))
    (100 + Float64.floor (Float64.mul_literal (draw (S n)) 50))
    (Float64.floor (Float64.mul_literal (draw n) 11) =? 0).

(** What a data cell of the grid shows: the inventory or SOLD, then the
    rate after a dollar sign. *)
Definition cell_texts (cell : DailyStats.t) : list string :=
  [if DailyStats.isSoldOut cell then "SOLD" else pretty (DailyStats.inventory cell);
   "$"; pretty (DailyStats.rate cell)].

(** What a user does to the form of the drawer: pick a range in the
    calendar, select a room type, type into the rate input, flip the
    switch. *)
Inductive FormEdit :=
| PickDate (d : option DateRange.t)
| SelectRoomType (v : string)
| TypeRate (v : string)
| ToggleOpen (b : bool).

(** The listener each edit calls. *)
Definition fire_edit (e : FormEdit) : M unit :=
  match e with
  | PickDate d => fire H_setDate d
  | SelectRoomType v => fire H_setRoomType v
  | TypeRate v => fire H_setRate v
  | ToggleOpen b => fire H_setIsOpen b
  end.

(** The value the last edit of one kind left, [initial] when there was
    none. *)
Definition last_edit {A} (pick : FormEdit -> option A) (es : list FormEdit)
    (initial : A) : A :=
  default initial (last (omap pick es)).

Definition picked_date (e : FormEdit) : option (option DateRange.t) :=
  match e with PickDate d => Some d | _ => None end.

Definition selected_roomType (e : FormEdit) : option string :=
  match e with SelectRoomType v => Some v | _ => None end.

Definition typed_rate (e : FormEdit) : option string :=
  match e with TypeRate v => Some v | _ => None end.

Definition toggled_open (e : FormEdit) : option bool :=
  match e with ToggleOpen b => Some b | _ => None end.

(** The form after a sequence of edits: each field holds what its last
    edit wrote. *)
Definition edited (es : list FormEdit) (f : Form.t) : Form.t :=
  Form.mk (last_edit picked_date es (Form.date f))
          (last_edit selected_roomType es (Form.roomType f))
          (last_edit typed_rate es (Form.rate f))
          (last_edit toggled_open es (Form.isOpen f)).

(** What a user can do on the page, one constructor per listener the page
    renders: edit the form, click Bulk Update, have the Sheet report an
    open change (Cancel, Escape and a click outside report [false]), click
    Apply Changes. *)
Inductive UserAction :=
| EditForm (e : FormEdit)
| ClickBulkUpdate
| SheetOpenChange (b : bool)
| ClickApply.

Definition act (a : UserAction) : M unit :=
  match a with
  | EditForm e => fire_edit e
  | ClickBulkUpdate => fire H_openDrawer tt
  | SheetOpenChange b => fire H_setIsDrawerOpen b
  | ClickApply => fire (H_handleUpdate H_setIsDrawerOpen) tt
  end.

Fixpoint session (acts : list UserAction) : M unit :=
  match acts with
  | [] => mret tt
  | a :: acts' => act a;; session acts'
  end.

Definition edit_of (a : UserAction) : option FormEdit :=
  match a with EditForm e => Some e | _ => None end.

Definition edits_of (acts : list UserAction) : list FormEdit := omap edit_of acts.

(** What an action writes to [isDrawerOpen], if anything. *)
Definition opening (a : UserAction) : option bool :=
  match a with
  | EditForm _ => None
  | ClickBulkUpdate => Some true
  | SheetOpenChange b => Some b
  | ClickApply => Some false
  end.

Definition open_after (acts : list UserAction) (initial : bool) : bool :=
  default initial (last (omap opening acts)).

Definition is_apply (a : UserAction) : bool :=
  match a with ClickApply => true | _ => false end.

Definition applies (acts : list UserAction) : nat :=
  length (filter (fun a => is_apply a = true) acts).

(** A listener of a tree: the prop it is passed as, and the handler. *)
Inductive Listener :=
| on (name : string) {A : Type} (h : Handler A).

Definition attr_listeners (a : Attr) : list Listener :=
  match a with listener name h => [on name h] | _ => [] end.

(** The listeners a tree carries, in document order. *)
Fixpoint listeners (n : Node) : list Listener :=
  match n with
  | El _ attrs children => flat_map attr_listeners attrs ++ flat_map listeners children
  | _ => []
  end.

Definition attr_name (a : Attr) : string :=
  match a with
  | className _ => "className"
  | attr name _ | flag name _ | date_attr name _ | range_attr name _ => name
  | listener name _ => name
  end.

(** The props called [name] of the elements [tag] of a tree, in document
    order. *)
Fixpoint props (tag name : string) (n : Node) : list Attr :=
  match n with
  | El t attrs children =>
      (if String.eqb t tag
       then filter (fun a => attr_name a = name) attrs else [])
      ++ flat_map (props tag name) children
  | _ => []
  end.

Section WithLibraries.
Context (addDays : Z -> Z -> Z) (format : Z -> string -> string).

(** The key of day [i]: [format(addDays(startDate, i), "yyyy-MM-dd")]. *)
Definition date_key (startDate : Z) (i : nat) : string :=
  format (addDays startDate (Z.of_nat i)) "yyyy-MM-dd".

(** The loop over the days read as a fold: day [i] of the [count] days from
    [i0] on is stored under its key, built from the draws number
    [u + 2 * (i - i0)] and the next. *)
Definition fill_days (draw : nat -> Z) (startDate : Z) (u i0 count : nat)
    (row : Row) : Row :=
  foldl (fun row i =>
           <[date_key startDate i
               := mock_cell draw (u + 2 * (i - i0)) (date_key startDate i)]> row)
        row (seq i0 count).

(** The [forEach] over the rooms read as a fold: each room gets a fresh row
    of [days] days, from the next [2 * days] draws. *)
Fixpoint fill_rooms (draw : nat -> Z) (startDate : Z) (days u : nat)
    (rooms : list RoomType.t) (data : Grid) : Grid :=
  match rooms with
  | [] => data
  | room :: rest =>
      fill_rooms draw startDate days (u + 2 * days) rest
        (<[RoomType.id room := fill_days draw startDate u 0 days ∅]> data)
  end.

(** The cell the grid holds for a room and a date, if any. *)
Definition grid_cell (g : Grid) (room : RoomType.t) (date : Z) : option DailyStats.t :=
  g !! RoomType.id room ≫= (.!! format date "yyyy-MM-dd").

(** What a row of the grid shows: the room's name, then its cells. *)
Definition row_texts (g : Grid) (dateHeaders : list Z) (room : RoomType.t) : list string :=
  RoomType.name room
  :: flat_map (fun date => from_option cell_texts [] (grid_cell g room date)) dateHeaders.

End WithLibraries.

End Coverage.

(* ================================================================= *)
(** * Properties *)

(** ** Rounding of doubles *)
Module Float64Facts.
Import Float64.

(** The two neighbours between which [round] chooses. *)
Lemma round_cases n :
  0 <= n ->
  let e := Z.log2 n - 52 in
  (e <= 0 /\ round n = n) \/
  (0 < e /\ exists q r, n = q * 2 ^ e + r /\ 0 <= r < 2 ^ e /\ 0 <= q /\
     ((round n = q * 2 ^ e) \/ (2 ^ (e - 1) <= r /\ round n = (q + 1) * 2 ^ e))).
Proof.
  intros Hn e. unfold round. fold e.
  destruct (Z.leb_spec e 0) as [He|He]; [left; auto|right].
  split; [assumption|].
  assert (Hp : 0 < 2 ^ e) by (apply Z.pow_pos_nonneg; lia).
  exists (n / 2 ^ e), (n mod 2 ^ e).
  pose proof (Z.div_mod n (2 ^ e)) as Hdm.
  pose proof (Z.mod_pos_bound n (2 ^ e) Hp) as Hr.
  pose proof (Z.div_pos n (2 ^ e) Hn Hp) as Hq.
  repeat split; try lia.
  destruct (Z.ltb_spec (n mod 2 ^ e) (2 ^ (e - 1))) as [Hlt|Hge]; cbn [orb].
  - left; reflexivity.
  - destruct ((n mod 2 ^ e =? 2 ^ (e - 1)) && Z.even (n / 2 ^ e)).
    + left; reflexivity.
    + right; split; [lia|reflexivity].
Qed.

Lemma round_nonneg n : 0 <= n -> 0 <= round n.
Proof.
  intros Hn. destruct (round_cases n Hn) as [[_ ->]|[He (q & r & Hnq & Hr & Hq & [->| [_ ->]])]].
  - assumption.
  - assert (0 < 2 ^ (Z.log2 n - 52)) by (apply Z.pow_pos_nonneg; lia). nia.
  - assert (0 < 2 ^ (Z.log2 n - 52)) by (apply Z.pow_pos_nonneg; lia). nia.
Qed.

(** Rounding never crosses the next power of two. *)
Lemma round_le_pow2 n : 0 < n -> round n <= 2 ^ (Z.log2 n + 1).
Proof.
  intros Hn. pose proof (Z.log2_spec n Hn) as [Hlo Hhi].
  replace (Z.succ (Z.log2 n)) with (Z.log2 n + 1) in Hhi by lia.
  destruct (round_cases n) as [[_ ->]|[He (q & r & Hnq & Hr & Hq & Hc)]]; [lia|lia|].
  set (e := Z.log2 n - 52) in *.
  assert (Hp : 0 < 2 ^ e) by (apply Z.pow_pos_nonneg; lia).
  assert (Hsplit : 2 ^ (Z.log2 n + 1) = 2 ^ 53 * 2 ^ e).
  { rewrite <- Z.pow_add_r by lia. f_equal. lia. }
  rewrite Hsplit in *.
  assert (q < 2 ^ 53) by nia.
  destruct Hc as [->|[_ ->]]; nia.
Qed.

(** The largest double below 1 is [1 - 2^-53]. *)
Lemma below_one x : in_unit_interval x = true -> 0 <= x <= one - 2 ^ 1021.
Proof.
  unfold in_unit_interval, is_float.
  rewrite !andb_true_iff, Z.leb_le, Z.eqb_eq, Z.ltb_lt. intros [[H0 Hr] H1].
  split; [assumption|].
  destruct (Z.eq_dec x 0) as [->|Hx]; [unfold one; lia|].
  assert (Hpos : 0 < x) by lia.
  pose proof (Z.log2_spec x Hpos) as [Hlo Hhi].
  assert (HL : Z.log2 x < 1074).
  { apply Z.log2_lt_pow2; [lia|exact H1]. }
  destruct (Z.eq_dec (Z.log2 x) 1073) as [E|NE].
  - destruct (round_cases x H0) as [[He _]|[He (q & r & Hnq & Hrr & Hq & Hc)]]; [lia|].
    rewrite E in *. change (1073 - 52) with 1021 in *.
    assert (Hone : one = 2 ^ 53 * 2 ^ 1021) by reflexivity.
    assert (Hp : 0 < 2 ^ 1021) by (apply Z.pow_pos_nonneg; lia).
    rewrite Hone in *. set (P := 2 ^ 1021) in *.
    rewrite Hr in Hc. destruct Hc as [Hc|[_ Hc]]; nia.
  - assert (Hle : 2 ^ Z.succ (Z.log2 x) <= 2 ^ 1073) by (apply Z.pow_le_mono_r; lia).
    assert (one - 2 ^ 1021 >= 2 ^ 1073) by (vm_compute; discriminate).
    lia.
Qed.

(** A double below 1 times an integer literal [k] that is not a power of
    two stays below [k] after rounding. *)
Lemma mul_literal_lt x k j :
  in_unit_interval x = true ->
  0 <= j <= 52 -> 2 ^ j < k < 2 ^ (j + 1) ->
  0 <= mul_literal x k < k * one.
Proof.
  intros Hx Hj Hk. apply below_one in Hx. destruct Hx as [H0 Hx].
  assert (Hj0 : 0 < 2 ^ j) by (apply Z.pow_pos_nonneg; lia).
  assert (Hone0 : 0 < one) by reflexivity.
  unfold mul_literal. split; [apply round_nonneg; nia|].
  set (n := x * k).
  assert (Hn0 : 0 <= n) by (unfold n; nia).
  assert (HP : 0 < 2 ^ 1021) by (apply Z.pow_pos_nonneg; lia).
  assert (Hn : n <= k * one - k * 2 ^ 1021) by (unfold n; nia).
  destruct (Z.eq_dec n 0) as [->|Hnz]; [change (round 0) with 0; nia|].
  assert (Hnpos : 0 < n) by lia.
  assert (HL : Z.log2 n <= j + 1074).
  { assert (Z.log2 n < j + 1 + 1074); [|lia].
    apply Z.log2_lt_pow2; [lia|].
    rewrite Z.pow_add_r by lia. fold one. nia. }
  destruct (round_cases n Hn0) as [[_ ->]|[He (q & r & Hnq & Hr & Hq & Hc)]]; [nia|].
  destruct Hc as [->|[Hhalf ->]]; [nia|].
  destruct (Z.eq_dec (Z.log2 n) (j + 1074)) as [E|NE].
  - rewrite E in *.
    replace (j + 1074 - 52 - 1) with (j + 1021) in Hhalf by lia.
    replace (j + 1074 - 52) with (1 + (j + 1021)) in * by lia.
    rewrite (Z.pow_add_r 2 1 (j + 1021)) in * by lia.
    rewrite (Z.pow_add_r 2 j 1021) in * by lia.
    change (2 ^ 1) with 2 in *.
    set (P := 2 ^ 1021) in *. nia.
  - pose proof (round_le_pow2 n Hnpos) as Hup.
    assert (Hmono : 2 ^ (Z.log2 n + 1) <= 2 ^ (j + 1074)) by (apply Z.pow_le_mono_r; lia).
    rewrite (Z.pow_add_r 2 j 1074) in Hmono by lia. fold one in Hmono.
    destruct (round_cases n Hn0) as [[? _]|[_ (q' & r' & Hnq' & Hr' & Hq' & Hc')]]; [lia|].
    assert (Hp : 0 < 2 ^ (Z.log2 n - 52)) by (apply Z.pow_pos_nonneg; lia).
    assert (Hsplit : 2 ^ (Z.log2 n + 1) = 2 ^ 53 * 2 ^ (Z.log2 n - 52)).
    { rewrite <- Z.pow_add_r by lia. f_equal. lia. }
    pose proof (Z.log2_spec n Hnpos) as [Hlo Hhi].
    replace (Z.succ (Z.log2 n)) with (Z.log2 n + 1) in Hhi by lia.
    rewrite Hsplit in *.
    set (E := 2 ^ (Z.log2 n - 52)) in *.
    assert (q < 2 ^ 53) by nia.
    nia.
Qed.

End Float64Facts.

(** ** The dashboard *)
Module DashboardFacts.
Import Dashboard.

(** *** Running the monad *)

Lemma advance_0 w : advance 0 w = w.
Proof. by destruct w. Qed.

Lemma advance_advance n m w : advance n (advance m w) = advance (n + m) w.
Proof. unfold advance; cbn. f_equal. lia. Qed.

Lemma Math_random_run w :
  Math_random w = (Ok (random_stream w (random_used w)), advance 1 w).
Proof. reflexivity. Qed.

Lemma bind_run {A B} (c : M A) (f : A -> M B) w a w' :
  c w = (Ok a, w') -> (c ≫= f) w = f a w'.
Proof. intros H. unfold mbind, M_bind. by rewrite H. Qed.

Lemma bind_ok {A B} (c : M A) (f : A -> M B) w a w' r :
  c w = (Ok a, w') -> f a w' = r -> (c ≫= f) w = r.
Proof. intros H <-. by apply bind_run. Qed.

Lemma pure_ret {A} (a : A) : pure_run (mret a).
Proof. by exists (Ok a). Qed.

Lemma pure_throw {A} e : pure_run (@throw A e).
Proof. by exists (Throw e). Qed.

Lemma pure_bind {A B} (c : M A) (f : A -> M B) :
  pure_run c -> (∀ a, pure_run (f a)) -> pure_run (c ≫= f).
Proof.
  intros [[a|e] Hc] Hf.
  - destruct (Hf a) as [o Ho]. exists o. intros w.
    unfold mbind, M_bind. by rewrite Hc, Ho.
  - exists (Throw e). intros w. unfold mbind, M_bind. by rewrite Hc.
Qed.

Lemma pure_mapM {A B} (f : A -> M B) l : (∀ a, pure_run (f a)) -> pure_run (mapM f l).
Proof.
  intros Hf. induction l as [|a l IH]; cbn [mapM]; [apply pure_ret|].
  apply pure_bind; [apply Hf|]. intros b.
  apply pure_bind; [apply IH|]. intros bs. apply pure_ret.
Qed.

Lemma mapM_ok {A B} (f : A -> M B) l w :
  (∀ a, a ∈ l -> ∃ b, f a w = (Ok b, w)) ->
  ∃ bs, mapM f l w = (Ok bs, w) ∧ length bs = length l.
Proof.
  induction l as [|a l IH]; intros Hf; cbn [mapM].
  - by exists [].
  - destruct (Hf a) as [b Hb]; [by left|].
    destruct IH as (bs & Hbs & Hlen); [intros a' Ha'; apply Hf; by right|].
    exists (b :: bs). split; [|cbn; lia].
    rewrite (bind_run _ _ _ _ _ Hb), (bind_run _ _ _ _ _ Hbs). done.
Qed.

Lemma drawn_cell_advance n w cell : drawn_cell (advance n w) cell -> drawn_cell w cell.
Proof.
  intros (k & d & Hk & ->). exists k, d. cbn in *. split; [lia|done].
Qed.

Lemma same_draws_advance k w1 w2 :
  same_draws w1 w2 -> same_draws (advance k w1) (advance k w2).
Proof.
  intros H n. cbn.
  replace (k + random_used w1 + n)%nat with (random_used w1 + (k + n))%nat by lia.
  replace (k + random_used w2 + n)%nat with (random_used w2 + (k + n))%nat by lia.
  apply H.
Qed.

Section WithLibraries.
Context (addDays : Z -> Z -> Z) (format : Z -> string -> string)
        (startOfDay : Z -> Z) (Date_toString : Z -> string)
        (cn : list (option string) -> string).

Local Abbreviation key start k := (format (addDays start (Z.of_nat k)) "yyyy-MM-dd").

(** *** generateMockData *)

(** The loop returns, consumes two draws per day, touches only the row of
    its room, keeps what the row held, and adds a drawn cell under the key
    of every date it visits. *)
Lemma generate_days_run start rid count : ∀ i (data : Grid) w,
  ∃ data' : Grid,
    generate_days addDays format start rid i count data w
      = (Ok data', advance (2 * count) w) ∧
    (∀ rid', rid' ≠ rid -> data' !! rid' = data !! rid') ∧
    (∀ row, data !! rid = Some row ->
       ∃ row', data' !! rid = Some row' ∧
         (∀ d, is_Some (row !! d) -> is_Some (row' !! d)) ∧
         (∀ k, (i <= k < i + count)%nat -> is_Some (row' !! key start k)) ∧
         (∀ d cell, row' !! d = Some cell -> row !! d = Some cell ∨ drawn_cell w cell)).
Proof.
  induction count as [|count IH]; intros i data w.
  - exists data. cbn [generate_days]. rewrite advance_0. split; [done|].
    split; [done|]. intros row Hrow. exists row. repeat split; auto. lia.
  - cbn [generate_days].
    set (r := random_stream w (random_used w)).
    set (r' := random_stream w (S (random_used w))).
    set (cell := DailyStats.mk (key start i)
                   (Float64.floor (Float64.mul_literal r 11))
                   (100 + Float64.floor (Float64.mul_literal r' 50))
                   (Float64.floor (Float64.mul_literal r 11) =? 0)).
    destruct (IH (S i) (set_cell rid (key start i) cell data) (advance 2 w))
      as (data' & Hrun & Hother & Hrow).
    exists data'. split; [|split].
    + rewrite (bind_run _ _ _ _ _ (Math_random_run w)).
      rewrite (bind_run _ _ _ _ _ (Math_random_run (advance 1 w))).
      rewrite advance_advance. cbn [Nat.add].
      replace (advance (2 * S count) w) with (advance (2 * count) (advance 2 w))
        by (rewrite advance_advance; f_equal; lia).
      exact Hrun.
    + intros rid' Hne. rewrite Hother by done. unfold set_cell.
      by rewrite lookup_alter_ne.
    + intros row Hlook.
      destruct (Hrow (<[key start i := cell]> row)) as (row' & Hl' & Hkeep & Hnew & Hprov).
      { unfold set_cell. rewrite lookup_alter_eq, Hlook. done. }
      exists row'. split; [done|]. split; [|split].
      * intros d Hd. apply Hkeep. rewrite lookup_insert. case_decide; [eauto|done].
      * intros k Hk. destruct (decide (k = i)) as [->|Hne].
        -- apply Hkeep. rewrite lookup_insert_eq. eauto.
        -- apply Hnew. lia.
      * intros d c Hc. destruct (Hprov d c Hc) as [Hin|Hdr].
        -- rewrite lookup_insert in Hin. case_decide as Hd; [|by left].
           right. inversion Hin; subst c. exists (random_used w), (key start i).
           split; [lia|]. reflexivity.
        -- right. by eapply drawn_cell_advance.
Qed.

Lemma generate_room_run start days room (data : Grid) w :
  ∃ (data' : Grid) (row' : Row),
    generate_room addDays format start days room data w
      = (Ok data', advance (2 * days) w) ∧
    (∀ rid', rid' ≠ RoomType.id room -> data' !! rid' = data !! rid') ∧
    data' !! RoomType.id room = Some row' ∧
    populated addDays format start days row' ∧
    (∀ d cell, row' !! d = Some cell -> drawn_cell w cell).
Proof.
  unfold generate_room.
  destruct (generate_days_run start (RoomType.id room) days 0
              (<[RoomType.id room := ∅]> data) w) as (data' & Hrun & Hother & Hrow).
  destruct (Hrow ∅) as (row' & Hl & _ & Hnew & Hprov); [by rewrite lookup_insert_eq|].
  exists data', row'. split; [done|]. split; [|split; [done|split]].
  - intros rid' Hne. rewrite Hother by done. by rewrite lookup_insert_ne.
  - intros k Hk. apply Hnew. lia.
  - intros d cell Hc. destruct (Hprov d cell Hc) as [Hin|?]; [|done].
    by rewrite lookup_empty in Hin.
Qed.

Lemma forEach_rooms_run start days rooms : ∀ (data : Grid) w,
  ∃ data' : Grid,
    forEach rooms (generate_room addDays format start days) data w
      = (Ok data', advance (2 * days * length rooms) w) ∧
    (∀ rid row, data !! rid = Some row -> populated addDays format start days row ->
       ∃ row', data' !! rid = Some row' ∧ populated addDays format start days row') ∧
    (∀ room, room ∈ rooms ->
       ∃ row', data' !! RoomType.id room = Some row'
               ∧ populated addDays format start days row') ∧
    (∀ rid row' d cell, data' !! rid = Some row' -> row' !! d = Some cell ->
       (∃ row, data !! rid = Some row ∧ row !! d = Some cell) ∨ drawn_cell w cell).
Proof.
  induction rooms as [|room rooms IH]; intros data w.
  - exists data. cbn [forEach length]. rewrite Nat.mul_0_r, advance_0.
    split; [done|]. split; [eauto|]. split; [intros room Hin; inversion Hin|eauto].
  - destruct (generate_room_run start days room data w)
      as (data1 & row1 & Hrun1 & Hother1 & Hl1 & Hc1 & Hp1).
    destruct (IH data1 (advance (2 * days) w)) as (data' & Hrun & Hkeep & Hnew & Hprov).
    exists data'. split; [|split; [|split]].
    + cbn [forEach length]. rewrite (bind_run _ _ _ _ _ Hrun1), Hrun.
      rewrite advance_advance. do 2 f_equal. lia.
    + intros rid row Hl Hc.
      destruct (decide (rid = RoomType.id room)) as [->|Hne].
      * by apply (Hkeep _ row1).
      * apply (Hkeep rid row); [|done]. by rewrite Hother1.
    + intros r [->|Hin]%elem_of_cons.
      * by apply (Hkeep _ row1).
      * by apply Hnew.
    + intros rid row' d cell Hl Hc.
      destruct (Hprov rid row' d cell Hl Hc) as [(row & Hr & Hrc)|Hdr].
      * destruct (decide (rid = RoomType.id room)) as [->|Hne].
        -- right. rewrite Hl1 in Hr. inversion Hr; subst row. by apply (Hp1 d).
        -- left. exists row. by rewrite <- Hother1.
      * right. by eapply drawn_cell_advance.
Qed.

Lemma generateMockData_run start days w :
  ∃ grid : Grid,
    generateMockData addDays format start days w
      = (Ok grid, advance (2 * days * length ROOM_TYPES) w) ∧
    (∀ room, room ∈ ROOM_TYPES ->
       ∃ row, grid !! RoomType.id room = Some row
              ∧ populated addDays format start days row) ∧
    (∀ rid row d cell, grid !! rid = Some row -> row !! d = Some cell ->
       drawn_cell w cell).
Proof.
  destruct (forEach_rooms_run start days ROOM_TYPES ∅ w) as (grid & Hrun & _ & Hnew & Hprov).
  exists grid. split; [exact Hrun|]. split; [exact Hnew|].
  intros rid row d cell Hl Hc.
  destruct (Hprov rid row d cell Hl Hc) as [(row0 & Hr & _)|?]; [|done].
  by rewrite lookup_empty in Hr.
Qed.

(** The generated grid is a function of the start date and of the numbers
    [Math.random] returns. *)
Lemma generate_days_same_draws start rid count : ∀ i (data : Grid) w1 w2,
  same_draws w1 w2 ->
  (generate_days addDays format start rid i count data w1).1
  = (generate_days addDays format start rid i count data w2).1.
Proof.
  induction count as [|count IH]; intros i data w1 w2 Hs; [done|].
  cbn [generate_days].
  rewrite (bind_run _ _ _ _ _ (Math_random_run w1)), (bind_run _ _ _ _ _ (Math_random_run w2)).
  rewrite (bind_run _ _ _ _ _ (Math_random_run (advance 1 w1))),
          (bind_run _ _ _ _ _ (Math_random_run (advance 1 w2))).
  rewrite !advance_advance. cbn [Nat.add advance random_used random_stream].
  pose proof (Hs 0%nat) as H0. pose proof (Hs 1%nat) as H1.
  rewrite !Nat.add_0_r in H0. rewrite !Nat.add_1_r in H1. rewrite H0, H1.
  apply (IH _ _ (advance 2 w1) (advance 2 w2)). by apply same_draws_advance.
Qed.

Lemma forEach_rooms_same_draws start days rooms : ∀ (data : Grid) w1 w2,
  same_draws w1 w2 ->
  (forEach rooms (generate_room addDays format start days) data w1).1
  = (forEach rooms (generate_room addDays format start days) data w2).1.
Proof.
  induction rooms as [|room rooms IH]; intros data w1 w2 Hs; [done|].
  cbn [forEach].
  destruct (generate_room_run start days room data w1) as (d1 & ? & Hr1 & _).
  destruct (generate_room_run start days room data w2) as (d2 & ? & Hr2 & _).
  assert (d1 = d2) as <-.
  { pose proof (generate_days_same_draws start (RoomType.id room) days 0
                  (<[RoomType.id room := ∅]> data) w1 w2 Hs) as He.
    unfold generate_room in Hr1, Hr2. rewrite Hr1, Hr2 in He. cbn in He. congruence. }
  rewrite (bind_run _ _ _ _ _ Hr1), (bind_run _ _ _ _ _ Hr2).
  apply IH. by apply same_draws_advance.
Qed.

Lemma generateMockData_same_draws start days w1 w2 :
  same_draws w1 w2 ->
  (generateMockData addDays format start days w1).1
  = (generateMockData addDays format start days w2).1.
Proof. apply forEach_rooms_same_draws. Qed.

(** *** InventoryGrid *)

Lemma get_cell_pure (g : Grid) rid d : pure_run (get_cell g rid d).
Proof.
  unfold get_cell. destruct (g !! rid); [apply pure_ret|apply pure_throw].
Qed.

Lemma data_cell_pure (g : Grid) room date : pure_run (data_cell format cn g room date).
Proof.
  unfold data_cell. apply pure_bind; [apply get_cell_pure|].
  intros [cell|]; [apply pure_ret|apply pure_throw].
Qed.

Lemma room_row_pure (g : Grid) hs room : pure_run (room_row format cn g hs room).
Proof.
  unfold room_row. apply pure_bind; [apply pure_mapM, data_cell_pure|].
  intros cells. apply pure_ret.
Qed.

Lemma get_cell_ok (g : Grid) rid d (row : Row) cell w :
  g !! rid = Some row -> row !! d = Some cell ->
  get_cell g rid d w = (Ok (Some cell), w).
Proof. intros Hg Hr. unfold get_cell. by rewrite Hg, <- Hr. Qed.

Lemma data_cell_ok (g : Grid) room date (row : Row) cell w :
  g !! RoomType.id room = Some row ->
  row !! format date "yyyy-MM-dd" = Some cell ->
  ∃ node, data_cell format cn g room date w = (Ok node, w).
Proof.
  intros Hg Hr. unfold data_cell.
  rewrite (bind_run _ _ _ _ _ (get_cell_ok _ _ _ _ _ w Hg Hr)). eauto.
Qed.

Lemma elem_of_dateHeaders today days date :
  date ∈ Array_from_map days (fun i => addDays today i) ->
  ∃ k, (k < days)%nat ∧ date = addDays today (Z.of_nat k).
Proof.
  unfold Array_from_map. rewrite list_elem_of_In, in_map_iff.
  intros (k & <- & Hk%in_seq). exists k. split; [lia|done].
Qed.

Lemma room_row_ok (g : Grid) today days room (row : Row) w :
  g !! RoomType.id room = Some row ->
  populated addDays format today days row ->
  ∃ node,
    room_row format cn g (Array_from_map days (fun i => addDays today i)) room w
    = (Ok node, w).
Proof.
  intros Hg Hp. unfold room_row.
  destruct (mapM_ok (data_cell format cn g room)
              (Array_from_map days (fun i => addDays today i)) w) as (cells & Hc & _).
  { intros date (k & Hk & ->)%elem_of_dateHeaders.
    destruct (Hp k Hk) as [cell Hcell]. by eapply data_cell_ok. }
  rewrite (bind_run _ _ _ _ _ Hc). eauto.
Qed.

Lemma startOfToday_run w :
  startOfToday startOfDay w = (Ok (startOfDay (now w)), w).
Proof. reflexivity. Qed.

(** Rendering the grid returns the JSX around the rendered rows; all it
    does to the environment is to consume 240 draws. *)
Lemma InventoryGrid_run w :
  let today := startOfDay (now w) in
  let dateHeaders := Array_from_map 30 (fun i => addDays today i) in
  ∃ (gridData : Grid) rows,
    generateMockData addDays format today 30 w = (Ok gridData, advance 240 w) ∧
    mapM (room_row format cn gridData dateHeaders) ROOM_TYPES (advance 240 w)
    = (Ok rows, advance 240 w) ∧
    InventoryGrid addDays format startOfDay Date_toString cn w
    = (Ok (InventoryGrid_jsx format Date_toString dateHeaders rows), advance 240 w).
Proof.
  intros today dateHeaders.
  destruct (generateMockData_run today 30 w) as (grid & Hrun & Hrooms & _).
  change (2 * 30 * length ROOM_TYPES)%nat with 240%nat in Hrun.
  destruct (mapM_ok (room_row format cn grid dateHeaders) ROOM_TYPES (advance 240 w))
    as (rows & Hrows & _).
  { intros room Hin. destruct (Hrooms room Hin) as (row & Hl & Hp).
    by eapply room_row_ok. }
  exists grid, rows. split; [done|]. split; [done|].
  unfold InventoryGrid.
  eapply bind_ok; [apply startOfToday_run|].
  eapply bind_ok; [exact Hrun|].
  eapply bind_ok; [exact Hrows|]. reflexivity.
Qed.

Lemma InventoryGrid_same_inputs w1 w2 :
  now w1 = now w2 -> same_draws w1 w2 ->
  (InventoryGrid addDays format startOfDay Date_toString cn w1).1
  = (InventoryGrid addDays format startOfDay Date_toString cn w2).1.
Proof.
  intros Hnow Hs.
  destruct (InventoryGrid_run w1) as (g1 & rows1 & Hg1 & Hr1 & ->).
  destruct (InventoryGrid_run w2) as (g2 & rows2 & Hg2 & Hr2 & ->).
  rewrite <- Hnow in *. set (today := startOfDay (now w1)) in *.
  pose proof (generateMockData_same_draws today 30 w1 w2 Hs) as He.
  rewrite Hg1, Hg2 in He. cbn in He. assert (g1 = g2) as <- by congruence.
  destruct (pure_mapM
              (room_row format cn g1 (Array_from_map 30 (fun i => addDays today i)))
              ROOM_TYPES (fun room => room_row_pure _ _ room)) as [o Ho].
  rewrite Ho in Hr1, Hr2. cbn. congruence.
Qed.

(** *** Listeners *)

(** Every listener returns, and leaves the network and the storage as they
    were. *)
Lemma fire_frame {A} (h : Handler A) : ∀ (a : A) w,
  ∃ w', fire h a w = (Ok tt, w') ∧
        requests w' = requests w ∧ storage w' = storage w ∧
        random_used w' = random_used w.
Proof.
  induction h as [| | | | | |cb IH]; intros a w;
    try (eexists; split; [reflexivity|by cbn]).
  cbn [fire]. unfold handleUpdate.
  destruct (IH false (console_log "Updating" (drawer w) w).2) as (w' & Hf & Hr & Hs & Hu).
  exists w'. split; [|by cbn in *].
  unfold mbind, M_bind. cbn. exact Hf.
Qed.

Lemma BulkUpdateDrawer_run open onOpenChange w :
  BulkUpdateDrawer format cn open onOpenChange w
  = (Ok (BulkUpdateDrawer_jsx format cn open onOpenChange (Form.date (drawer w))
           (Form.roomType (drawer w)) (Form.rate (drawer w)) (Form.isOpen (drawer w))),
     w).
Proof. reflexivity. Qed.

(** The page returns its JSX around the constant channel widget, the grid
    and the drawer drawn from the React state. *)
Lemma ControlCenterPage_run w grid w' :
  InventoryGrid addDays format startOfDay Date_toString cn w = (Ok grid, w') ->
  ControlCenterPage addDays format startOfDay Date_toString cn w
  = (Ok (ControlCenterPage_jsx (ChannelHealthWidget_jsx cn) grid
           (BulkUpdateDrawer_jsx format cn (isDrawerOpen w) H_setIsDrawerOpen
              (Form.date (drawer w')) (Form.roomType (drawer w'))
              (Form.rate (drawer w')) (Form.isOpen (drawer w')))),
     w').
Proof.
  intros Hg. unfold ControlCenterPage.
  eapply bind_ok; [reflexivity|].
  eapply bind_ok; [reflexivity|].
  eapply bind_ok; [exact Hg|].
  eapply bind_ok; [apply BulkUpdateDrawer_run|]. reflexivity.
Qed.

Lemma ControlCenterPage_same_inputs w1 w2 :
  now w1 = now w2 -> same_draws w1 w2 ->
  isDrawerOpen w1 = isDrawerOpen w2 -> drawer w1 = drawer w2 ->
  (ControlCenterPage addDays format startOfDay Date_toString cn w1).1
  = (ControlCenterPage addDays format startOfDay Date_toString cn w2).1.
Proof.
  intros Hnow Hs Hopen Hdr.
  pose proof (InventoryGrid_same_inputs w1 w2 Hnow Hs) as He.
  destruct (InventoryGrid_run w1) as (g1 & rows1 & _ & _ & Hg1).
  destruct (InventoryGrid_run w2) as (g2 & rows2 & _ & _ & Hg2).
  rewrite Hg1, Hg2 in He. cbn [fst] in He.
  rewrite (ControlCenterPage_run w1 _ _ Hg1), (ControlCenterPage_run w2 _ _ Hg2).
  cbn [fst advance drawer]. rewrite Hopen, Hdr. congruence.
Qed.

(** *** The claims about the dashboard *)

(** C2. For every room type and every generated day, [generateMockData]
    yields a cell; every cell it yields has an inventory between 0 and 10
    inclusive, a rate between 100 and 149 inclusive, and [isSoldOut] set
    exactly when the inventory is 0.  [Math.random] is assumed to return
    doubles in [0, 1), as ECMAScript specifies. *)
Theorem generateMockData_ranges (startDate : Z) (days : nat) (w : World) :
  (∀ n, (random_used w <= n)%nat ->
        Float64.in_unit_interval (random_stream w n) = true) ->
  ∃ data w',
    generateMockData addDays format startDate days w = (Ok data, w') ∧
    (∀ room i, room ∈ ROOM_TYPES -> (i < days)%nat ->
       ∃ (row : Row) cell,
         data !! RoomType.id room = Some row ∧ row !! key startDate i = Some cell) ∧
    (∀ roomId (row : Row) dateStr cell,
       data !! roomId = Some row -> row !! dateStr = Some cell ->
       0 <= DailyStats.inventory cell <= 10 ∧
       100 <= DailyStats.rate cell <= 149 ∧
       (DailyStats.isSoldOut cell = true ↔ DailyStats.inventory cell = 0)).
Proof.
  intros Hrandom.
  destruct (generateMockData_run startDate days w)
    as (data & Hrun & Hrooms & Hprov).
  exists data, (advance (2 * days * length ROOM_TYPES) w).
  split; [exact Hrun|]. split.
  - intros room i Hin Hi. destruct (Hrooms room Hin) as (row & Hl & Hp).
    destruct (Hp i Hi) as [cell Hc]. by exists row, cell.
  - intros roomId row dateStr cell Hl Hc.
    destruct (Hprov roomId row dateStr cell Hl Hc) as (n & d & Hn & ->).
    cbn [DailyStats.inventory DailyStats.rate DailyStats.isSoldOut].
    pose proof (Float64Facts.mul_literal_lt (random_stream w n) 11 3
                  (Hrandom n Hn) ltac:(lia) ltac:(lia)) as [Hi0 Hi1].
    pose proof (Float64Facts.mul_literal_lt (random_stream w (S n)) 50 5
                  (Hrandom (S n) ltac:(lia)) ltac:(lia) ltac:(lia)) as [Hr0 Hr1].
    assert (Hone : 0 < Float64.one) by reflexivity.
    unfold Float64.floor.
    pose proof (Z.div_pos _ _ Hi0 Hone). pose proof (Z.div_pos _ _ Hr0 Hone).
    assert (Float64.mul_literal (random_stream w n) 11 / Float64.one < 11)
      by (apply Z.div_lt_upper_bound; lia).
    assert (Float64.mul_literal (random_stream w (S n)) 50 / Float64.one < 50)
      by (apply Z.div_lt_upper_bound; lia).
    rewrite Z.eqb_eq. lia.
Qed.

(** C9. Every grid-cell lookup of InventoryGrid is defined: for each of
    the 4 room types and each of the 30 date headers, the grid that
    [generateMockData] built from the same start date holds a cell, and the
    render returns a tree instead of throwing. *)
Theorem InventoryGrid_lookups_defined (w : World) :
  let today := startOfDay (now w) in
  let dateHeaders := Array_from_map 30 (fun i => addDays today i) in
  length ROOM_TYPES = 4%nat ∧ length dateHeaders = 30%nat ∧
  ∃ gridData w',
    generateMockData addDays format today 30 w = (Ok gridData, w') ∧
    (∀ room date, room ∈ ROOM_TYPES -> date ∈ dateHeaders ->
       ∃ cellData,
         get_cell gridData (RoomType.id room) (format date "yyyy-MM-dd") w'
         = (Ok (Some cellData), w')) ∧
    ∃ tree, InventoryGrid addDays format startOfDay Date_toString cn w = (Ok tree, w').
Proof.
  intros today dateHeaders. split; [done|]. split; [done|].
  destruct (generateMockData_run today 30 w) as (grid & Hrun & Hrooms & _).
  exists grid, (advance 240 w). split; [exact Hrun|]. split.
  - intros room date Hin (k & Hk & ->)%elem_of_dateHeaders.
    destruct (Hrooms room Hin) as (row & Hl & Hp). destruct (Hp k Hk) as [cell Hc].
    exists cell. by eapply get_cell_ok.
  - destruct (InventoryGrid_run w) as (g & rows & _ & _ & Hg). eauto.
Qed.


(** C10. The Apply Changes handler validates nothing: whatever the form
    holds, [handleUpdate] logs the values, calls [onOpenChange(false)] and
    returns; with the page's [setIsDrawerOpen] as callback the drawer is
    closed and nothing is thrown. *)
Theorem handleUpdate_never_rejects
    (date : option DateRange.t) (roomType rate : string) (isOpen : bool) (w : World) :
  let form := Form.mk date roomType rate isOpen in
  let w0 := (setDrawer (fun _ => form) w).2 in
  (∀ onOpenChange : bool -> M unit,
     handleUpdate onOpenChange w0
     = onOpenChange false (console_log "Updating" form w0).2) ∧
  fire (H_handleUpdate H_setIsDrawerOpen) tt w0
  = (Ok tt,
     mkWorld (random_stream w) (random_used w) (now w)
             (console w ++ [mkLog "Updating" form])
             (requests w) (storage w) false form).
Proof. intros form w0. split; [intros onOpenChange|]; reflexivity. Qed.

(** C3. The channel health display is a read-only observer: in every
    environment it renders the same tree, a card per entry of [CHANNELS],
    which are exactly Booking.com, Airbnb, Expedia and Agoda, each with
    status online or error; rendering leaves the environment as it was, and
    the tree carries no listener through which it could change any state. *)
Theorem ChannelHealthWidget_read_only (w : World) :
  ∃ header,
    ChannelHealthWidget_jsx cn
    = El "Card" [className "col-span-1 md:col-span-3 border-slate-200 shadow-sm"]
        [header;
         El "CardContent"
           [className "pt-6 grid grid-cols-1 sm:grid-cols-2 lg:grid-cols-4 gap-4"]
           (map (channel_card cn) CHANNELS)] ∧
    ChannelHealthWidget cn w = (Ok (ChannelHealthWidget_jsx cn), w) ∧
    map ChannelStatus.name CHANNELS = ["Booking.com"; "Airbnb"; "Expedia"; "Agoda"] ∧
    (∀ channel, channel ∈ CHANNELS ->
       ChannelStatus.status channel = online ∨ ChannelStatus.status channel = error) ∧
    texts (ChannelHealthWidget_jsx cn)
    = ["Channel Health"; "Refresh All";
       "Booking.com"; "Synced "; "2 mins ago";
       "Airbnb"; "Synced "; "5 mins ago";
       "Expedia"; "Auth Failed"; "Reconnect";
       "Agoda"; "Synced "; "10 mins ago"] ∧
    listener_count (ChannelHealthWidget_jsx cn) = 0%nat.
Proof.
  eexists. split; [reflexivity|]. split; [reflexivity|]. split; [reflexivity|].
  split; [|split; reflexivity].
  intros channel _. destruct (ChannelStatus.status channel); auto.
Qed.

(** C1. What the dashboard renders is local: the page renders the same
    tree in any two environments that agree on the clock, on the numbers
    [Math.random] returns and on the React state, whatever their network
    history, storage and console hold; the grid is what [generateMockData]
    built, each cell from two draws; ChannelHealthWidget renders a tree that
    does not depend on the environment; Apply Changes only appends a console
    line and closes the drawer; and neither rendering the page nor any
    listener issues a network request or changes the storage. *)
Theorem dashboard_renders_local_data (w1 w2 : World) :
  now w1 = now w2 -> same_draws w1 w2 ->
  isDrawerOpen w1 = isDrawerOpen w2 -> drawer w1 = drawer w2 ->
  (∃ gridData grid page,
     let today := startOfDay (now w1) in
     (generateMockData addDays format today 30 w1).1 = Ok gridData ∧
     (generateMockData addDays format today 30 w2).1 = Ok gridData ∧
     (∀ roomId (row : Row) dateStr cell,
        gridData !! roomId = Some row -> row !! dateStr = Some cell ->
        drawn_cell w1 cell) ∧
     (InventoryGrid addDays format startOfDay Date_toString cn w1).1 = Ok grid ∧
     (InventoryGrid addDays format startOfDay Date_toString cn w2).1 = Ok grid ∧
     (ControlCenterPage addDays format startOfDay Date_toString cn w1).1 = Ok page ∧
     (ControlCenterPage addDays format startOfDay Date_toString cn w2).1 = Ok page) ∧
  (ChannelHealthWidget cn w1).1 = (ChannelHealthWidget cn w2).1 ∧
  (ChannelHealthWidget cn w1).2 = w1 ∧
  fire (H_handleUpdate H_setIsDrawerOpen) tt w1
  = (Ok tt,
     mkWorld (random_stream w1) (random_used w1) (now w1)
             (console w1 ++ [mkLog "Updating" (drawer w1)])
             (requests w1) (storage w1) false (drawer w1)) ∧
  (let w' := (ControlCenterPage addDays format startOfDay Date_toString cn w1).2 in
   requests w' = requests w1 ∧ storage w' = storage w1 ∧ console w' = console w1) ∧
  (∀ A (h : Handler A) (a : A),
     requests (fire h a w1).2 = requests w1 ∧ storage (fire h a w1).2 = storage w1).
Proof.
  intros Hnow Hs Hopen Hdr.
  split; [|split; [done|split; [done|split; [done|split]]]].
  - destruct (generateMockData_run (startOfDay (now w1)) 30 w1)
      as (g & Hg1 & _ & Hprov).
    pose proof (generateMockData_same_draws (startOfDay (now w1)) 30 w1 w2 Hs)
      as Hg2.
    destruct (InventoryGrid_run w1) as (g' & rows & _ & _ & Hi1).
    pose proof (InventoryGrid_same_inputs w1 w2 Hnow Hs) as Hi2.
    pose proof (ControlCenterPage_run w1 _ _ Hi1) as Hp1.
    pose proof (ControlCenterPage_same_inputs w1 w2 Hnow Hs Hopen Hdr) as Hp2.
    eexists g, _, _. cbv zeta.
    rewrite <- Hg2, <- Hi2, <- Hp2, Hg1, Hi1, Hp1. by repeat split.
  - destruct (InventoryGrid_run w1) as (g' & rows & _ & _ & Hi1).
    rewrite (ControlCenterPage_run w1 _ _ Hi1). cbn [snd]. by repeat split.
  - intros A h a. destruct (fire_frame h a w1) as (w' & -> & Hr & Hst & _). by cbn.
Qed.

End WithLibraries.

(** *** The model at work *)

Lemma draws_in_unit_interval n : Float64.in_unit_interval (Utc.draws n) = true.
Proof.
  unfold Utc.draws.
  destruct (n `mod` 5)%nat as [|[|[|[|?]]]]; vm_compute; reflexivity.
Qed.

(** The drawer as it opens: nothing selected, nothing typed. *)
Example handleUpdate_empty_form :
  fire (H_handleUpdate H_setIsDrawerOpen) tt
    (mkWorld Utc.draws 0 0 [] [] ∅ true (Form.mk None "" "" true))
  = (Ok tt,
     mkWorld Utc.draws 0 0 [mkLog "Updating" (Form.mk None "" "" true)] [] ∅ false
       (Form.mk None "" "" true)).
Proof. reflexivity. Qed.

(** A handler that did call the server would show in the environment. *)
Example fetch_is_observable :
  requests (fetch "/api/v1/inventory/deluxe" Utc.world).2
  = ["/api/v1/inventory/deluxe"]
  ∧ storage (localStorage_setItem "rate" "150" Utc.world).2 !! "rate" = Some "150".
Proof. split; reflexivity. Qed.

Example first_cells :
  match Utc.generateMockData 1793664000000 2 Utc.world with
  | (Ok data, _) => (data !! "deluxe") ≫= (.!! "2026-11-04")
  | _ => None
  end = Some (DailyStats.mk "2026-11-04" 10 109 false).
Proof. vm_compute. reflexivity. Qed.

Lemma generateMockData_ranges_witness :
  (∀ n, (random_used Utc.world <= n)%nat ->
        Float64.in_unit_interval (random_stream Utc.world n) = true) ∧
  ∃ data w',
    Utc.generateMockData 1793664000000 30 Utc.world = (Ok data, w') ∧
    (∀ room i, room ∈ ROOM_TYPES -> (i < 30)%nat ->
       ∃ (row : Row) cell,
         data !! RoomType.id room = Some row ∧
         row !! Utc.format (Utc.addDays 1793664000000 (Z.of_nat i)) "yyyy-MM-dd"
         = Some cell) ∧
    (∀ roomId (row : Row) dateStr cell,
       data !! roomId = Some row -> row !! dateStr = Some cell ->
       0 <= DailyStats.inventory cell <= 10 ∧
       100 <= DailyStats.rate cell <= 149 ∧
       (DailyStats.isSoldOut cell = true ↔ DailyStats.inventory cell = 0)).
Proof.
  split.
  - intros n _. apply draws_in_unit_interval.
  - apply (generateMockData_ranges Utc.addDays Utc.format 1793664000000 30 Utc.world).
    intros n _. apply draws_in_unit_interval.
Defined.

Lemma dashboard_renders_local_data_witness :
  now Utc.world = now Utc.world_with_history ∧
  same_draws Utc.world Utc.world_with_history ∧
  isDrawerOpen Utc.world = isDrawerOpen Utc.world_with_history ∧
  drawer Utc.world = drawer Utc.world_with_history ∧
  (∃ gridData grid page,
     (Utc.generateMockData (Utc.startOfDay (now Utc.world)) 30 Utc.world).1 = Ok gridData ∧
     (Utc.generateMockData (Utc.startOfDay (now Utc.world)) 30 Utc.world_with_history).1
     = Ok gridData ∧
     (∀ roomId (row : Row) dateStr cell,
        gridData !! roomId = Some row -> row !! dateStr = Some cell ->
        drawn_cell Utc.world cell) ∧
     (Utc.InventoryGrid Utc.world).1 = Ok grid ∧
     (Utc.InventoryGrid Utc.world_with_history).1 = Ok grid ∧
     (Utc.ControlCenterPage Utc.world).1 = Ok page ∧
     (Utc.ControlCenterPage Utc.world_with_history).1 = Ok page).
Proof.
  assert (Hs : same_draws Utc.world Utc.world_with_history) by (intros n; reflexivity).
  repeat (split; [first [reflexivity | exact Hs]|]).
  apply (dashboard_renders_local_data Utc.addDays Utc.format Utc.startOfDay
           Utc.Date_toString Utc.cn Utc.world Utc.world_with_history
           eq_refl Hs eq_refl eq_refl).
Defined.

End DashboardFacts.

(** ** The synchronisation core *)
Module CoreFacts.
Import Core.

(** *** Inventory Ledger *)

Lemma apply_stale l m expected :
  expected ≠ Ledger.stored_version l (Mutation.key m) ->
  Ledger.apply l m expected = (Ledger.fails VersionConflict, l).
Proof. intros Hne. unfold Ledger.apply. by rewrite decide_False. Qed.

Lemma apply_fresh l m :
  let expected := Ledger.stored_version l (Mutation.key m) in
  ∃ l', Ledger.apply l m expected = (Ledger.new_version (Ledger.next_version expected), l') ∧
        Ledger.stored_version l' (Mutation.key m) = Some (Ledger.next_version expected) ∧
        (∀ k, k ≠ Mutation.key m -> Ledger.view l' !! k = Ledger.view l !! k).
Proof.
  intros expected. unfold Ledger.apply. rewrite decide_True by done.
  eexists. split; [reflexivity|]. unfold Ledger.stored_version. cbn. split.
  - by rewrite lookup_insert_eq.
  - intros k Hk. by rewrite lookup_insert_ne.
Qed.

Lemma apply_inv l m expected r l' :
  Ledger.apply l m expected = (r, l') ->
  (expected ≠ Ledger.stored_version l (Mutation.key m)
   ∧ r = Ledger.fails VersionConflict ∧ l' = l) ∨
  (expected = Ledger.stored_version l (Mutation.key m)
   ∧ r = Ledger.new_version (Ledger.next_version expected)
   ∧ Ledger.stored_version l' (Mutation.key m) = Some (Ledger.next_version expected)
   ∧ ∀ k, k ≠ Mutation.key m -> Ledger.view l' !! k = Ledger.view l !! k).
Proof.
  intros H. destruct (decide (expected = Ledger.stored_version l (Mutation.key m))) as [->|Hne].
  - right. destruct (apply_fresh l m) as (l1 & H1 & Hs & Ho). cbv zeta in *.
    rewrite H1 in H. inversion H; subst. split; [done|]. split; [done|]. by split.
  - left. rewrite apply_stale in H by done. inversion H; by subst.
Qed.

Lemma next_version_above v : v < Ledger.next_version (Some v).
Proof. cbn. lia. Qed.

Lemma versions_stored_above k calls : ∀ l v0 v,
  Ledger.stored_version l k = Some v0 ->
  v ∈ Ledger.versions_stored k l calls -> v0 < v.
Proof.
  induction calls as [|[m expected] calls IH]; intros l v0 v Hv0 Hin; cbn in Hin.
  - inversion Hin.
  - destruct (Ledger.apply l m expected) as [r l1] eqn:Happ.
    destruct (apply_inv _ _ _ _ _ Happ) as [(_ & -> & ->)|(-> & -> & Hs & Ho)].
    + by eapply IH.
    + case_decide as Hk.
      * subst k. rewrite Hv0 in *. apply elem_of_cons in Hin as [->|Hin].
        -- apply next_version_above.
        -- pose proof (next_version_above v0). pose proof (IH _ _ _ Hs Hin). lia.
      * eapply IH; [|exact Hin]. unfold Ledger.stored_version. by rewrite Ho.
Qed.

Lemma versions_stored_sorted k calls : ∀ l,
  StronglySorted Z.lt (Ledger.versions_stored k l calls).
Proof.
  induction calls as [|[m expected] calls IH]; intros l; cbn; [constructor|].
  destruct (Ledger.apply l m expected) as [r l1] eqn:Happ.
  destruct (apply_inv _ _ _ _ _ Happ) as [(_ & -> & ->)|(-> & -> & Hs & Ho)]; [apply IH|].
  case_decide as Hk; [|apply IH]. subst k. constructor; [apply IH|].
  apply Forall_forall. intros v Hin. by eapply versions_stored_above.
Qed.

Lemma versions_stored_last k calls : ∀ l,
  Ledger.stored_version (Ledger.apply_all l calls).2 k
  = match last (Ledger.versions_stored k l calls) with
    | Some v => Some v
    | None => Ledger.stored_version l k
    end.
Proof.
  induction calls as [|[m expected] calls IH]; intros l; cbn; [done|].
  destruct (Ledger.apply l m expected) as [r l1] eqn:Happ.
  specialize (IH l1). destruct (Ledger.apply_all l1 calls) as [rs l2]. cbn in *.
  destruct (apply_inv _ _ _ _ _ Happ) as [(_ & -> & ->)|(-> & -> & Hs & Ho)]; [done|].
  case_decide as Hk.
  - subst k. rewrite IH. rewrite last_cons.
    destruct (last (Ledger.versions_stored _ l1 calls)); [done|]. by rewrite Hs.
  - rewrite IH. destruct (last _); [done|]. unfold Ledger.stored_version. by rewrite Ho.
Qed.

(** C4. Optimistic lock of the Ledger.  An [apply] whose expected version
    differs from the stored one fails with VersionConflict and changes
    nothing; one that succeeds stores a version strictly above the one it
    replaces and touches no other key; and over any sequence of [apply]
    calls the versions stored under one key are strictly increasing, all
    above the version the key started with, the last of them being the one
    stored at the end. *)
Theorem ledger_optimistic_lock
    (l : Ledger.t) (calls : list (Mutation.t * option Z)) (k : Key) :
  (∀ m expected,
     expected ≠ Ledger.stored_version l (Mutation.key m) ->
     Ledger.apply l m expected = (Ledger.fails VersionConflict, l)) ∧
  (∀ m expected v l',
     Ledger.apply l m expected = (Ledger.new_version v, l') ->
     expected = Ledger.stored_version l (Mutation.key m) ∧
     Ledger.stored_version l' (Mutation.key m) = Some v ∧
     (∀ v0, Ledger.stored_version l (Mutation.key m) = Some v0 -> v0 < v) ∧
     (∀ k', k' ≠ Mutation.key m ->
        Ledger.stored_version l' k' = Ledger.stored_version l k')) ∧
  StronglySorted Z.lt (Ledger.versions_stored k l calls) ∧
  (∀ v0 v, Ledger.stored_version l k = Some v0 ->
           v ∈ Ledger.versions_stored k l calls -> v0 < v) ∧
  Ledger.stored_version (Ledger.apply_all l calls).2 k
  = match last (Ledger.versions_stored k l calls) with
    | Some v => Some v
    | None => Ledger.stored_version l k
    end.
Proof.
  split; [intros; by apply apply_stale|]. split.
  - intros m expected v l' Happ.
    destruct (apply_inv _ _ _ _ _ Happ) as [(_ & [=] & _)|(He & [= Hv] & Hs & Ho)].
    split; [done|]. split; [by rewrite Hv|]. split.
    + intros v0 Hv0. rewrite Hv, He, Hv0. apply next_version_above.
    + intros k' Hk'. unfold Ledger.stored_version. by rewrite Ho.
  - split; [apply versions_stored_sorted|]. split; [apply versions_stored_above|].
    apply versions_stored_last.
Qed.

(** *** Reconciliation Engine *)

Lemma set_status_same bk : set_status (Booking.status bk) bk = bk.
Proof. by destruct bk. Qed.

Lemma cancel_cancelled e c x bk :
  bookings e !! (c, x) = Some bk -> Booking.status bk = cancelled ->
  receive_cancellation e c x
  = (APPLIED (current_versions (ledger e) (Booking.room_type_id bk)
                (Booking.check_in bk) (Booking.check_out bk)), e).
Proof. intros Hl Hs. unfold receive_cancellation. by rewrite Hl, Hs. Qed.

(** Whatever its status was, a known Booking is cancelled after a
    cancellation, and keeps its room type and dates. *)
Lemma cancel_known e c x bk :
  bookings e !! (c, x) = Some bk ->
  bookings (receive_cancellation e c x).2 !! (c, x) = Some (set_status cancelled bk).
Proof.
  intros Hl. unfold receive_cancellation. rewrite Hl.
  destruct (Booking.status bk) eqn:Hs; cbn.
  - by rewrite lookup_insert_eq.
  - by rewrite Hl, <- Hs, set_status_same.
  - by rewrite lookup_insert_eq.
Qed.

(** C8. Cancelling a Booking that is already cancelled is a no-op that
    returns the current versions: the engine state (Bookings, Ledger, queue)
    is unchanged and the event is applied, not rejected; and after one
    cancellation of a known Booking, any number of further cancellation
    events leave the state where the first one left it, each returning the
    same, unchanged versions. *)
Theorem cancelling_cancelled_is_noop
    (e : Engine) (channel_id external_reservation_id : string) (bk : Booking.t) :
  bookings e !! (channel_id, external_reservation_id) = Some bk ->
  (Booking.status bk = cancelled ->
   receive_cancellation e channel_id external_reservation_id
   = (APPLIED (current_versions (ledger e) (Booking.room_type_id bk)
                 (Booking.check_in bk) (Booking.check_out bk)), e)) ∧
  let e1 := (receive_cancellation e channel_id external_reservation_id).2 in
  ∀ n,
    let en :=
      Nat.iter n (fun s => (receive_cancellation s channel_id external_reservation_id).2) e1 in
    en = e1 ∧
    receive_cancellation en channel_id external_reservation_id
    = (APPLIED (current_versions (ledger e1) (Booking.room_type_id bk)
                  (Booking.check_in bk) (Booking.check_out bk)), e1).
Proof.
  intros Hl. split; [by apply cancel_cancelled|].
  intros e1 n. pose proof (cancel_known _ _ _ _ Hl) as Hl1. fold e1 in Hl1.
  pose proof (cancel_cancelled e1 _ _ _ Hl1 eq_refl) as Hnoop. cbn in Hnoop.
  assert (Hen : Nat.iter n
            (fun s => (receive_cancellation s channel_id external_reservation_id).2) e1 = e1).
  { induction n as [|n IH]; [done|]. rewrite Nat.iter_succ, IH. by rewrite Hnoop. }
  intros en. unfold en. rewrite Hen. by split.
Qed.

(** *** The load of a night *)

Lemma forallb_false_at {A} (f : A -> bool) (l : list A) x :
  In x l -> f x = false -> forallb f l = false.
Proof.
  intros Hin Hf. destruct (forallb f l) eqn:Hall; [|done].
  rewrite forallb_forall in Hall. by rewrite (Hall x Hin) in Hf.
Qed.

Lemma load_insert (bs : gmap (string * string) Booking.t) k bk rt d :
  bs !! k = None ->
  load (<[k := bk]> bs) rt d
  = load bs rt d + (if counts rt d bk then Z.of_N (Booking.units bk) else 0).
Proof.
  intros Hk. unfold load. rewrite map_fold_insert_L; [|..|done].
  - destruct (counts rt d bk); lia.
  - intros j1 j2 z1 z2 y _ _ _.
    destruct (counts rt d z1), (counts rt d z2); lia.
Qed.

Lemma load_until_insert (t : Z) (bs : gmap (string * string) Booking.t) k bk rt d :
  bs !! k = None ->
  load_until t (<[k := bk]> bs) rt d
  = load_until t bs rt d
    + (if counts rt d bk && (Booking.created_at bk <=? t)
       then Z.of_N (Booking.units bk) else 0).
Proof.
  intros Hk. unfold load_until. rewrite map_fold_insert_L; [|..|done].
  - destruct (counts rt d bk && _); lia.
  - intros j1 j2 z1 z2 y _ _ _.
    destruct (counts rt d z1 && _), (counts rt d z2 && _); lia.
Qed.

Lemma load_nonneg (bs : gmap (string * string) Booking.t) rt d : 0 <= load bs rt d.
Proof.
  induction bs as [|k bk bs Hk _ IH] using map_first_key_ind; [done|].
  rewrite load_insert by done. destruct (counts rt d bk); lia.
Qed.

Lemma load_until_nonneg (t : Z) (bs : gmap (string * string) Booking.t) rt d :
  0 <= load_until t bs rt d.
Proof.
  induction bs as [|k bk bs Hk _ IH] using map_first_key_ind; [done|].
  rewrite load_until_insert by done. destruct (counts rt d bk && _); lia.
Qed.

(** The Bookings the tie-break puts first are part of the load. *)
Lemma load_until_le_load (t : Z) (bs : gmap (string * string) Booking.t) rt d :
  load_until t bs rt d <= load bs rt d.
Proof.
  induction bs as [|k bk bs Hk _ IH] using map_first_key_ind; [done|].
  rewrite load_insert, load_until_insert by done.
  destruct (counts rt d bk), (Booking.created_at bk <=? t); cbn [andb]; lia.
Qed.

Lemma load_lookup (bs : gmap (string * string) Booking.t) k bk rt d :
  bs !! k = Some bk ->
  (if counts rt d bk then Z.of_N (Booking.units bk) else 0) <= load bs rt d.
Proof.
  intros Hl. rewrite <- (insert_delete_id bs k bk Hl) at 1.
  rewrite load_insert by apply lookup_delete_eq.
  pose proof (load_nonneg (delete k bs) rt d). lia.
Qed.

Lemma load_until_lookup (t : Z) (bs : gmap (string * string) Booking.t) k bk rt d :
  bs !! k = Some bk ->
  (if counts rt d bk && (Booking.created_at bk <=? t)
   then Z.of_N (Booking.units bk) else 0) <= load_until t bs rt d.
Proof.
  intros Hl. rewrite <- (insert_delete_id bs k bk Hl) at 1.
  rewrite load_until_insert by apply lookup_delete_eq.
  pose proof (load_until_nonneg t (delete k bs) rt d). lia.
Qed.

Lemma load_until_lookup2 (t : Z) (bs : gmap (string * string) Booking.t) k1 k2 bk1 bk2 rt d :
  k1 ≠ k2 -> bs !! k1 = Some bk1 -> bs !! k2 = Some bk2 ->
  (if counts rt d bk1 && (Booking.created_at bk1 <=? t)
   then Z.of_N (Booking.units bk1) else 0)
  + (if counts rt d bk2 && (Booking.created_at bk2 <=? t)
     then Z.of_N (Booking.units bk2) else 0)
  <= load_until t bs rt d.
Proof.
  intros Hne Hl1 Hl2. rewrite <- (insert_delete_id bs k1 bk1 Hl1) at 1.
  rewrite load_until_insert by apply lookup_delete_eq.
  pose proof (load_until_lookup t (delete k1 bs) k2 bk2 rt d) as H2.
  rewrite lookup_delete_ne in H2 by done. specialize (H2 Hl2). lia.
Qed.

Lemma counts_conflict rt d bk : counts rt d (set_status conflict bk) = false.
Proof. done. Qed.

(** Moving a Booking to CONFLICT never adds to the load. *)
Lemma load_until_demote (t : Z) (bs : gmap (string * string) Booking.t) k bk rt d :
  load_until t (<[k := set_status conflict bk]> bs) rt d <= load_until t bs rt d.
Proof.
  rewrite <- insert_delete_eq.
  rewrite load_until_insert by apply lookup_delete_eq.
  rewrite counts_conflict. cbn [andb].
  destruct (bs !! k) as [bk0|] eqn:Hl.
  - rewrite <- (insert_delete_id bs k bk0 Hl) at 2.
    rewrite load_until_insert by apply lookup_delete_eq.
    destruct (counts rt d bk0 && _); lia.
  - rewrite delete_id by done. lia.
Qed.

Lemma valid_inv e r :
  valid e r = true ->
  Reservation.check_in r < Reservation.check_out r ∧ 0 < Z.of_N (Reservation.units r) ∧
  ∃ cap, capacity e !! Reservation.room_type_id r = Some cap
         ∧ Z.of_N (Reservation.units r) <= cap.
Proof.
  unfold valid. rewrite !andb_true_iff, Z.ltb_lt, N.ltb_lt. intros [[[_ ?] ?] Hc].
  destruct (capacity e !! _) as [cap|]; [|done]. apply Z.leb_le in Hc.
  split; [done|]. split; [lia|eauto].
Qed.

(** The night both stays share. *)
Lemma shared_night (a b : Reservation.t) :
  Reservation.check_in a < Reservation.check_out b ->
  Reservation.check_in b < Reservation.check_out a ->
  Reservation.check_in a < Reservation.check_out a ->
  Reservation.check_in b < Reservation.check_out b ->
  let d := Z.max (Reservation.check_in a) (Reservation.check_in b) in
  Reservation.check_in a <= d < Reservation.check_out a ∧
  Reservation.check_in b <= d < Reservation.check_out b.
Proof. lia. Qed.

Lemma rival_of_booking (a b : Reservation.t) ida :
  Reservation.room_type_id b = Reservation.room_type_id a ->
  Reservation.check_in a < Reservation.check_out b ->
  Reservation.check_in b < Reservation.check_out a ->
  is_rival b (booking_of a ida confirmed) = true.
Proof.
  intros Hrt Hab Hba. unfold is_rival. cbn. rewrite Hrt, String.eqb_refl. cbn.
  apply andb_true_iff. split; apply Z.ltb_lt; lia.
Qed.

(** The confirmed Booking of a reservation counts on each of its nights. *)
Lemma counts_booking (r : Reservation.t) id d :
  Reservation.check_in r <= d < Reservation.check_out r ->
  counts (Reservation.room_type_id r) d (booking_of r id confirmed) = true.
Proof.
  intros Hd. unfold counts. cbn. rewrite String.eqb_refl. cbn.
  apply andb_true_iff. split; [apply Z.leb_le|apply Z.ltb_lt]; lia.
Qed.

(** *** What an event of the engine preserves *)

Lemma evolves_refl e : evolves e e.
Proof. by repeat split. Qed.

Lemma evolves_trans e1 e2 e3 : evolves e1 e2 -> evolves e2 e3 -> evolves e1 e3.
Proof.
  intros (? & ? & ? & ?) (? & ? & ? & ?). repeat split; try congruence; auto.
Qed.

Lemma valid_evolves e e' r : evolves e e' -> valid e' r = valid e r.
Proof. intros (Hc & Hch & _). unfold valid. by rewrite Hc, Hch. Qed.

Lemma evolves_move_units e o rt ci co delta : evolves e (move_units e o rt ci co delta).
Proof. by repeat split. Qed.

Lemma evolves_store e r s :
  bookings e !! key_of r = None -> evolves e (store e r s).
Proof.
  intros Hk. repeat split; cbn.
  - intros k [bk Hl]. unfold known. cbn. rewrite lookup_insert_ne; [eauto|]. congruence.
  - intros k (bk & Hl & Hc). exists bk. cbn. rewrite lookup_insert_ne; [done|]. congruence.
Qed.

(** *** The tie-break *)

Lemma rejudge_bookings o e kb :
  capacity (rejudge o e kb) = capacity e ∧ channels (rejudge o e kb) = channels e ∧
  bookings (rejudge o e kb)
  = if keeps (default 0 (capacity e !! Booking.room_type_id kb.2)) (bookings e) kb.2
    then bookings e
    else <[kb.1 := set_status conflict kb.2]> (bookings e).
Proof. unfold rejudge. cbv zeta. by destruct (keeps _ _ _). Qed.

Lemma rejudge_all_config o l : ∀ e,
  capacity (foldl (rejudge o) e l) = capacity e ∧
  channels (foldl (rejudge o) e l) = channels e.
Proof.
  induction l as [|kb l IH]; intros e; [done|]. cbn [foldl].
  destruct (IH (rejudge o e kb)) as [-> ->].
  by destruct (rejudge_bookings o e kb) as (-> & -> & _).
Qed.

(** Judging the rivals again changes a Booking only by moving one of the
    judged Bookings to CONFLICT. *)
Lemma rejudge_all_lookup o l : ∀ e k,
  bookings (foldl (rejudge o) e l) !! k = bookings e !! k ∨
  ∃ bk, (k, bk) ∈ l ∧ bookings (foldl (rejudge o) e l) !! k = Some (set_status conflict bk).
Proof.
  induction l as [|[k0 bk0] l IH]; intros e k; [by left|]. cbn [foldl].
  destruct (IH (rejudge o e (k0, bk0)) k) as [Heq|(bk & Hin & Hl)].
  - destruct (rejudge_bookings o e (k0, bk0)) as (_ & _ & Hb). rewrite Heq, Hb. cbn [fst snd].
    destruct (keeps _ _ _); [by left|].
    destruct (decide (k = k0)) as [->|Hne].
    + right. exists bk0. split; [by left|]. by rewrite lookup_insert_eq.
    + left. by rewrite lookup_insert_ne.
  - right. exists bk. split; [by right|done].
Qed.

Lemma rejudge_all_other o l e k :
  k ∉ l.*1 -> bookings (foldl (rejudge o) e l) !! k = bookings e !! k.
Proof.
  intros Hk. destruct (rejudge_all_lookup o l e k) as [Heq|(bk & Hin & _)]; [done|].
  exfalso. apply Hk. apply list_elem_of_fmap. by exists (k, bk).
Qed.

Lemma rejudge_all_load o l (t : Z) rt d : ∀ e,
  load_until t (bookings (foldl (rejudge o) e l)) rt d <= load_until t (bookings e) rt d.
Proof.
  induction l as [|kb l IH]; intros e; [done|]. cbn [foldl].
  etransitivity; [apply IH|].
  destruct (rejudge_bookings o e kb) as (_ & _ & ->).
  destruct (keeps _ _ _); [done|]. apply load_until_demote.
Qed.

(** A judged Booking that cannot keep its confirmation beside a Booking
    that is not judged ends in CONFLICT, whatever happens to the others. *)
Lemma rejudge_all_demotes o l ka bka k bk : ∀ e,
  NoDup l.*1 -> (k, bk) ∈ l -> ka ∉ l.*1 ->
  bookings e !! ka = Some bka -> bookings e !! k = Some bk ->
  (∀ e', capacity e' = capacity e ->
         bookings e' !! ka = Some bka -> bookings e' !! k = Some bk ->
         keeps (default 0 (capacity e' !! Booking.room_type_id bk)) (bookings e') bk = false) ->
  bookings (foldl (rejudge o) e l) !! k = Some (set_status conflict bk).
Proof.
  induction l as [|[k0 bk0] l IH]; intros e Hnd Hin Hka Hla Hlk Hover; [by inversion Hin|].
  cbn [foldl]. cbn [fmap list_fmap fst] in Hnd, Hka.
  apply NoDup_cons in Hnd as [Hk0 Hnd]. apply not_elem_of_cons in Hka as [Hka0 Hka].
  destruct (rejudge_bookings o e (k0, bk0)) as (Hcap & _ & Hb). cbn [fst snd] in Hb.
  apply elem_of_cons in Hin as [[= <- <-]|Hin].
  - rewrite rejudge_all_other by done.
    rewrite Hb, (Hover e eq_refl Hla Hlk). by rewrite lookup_insert_eq.
  - assert (Hne : k ≠ k0).
    { intros ->. apply Hk0. apply list_elem_of_fmap. by exists (k0, bk). }
    apply IH; try done.
    + rewrite Hb. destruct (keeps _ _ _); [done|]. by rewrite lookup_insert_ne.
    + rewrite Hb. destruct (keeps _ _ _); [done|]. by rewrite lookup_insert_ne.
    + intros e' Hc. apply Hover. by rewrite Hc.
Qed.

Lemma later_rivals_spec (bs : gmap (string * string) Booking.t) r k bk :
  (k, bk) ∈ merge_sort created_le (later_rivals bs r)
  ↔ bs !! k = Some bk ∧ is_rival r bk = true
    ∧ Reservation.created_at r < Booking.created_at bk.
Proof.
  rewrite merge_sort_Permutation. unfold later_rivals.
  rewrite list_elem_of_filter, elem_of_map_to_list. cbn [snd]. tauto.
Qed.

Lemma later_rivals_NoDup (bs : gmap (string * string) Booking.t) r :
  NoDup (merge_sort created_le (later_rivals bs r)).*1.
Proof.
  rewrite merge_sort_Permutation. apply NoDup_fmap_fst.
  - intros k x y [_ Hx%elem_of_map_to_list]%list_elem_of_filter
                 [_ Hy%elem_of_map_to_list]%list_elem_of_filter. congruence.
  - apply NoDup_filter, NoDup_map_to_list.
Qed.

Lemma later_rivals_known (bs : gmap (string * string) Booking.t) r k :
  bs !! k = None -> k ∉ (merge_sort created_le (later_rivals bs r)).*1.
Proof.
  intros Hk ([k' bk] & -> & Hin)%list_elem_of_fmap.
  apply later_rivals_spec in Hin as (Hl & _). cbn in Hk. congruence.
Qed.

Lemma settle_bookings e r :
  capacity (settle e r) = capacity e ∧ channels (settle e r) = channels e ∧
  bookings (settle e r)
  = bookings (foldl (rejudge (Reservation.channel_id r)) (store e r confirmed)
                (merge_sort created_le (later_rivals (bookings e) r))).
Proof.
  unfold settle. cbv zeta. cbn [capacity channels bookings move_units].
  destruct (rejudge_all_config (Reservation.channel_id r)
              (merge_sort created_le (later_rivals (bookings e) r))
              (store e r confirmed)) as [-> ->]. done.
Qed.

Lemma evolves_settle e r :
  bookings e !! key_of r = None ->
  evolves e (settle e r) ∧
  (∀ k, known (settle e r) k -> known e k ∨ k = key_of r) ∧
  bookings (settle e r) !! key_of r = Some (booking_of r (next_booking_id e) confirmed).
Proof.
  intros Hk. destruct (settle_bookings e r) as (Hc & Hch & Hb).
  assert (Hcases : ∀ k,
            bookings (settle e r) !! k
            = <[key_of r := booking_of r (next_booking_id e) confirmed]> (bookings e) !! k
            ∨ ∃ bk, bookings e !! k = Some bk ∧ is_confirmed bk = true
                    ∧ bookings (settle e r) !! k = Some (set_status conflict bk)).
  { intros k. rewrite Hb.
    destruct (rejudge_all_lookup (Reservation.channel_id r)
                (merge_sort created_le (later_rivals (bookings e) r))
                (store e r confirmed) k) as [Heq|(bk & Hin & Hl)]; [by left|].
    right. exists bk. apply later_rivals_spec in Hin as (Hl0 & Hr & _).
    split; [done|]. split; [|done].
    unfold is_rival in Hr. by destruct (is_confirmed bk). }
  split; [|split].
  - split; [done|]. split; [done|]. split.
    + intros k [bk Hl]. unfold known.
      destruct (Hcases k) as [-> |(bk' & _ & _ & ->)]; [|eauto].
      destruct (decide (k = key_of r)) as [->|Hne];
        [rewrite lookup_insert_eq|rewrite lookup_insert_ne by done]; eauto.
    + intros k (bk & Hl & Hcan). unfold dead.
      destruct (Hcases k) as [-> |(bk' & Hl' & Hconf & _)].
      * rewrite lookup_insert_ne by congruence. eauto.
      * exfalso. rewrite Hl in Hl'. inversion Hl'; subst bk'.
        unfold is_confirmed in Hconf. unfold is_cancelled in Hcan.
        by destruct (Booking.status bk).
  - intros k [bk Hl].
    destruct (Hcases k) as [Heq|(bk' & Hl' & _)]; [|left; by exists bk'].
    rewrite Heq in Hl. destruct (decide (k = key_of r)) as [->|Hne]; [by right|].
    left. rewrite lookup_insert_ne in Hl by done. by exists bk.
  - rewrite Hb, rejudge_all_other by (by apply later_rivals_known).
    cbn. by rewrite lookup_insert_eq.
Qed.

(** A confirmation keeps what is known and what is cancelled; it adds at
    most the Booking of its reservation, and adds it when the reservation is
    valid; an invalid reservation changes nothing. *)
Lemma receive_confirmation_spec e r :
  let e' := (receive_confirmation e r).2 in
  evolves e e' ∧
  (∀ k, known e' k -> known e k ∨ k = key_of r) ∧
  (valid e r = true -> known e' (key_of r)) ∧
  (valid e r = false -> e' = e).
Proof.
  unfold receive_confirmation. destruct (valid e r) eqn:Hv; cbn [negb].
  2:{ cbn. split; [apply evolves_refl|]. by repeat split; auto. }
  destruct (bookings e !! key_of r) as [bk|] eqn:Hk.
  { cbn. split; [apply evolves_refl|]. repeat split; auto. intros _. by exists bk. }
  assert (Hstore : ∀ e0 s, bookings e0 !! key_of r = None -> evolves e e0 ->
            (∀ k, known e0 k -> known e k) ->
            evolves e (store e0 r s) ∧
            (∀ k, known (store e0 r s) k -> known e k ∨ k = key_of r) ∧
            (true = true -> known (store e0 r s) (key_of r)) ∧
            (true = false -> store e0 r s = e)).
  { intros e0 s Hk0 Hev Hback. split; [|split; [|split]].
    - eapply evolves_trans; [exact Hev|]. by apply evolves_store.
    - intros k [bk Hl]. cbn in Hl. destruct (decide (k = key_of r)) as [->|Hne]; [by right|].
      left. apply Hback. rewrite lookup_insert_ne in Hl by done. by exists bk.
    - intros _. unfold known. cbn. rewrite lookup_insert_eq. eauto.
    - done. }
  cbv zeta. destruct (forallb _ _).
  - cbn [snd]. apply Hstore; [done|apply evolves_move_units|done].
  - destruct (forallb _ _).
    + cbn [snd]. destruct (evolves_settle e r Hk) as (Hev & Hback & Hl).
      split; [done|]. split; [done|]. split; [|done].
      intros _. unfold known. rewrite Hl. eauto.
    + cbn [snd]. apply Hstore; [done|apply evolves_refl|done].
Qed.

(** The three ways a new, valid reservation is received. *)
Lemma receive_confirmation_new e r cap :
  valid e r = true -> bookings e !! key_of r = None ->
  capacity e !! Reservation.room_type_id r = Some cap ->
  let nights := seqZ (Reservation.check_in r)
                     (Reservation.check_out r - Reservation.check_in r) in
  let fits :=
    forallb (fun d => load (bookings e) (Reservation.room_type_id r) d
                      + Z.of_N (Reservation.units r) <=? cap) nights in
  let wins :=
    forallb (fun d => load_until (Reservation.created_at r) (bookings e)
                        (Reservation.room_type_id r) d
                      + Z.of_N (Reservation.units r) <=? cap) nights in
  ∃ vs,
    receive_confirmation e r
    = if fits
      then (APPLIED vs,
            store (move_units e (Reservation.channel_id r) (Reservation.room_type_id r)
                     (Reservation.check_in r) (Reservation.check_out r)
                     (- Z.of_N (Reservation.units r))) r confirmed)
      else if wins then (APPLIED vs, settle e r)
      else (CONFLICT_QUEUED, store e r conflict).
Proof.
  intros Hv Hk Hcap nights fits wins. unfold receive_confirmation.
  rewrite Hv, Hk, Hcap. cbn [negb default from_option]. unfold id. cbv zeta.
  fold nights. fold fits. fold wins.
  destruct fits; [eauto|]. destruct wins; [eauto|]. by exists [].
Qed.

(** A new, valid reservation leaves a Booking, confirmed or in CONFLICT.
    It is confirmed only when it fits beside the Bookings created no later
    than it, and receiving it adds nothing to the load of the Bookings
    created before it. *)
Lemma received_booking e r cap :
  valid e r = true -> bookings e !! key_of r = None ->
  capacity e !! Reservation.room_type_id r = Some cap ->
  let e' := (receive_confirmation e r).2 in
  ∃ s,
    bookings e' !! key_of r = Some (booking_of r (next_booking_id e) s) ∧
    (s = confirmed ∧ (∃ vs, (receive_confirmation e r).1 = APPLIED vs) ∧
     (∀ d, Reservation.check_in r <= d < Reservation.check_out r ->
           load_until (Reservation.created_at r) (bookings e)
             (Reservation.room_type_id r) d + Z.of_N (Reservation.units r) <= cap)
     ∨ s = conflict ∧ (receive_confirmation e r).1 = CONFLICT_QUEUED) ∧
    (∀ t rt d, t < Reservation.created_at r ->
               load_until t (bookings e') rt d <= load_until t (bookings e) rt d).
Proof.
  intros Hv Hk Hcap e'. unfold e'.
  destruct (receive_confirmation_new e r cap Hv Hk Hcap) as (vs & ->).
  assert (Hadd : ∀ s t rt d, t < Reservation.created_at r ->
            load_until t (<[key_of r := booking_of r (next_booking_id e) s]> (bookings e)) rt d
            = load_until t (bookings e) rt d).
  { intros s t rt d Ht. rewrite load_until_insert by done.
    replace (Booking.created_at (booking_of r (next_booking_id e) s) <=? t) with false
      by (symmetry; apply Z.leb_gt; cbn; lia).
    rewrite andb_false_r. lia. }
  destruct (forallb (fun d => load _ _ d + _ <=? _) _) eqn:Hfits;
    [|destruct (forallb (fun d => load_until _ _ _ d + _ <=? _) _) eqn:Hwins].
  - exists confirmed. cbn [snd fst bookings store move_units].
    split; [by rewrite lookup_insert_eq|]. split; [|intros; by rewrite Hadd].
    left. split; [done|]. split; [eauto|]. intros d Hd.
    rewrite forallb_forall in Hfits.
    specialize (Hfits d ltac:(apply list_elem_of_In, elem_of_seqZ; lia)).
    apply Z.leb_le in Hfits.
    pose proof (load_until_le_load (Reservation.created_at r) (bookings e)
                  (Reservation.room_type_id r) d). lia.
  - exists confirmed. cbn [snd fst].
    destruct (evolves_settle e r Hk) as (_ & _ & Hl).
    split; [done|]. split.
    + left. split; [done|]. split; [eauto|]. intros d Hd.
      rewrite forallb_forall in Hwins.
      specialize (Hwins d ltac:(apply list_elem_of_In, elem_of_seqZ; lia)).
      by apply Z.leb_le in Hwins.
    + intros t rt d Ht. destruct (settle_bookings e r) as (_ & _ & ->).
      etransitivity; [apply rejudge_all_load|].
      cbn [bookings store]. by rewrite Hadd.
  - exists conflict. cbn [snd fst bookings store].
    split; [by rewrite lookup_insert_eq|]. split; [by right|]. intros; by rewrite Hadd.
Qed.

(** C6. Deterministic tie-break.  Two new reservations [a] and [b] of
    different channels, for the same room type, with overlapping stays and
    units that together exceed the capacity, reach an engine in any state,
    whatever other Bookings it holds.  [a], the one created first, is a
    reservation the engine confirms when it receives it on its own; [b] is
    any valid reservation.  Then in both orders of arrival [a] ends
    confirmed and [b] in CONFLICT: exactly one of the two is confirmed, and
    it is the one with the earliest created_at. *)
Theorem earliest_created_at_wins (e : Engine) (a b : Reservation.t) (cap : Z) :
  capacity e !! Reservation.room_type_id a = Some cap ->
  Reservation.channel_id a ≠ Reservation.channel_id b ->
  Reservation.room_type_id b = Reservation.room_type_id a ->
  Reservation.check_in a < Reservation.check_out b ->
  Reservation.check_in b < Reservation.check_out a ->
  cap < Z.of_N (Reservation.units a) + Z.of_N (Reservation.units b) ->
  bookings e !! key_of a = None -> bookings e !! key_of b = None ->
  Booking.status <$> bookings (receive_confirmation e a).2 !! key_of a = Some confirmed ->
  valid e b = true ->
  Reservation.created_at a < Reservation.created_at b ->
  let status_of (e' : Engine) (r : Reservation.t) :=
    Booking.status <$> bookings e' !! key_of r in
  let a_then_b := receive_confirmation (receive_confirmation e a).2 b in
  let b_then_a := receive_confirmation (receive_confirmation e b).2 a in
  a_then_b.1 = CONFLICT_QUEUED ∧
  status_of a_then_b.2 a = Some confirmed ∧ status_of a_then_b.2 b = Some conflict ∧
  (∃ versions, b_then_a.1 = APPLIED versions) ∧
  status_of b_then_a.2 a = Some confirmed ∧ status_of b_then_a.2 b = Some conflict.
Proof.
  intros Hcap Hch Hrt Hab Hba Hover Hka Hkb Hconf Hvb Hcreated status_of a_then_b b_then_a.
  assert (Hkey : key_of a ≠ key_of b) by (unfold key_of; congruence).
  assert (Hcapb : capacity e !! Reservation.room_type_id b = Some cap) by (by rewrite Hrt).
  assert (Hva : valid e a = true).
  { destruct (valid e a) eqn:Hv; [done|exfalso].
    destruct (receive_confirmation_spec e a) as (_ & _ & _ & Hid).
    rewrite (Hid Hv), Hka in Hconf. done. }
  destruct (valid_inv _ _ Hva) as (Ha & _ & _). destruct (valid_inv _ _ Hvb) as (Hb & _ & _).
  destruct (shared_night a b Hab Hba Ha Hb) as [Hda Hdb].
  set (d := Z.max (Reservation.check_in a) (Reservation.check_in b)) in *.
  assert (Hd_a : In d (seqZ (Reservation.check_in a)
                         (Reservation.check_out a - Reservation.check_in a)))
    by (apply list_elem_of_In, elem_of_seqZ; lia).
  assert (Hd_b : In d (seqZ (Reservation.check_in b)
                         (Reservation.check_out b - Reservation.check_in b)))
    by (apply list_elem_of_In, elem_of_seqZ; lia).
  (* what [a] and [b] leave when received first *)
  destruct (received_booking e a cap Hva Hka Hcap) as (sa & Hla & Hsa & _).
  rewrite Hla in Hconf. cbn in Hconf.
  destruct Hsa as [(-> & _ & Hwins_a)|(-> & _)]; [|done]. clear Hconf.
  destruct (received_booking e b cap Hvb Hkb Hcapb) as (sb & Hlb & Hsb & Hload_b).
  destruct (receive_confirmation_spec e a) as (Hev_a & Hback_a & _).
  destruct (receive_confirmation_spec e b) as (Hev_b & Hback_b & _).
  set (e1 := (receive_confirmation e a).2) in *.
  set (e2 := (receive_confirmation e b).2) in *.
  assert (Hkb1 : bookings e1 !! key_of b = None).
  { destruct (bookings e1 !! key_of b) as [bk|] eqn:Hl; [exfalso|done].
    destruct (Hback_a (key_of b) (ex_intro _ bk Hl)) as [[bk' Hl']|Heq]; congruence. }
  assert (Hka2 : bookings e2 !! key_of a = None).
  { destruct (bookings e2 !! key_of a) as [bk|] eqn:Hl; [exfalso|done].
    destruct (Hback_b (key_of a) (ex_intro _ bk Hl)) as [[bk' Hl']|Heq]; congruence. }
  assert (Hvb1 : valid e1 b = true) by (by rewrite (valid_evolves _ _ _ Hev_a)).
  assert (Hva2 : valid e2 a = true) by (by rewrite (valid_evolves _ _ _ Hev_b)).
  assert (Hcap1 : capacity e1 !! Reservation.room_type_id b = Some cap).
  { destruct Hev_a as (-> & _). done. }
  assert (Hcap2 : capacity e2 !! Reservation.room_type_id a = Some cap).
  { destruct Hev_b as (-> & _). done. }
  (* [a] then [b]: [b] neither fits nor wins *)
  assert (Hab' : a_then_b = (CONFLICT_QUEUED, store e1 b conflict)).
  { unfold a_then_b. fold e1.
    destruct (receive_confirmation_new e1 b cap Hvb1 Hkb1 Hcap1) as (vs & ->).
    assert (Hca : counts (Reservation.room_type_id b) d
                    (booking_of a (next_booking_id e) confirmed) = true)
      by (rewrite Hrt; by apply counts_booking).
    rewrite (forallb_false_at _ _ d Hd_b).
    2:{ apply Z.leb_gt.
        pose proof (load_lookup (bookings e1) _ _ (Reservation.room_type_id b) d Hla) as Hl.
        rewrite Hca in Hl. cbn in Hl. lia. }
    rewrite (forallb_false_at _ _ d Hd_b); [done|].
    apply Z.leb_gt.
    pose proof (load_until_lookup (Reservation.created_at b) (bookings e1) _ _
                  (Reservation.room_type_id b) d Hla) as Hl.
    rewrite Hca in Hl. cbn in Hl.
    rewrite (proj2 (Z.leb_le _ _)) in Hl by lia. lia. }
  (* [b] then [a]: [a] fits or wins, and pushes [b] out if it was confirmed *)
  assert (Hba' : (∃ vs, b_then_a.1 = APPLIED vs) ∧
                 status_of b_then_a.2 a = Some confirmed ∧
                 status_of b_then_a.2 b = Some conflict).
  { unfold b_then_a, status_of. fold e2.
    destruct (receive_confirmation_new e2 a cap Hva2 Hka2 Hcap2) as (vs & ->).
    assert (Hwins : forallb
              (fun d' => load_until (Reservation.created_at a) (bookings e2)
                           (Reservation.room_type_id a) d'
                         + Z.of_N (Reservation.units a) <=? cap)
              (seqZ (Reservation.check_in a)
                    (Reservation.check_out a - Reservation.check_in a)) = true).
    { apply forallb_forall. intros d' Hd'%list_elem_of_In%elem_of_seqZ. apply Z.leb_le.
      pose proof (Hload_b (Reservation.created_at a) (Reservation.room_type_id a) d'
                    Hcreated).
      pose proof (Hwins_a d' ltac:(lia)). lia. }
    rewrite Hwins.
    assert (Hcb : ∀ id, counts (Reservation.room_type_id a) d
                          (booking_of b id confirmed) = true)
      by (intros id; rewrite <- Hrt; by apply counts_booking).
    destruct (forallb (fun d => load _ _ d + _ <=? _) _) eqn:Hfits.
    - (* [a] fits: [b] was already in CONFLICT *)
      cbn [fst snd bookings store move_units].
      split; [eauto|]. split; [by rewrite lookup_insert_eq|].
      rewrite lookup_insert_ne, Hlb by done. cbn.
      destruct Hsb as [(-> & _)|(-> & _)]; [exfalso|done].
      rewrite forallb_forall in Hfits. specialize (Hfits d Hd_a). apply Z.leb_le in Hfits.
      pose proof (load_lookup (bookings e2) _ _ (Reservation.room_type_id a) d Hlb) as Hl.
      rewrite Hcb in Hl. cbn in Hl. lia.
    - (* [a] wins the tie-break *)
      cbn [fst snd]. split; [eauto|].
      destruct (evolves_settle e2 a Hka2) as (_ & _ & Hla2).
      split; [by rewrite Hla2|].
      destruct (settle_bookings e2 a) as (_ & _ & ->).
      destruct Hsb as [(-> & _)|(-> & _)].
      + erewrite (rejudge_all_demotes _ _ (key_of a)
                    (booking_of a (next_booking_id e2) confirmed) (key_of b)
                    (booking_of b (next_booking_id e) confirmed)); [done|..].
        * apply later_rivals_NoDup.
        * apply later_rivals_spec. split; [done|]. split; [|done].
          apply (rival_of_booking b a); (done || by rewrite ?Hrt).
        * by apply later_rivals_known.
        * cbn. by rewrite lookup_insert_eq.
        * cbn. by rewrite lookup_insert_ne.
        * intros e' Hc Hl1 Hl2. cbn [capacity store] in Hc.
          cbn [Booking.room_type_id booking_of]. rewrite Hc, Hrt, Hcap2.
          cbn [default from_option]. unfold id.
          apply (forallb_false_at _ _ d Hd_b). apply Z.leb_gt.
          pose proof (load_until_lookup2 (Reservation.created_at b) (bookings e')
                        (key_of a) (key_of b) _ _ (Reservation.room_type_id a) d
                        Hkey Hl1 Hl2) as Hl.
          rewrite Hcb, (counts_booking a) in Hl by done. cbn in Hl.
          rewrite (proj2 (Z.leb_le _ _)) in Hl by lia.
          rewrite Z.leb_refl in Hl. cbn. rewrite Hrt. lia.
      + rewrite rejudge_all_other.
        * cbn. by rewrite lookup_insert_ne, Hlb.
        * intros ([k' bk] & Hk' & Hin)%list_elem_of_fmap. cbn in Hk'. subst k'.
          apply later_rivals_spec in Hin as (Hl & Hr & _).
          rewrite Hlb in Hl. inversion Hl; subst bk. done. }
  rewrite Hab'. cbn [fst snd]. unfold status_of. cbn [bookings store].
  split; [done|]. split; [by rewrite lookup_insert_ne, Hla|].
  split; [by rewrite lookup_insert_eq|]. exact Hba'.
Qed.

(** *** iCal ingestion *)

(** A cancellation keeps the configuration and what is known, and leaves
    the Booking it names cancelled. *)
Lemma receive_cancellation_spec e c x :
  let e' := (receive_cancellation e c x).2 in
  evolves e e' ∧ (∀ k, known e' k -> known e k) ∧ (known e (c, x) -> dead e' (c, x)).
Proof.
  unfold receive_cancellation.
  destruct (bookings e !! (c, x)) as [bk|] eqn:Hk.
  2:{ cbn. split; [apply evolves_refl|]. split; [done|]. intros [? ?]. congruence. }
  destruct (Booking.status bk) eqn:Hs.
  - cbn. split; [|split].
    + repeat split; cbn; try done.
      * intros k [bk' Hl]. unfold known. cbn.
        destruct (decide (k = (c, x))) as [->|Hne];
          [rewrite lookup_insert_eq|rewrite lookup_insert_ne by done]; eauto.
      * intros k (bk' & Hl & Hc). unfold dead. cbn.
        destruct (decide (k = (c, x))) as [->|Hne];
          [rewrite lookup_insert_eq|rewrite lookup_insert_ne by done]; eauto.
    + intros k [bk' Hl]. cbn in Hl. unfold known.
      destruct (decide (k = (c, x))) as [->|Hne]; [by rewrite Hk|].
      rewrite lookup_insert_ne in Hl by done. eauto.
    + intros _. unfold dead. cbn. rewrite lookup_insert_eq. eauto.
  - cbn. split; [apply evolves_refl|]. split; [done|]. intros _. exists bk.
    split; [done|]. unfold is_cancelled. by rewrite Hs.
  - cbn. split; [|split].
    + repeat split; cbn; try done.
      * intros k [bk' Hl]. unfold known. cbn.
        destruct (decide (k = (c, x))) as [->|Hne];
          [rewrite lookup_insert_eq|rewrite lookup_insert_ne by done]; eauto.
      * intros k (bk' & Hl & Hc). unfold dead. cbn.
        destruct (decide (k = (c, x))) as [->|Hne];
          [rewrite lookup_insert_eq|rewrite lookup_insert_ne by done]; eauto.
    + intros k [bk' Hl]. cbn in Hl. unfold known.
      destruct (decide (k = (c, x))) as [->|Hne]; [by rewrite Hk|].
      rewrite lookup_insert_ne in Hl by done. eauto.
    + intros _. unfold dead. cbn. rewrite lookup_insert_eq. eauto.
Qed.

Lemma receive_all_spec rs : ∀ e,
  evolves e (receive_all e rs) ∧
  (∀ k, known (receive_all e rs) k -> known e k ∨ ∃ r, r ∈ rs ∧ k = key_of r) ∧
  (∀ r, r ∈ rs -> valid e r = true -> known (receive_all e rs) (key_of r)).
Proof.
  induction rs as [|r rs IH]; intros e; cbn.
  - split; [apply evolves_refl|]. split; [auto|]. intros r Hr. inversion Hr.
  - destruct (receive_confirmation_spec e r) as (Hev & Hnew & Hadd & _).
    destruct (IH (receive_confirmation e r).2) as (Hev' & Hnew' & Hadd').
    split; [by eapply evolves_trans|]. split.
    + intros k Hk. destruct (Hnew' k Hk) as [Hk1|(r' & Hr' & ->)].
      * destruct (Hnew k Hk1) as [Hk0 | ->]; [by left|]. right. exists r. split; [by left|done].
      * right. exists r'. split; [by right|done].
    + intros r' [->|Hin]%elem_of_cons Hv.
      * destruct Hev' as (_ & _ & Hkn & _). apply Hkn. by apply Hadd.
      * apply Hadd'; [done|]. by rewrite (valid_evolves _ _ _ Hev).
Qed.

Lemma receive_all_invalid rs : ∀ e,
  (∀ r, r ∈ rs -> valid e r = false) -> receive_all e rs = e.
Proof.
  induction rs as [|r rs IH]; intros e Hinv; cbn; [done|].
  destruct (receive_confirmation_spec e r) as (_ & _ & _ & Hid).
  rewrite Hid by (apply Hinv; by left). apply IH. intros r' Hr'. apply Hinv. by right.
Qed.

Lemma cancel_all_spec c kbs : ∀ e,
  evolves e (cancel_all c e kbs) ∧
  (∀ k, known (cancel_all c e kbs) k -> known e k) ∧
  (∀ kb, kb ∈ kbs -> known e (c, kb.1.2) -> dead (cancel_all c e kbs) (c, kb.1.2)).
Proof.
  induction kbs as [|kb kbs IH]; intros e; cbn.
  - split; [apply evolves_refl|]. split; [auto|]. intros kb Hkb. inversion Hkb.
  - destruct (receive_cancellation_spec e c kb.1.2) as (Hev & Hback & Hdead).
    destruct (IH (receive_cancellation e c kb.1.2).2) as (Hev' & Hback' & Hdead').
    split; [by eapply evolves_trans|]. split; [auto|].
    intros kb' [->|Hin]%elem_of_cons Hk.
    + destruct Hev' as (_ & _ & _ & Hd). apply Hd. by apply Hdead.
    + apply Hdead'; [done|]. destruct Hev as (_ & _ & Hkn & _). by apply Hkn.
Qed.

Lemma key_of_with_channel c r :
  key_of (with_channel c r) = (c, Reservation.external_reservation_id r).
Proof. done. Qed.

(** C5. Re-ingesting the same iCal feed is idempotent: after one ingestion
    of a feed for a channel, a second ingestion of the same feed finds
    nothing new to add and nothing missing to cancel, and leaves the whole
    engine state (Bookings with their statuses, Ledger and queue) as the
    first ingestion left it. *)
Theorem ical_reingestion_is_idempotent
    (e : Engine) (channel_id : string) (feed : list Reservation.t) :
  let e1 := ingest_ical e channel_id feed in
  let events := map (with_channel channel_id) feed in
  (∀ r, r ∈ new_in_feed e1 events -> receive_confirmation e1 r = (REJECTED ValidationError, e1)) ∧
  missing_from_feed e1 channel_id events = [] ∧
  ingest_ical e1 channel_id feed = e1 ∧
  (∀ k, Booking.status <$> bookings (ingest_ical e1 channel_id feed) !! k
        = Booking.status <$> bookings e1 !! k).
Proof.
  intros e1 events.
  set (new := new_in_feed e events).
  set (missing := missing_from_feed e channel_id events).
  set (e0 := receive_all e new).
  assert (He1 : e1 = cancel_all channel_id e0 missing) by done.
  destruct (receive_all_spec new e) as (Hev0 & Hnew0 & Hadd0). fold e0 in Hev0, Hnew0, Hadd0.
  destruct (cancel_all_spec channel_id missing e0) as (Hev1 & Hback1 & Hdead1).
  rewrite <- He1 in Hev1, Hback1, Hdead1.
  pose proof (evolves_trans _ _ _ Hev0 Hev1) as Hev.
  assert (Hinvalid : ∀ r, r ∈ new_in_feed e1 events -> valid e1 r = false).
  { intros r [Hnone Hin]%list_elem_of_filter.
    destruct (valid e1 r) eqn:Hv; [exfalso|done].
    rewrite (valid_evolves _ _ _ Hev) in Hv.
    assert (Hk : known e1 (key_of r)); [|destruct Hk as [? ?]; congruence].
    destruct (bookings e !! key_of r) as [bk|] eqn:Hk.
    - destruct Hev as (_ & _ & Hkn & _). apply Hkn. by exists bk.
    - destruct Hev1 as (_ & _ & Hkn & _). apply Hkn, Hadd0; [|done].
      apply list_elem_of_filter. by split. }
  assert (Hmissing : missing_from_feed e1 channel_id events = []).
  { unfold missing_from_feed.
    destruct (filter _ (map_to_list (bookings e1))) as [|[k bk] rest] eqn:Hf; [done|exfalso].
    assert (Hin : (k, bk) ∈ filter
              (fun kb : (string * string) * Booking.t =>
                 kb.1.1 = channel_id ∧ is_cancelled kb.2 = false
                 ∧ kb.1.2 ∉ map Reservation.external_reservation_id events)
              (map_to_list (bookings e1))) by (rewrite Hf; by left).
    apply list_elem_of_filter in Hin as [(Hc & Hcan & Hnot) Hl]. cbn in Hc, Hcan, Hnot.
    apply elem_of_map_to_list in Hl.
    assert (Hdead : dead e1 k); [|destruct Hdead as (bk' & Hl' & Hcan'); congruence].
    destruct (Hnew0 k (Hback1 k (ex_intro _ bk Hl))) as [[bk0 Hl0]|(r & Hr & ->)].
    - destruct (is_cancelled bk0) eqn:Hcan0.
      + destruct Hev as (_ & _ & _ & Hd). apply Hd. by exists bk0.
      + destruct k as [kc kx]. cbn in Hc, Hnot. subst kc.
        apply (Hdead1 ((channel_id, kx), bk0)).
        * apply list_elem_of_filter. split; [done|]. by apply elem_of_map_to_list.
        * destruct Hev0 as (_ & _ & Hkn & _). apply Hkn. by exists bk0.
    - exfalso. apply Hnot. apply list_elem_of_filter in Hr as [_ Hr]. cbn.
      apply list_elem_of_In, in_map, list_elem_of_In. done. }
  assert (Hid : ingest_ical e1 channel_id feed = e1).
  { unfold ingest_ical. fold events. rewrite Hmissing. cbn [cancel_all foldl].
    by apply receive_all_invalid. }
  split; [|split; [done|split; [done|]]].
  - intros r Hr. unfold receive_confirmation. by rewrite (Hinvalid r Hr).
  - intros k. by rewrite Hid.
Qed.

(** *** Outbound Sync Scheduler *)

Lemma run_app cfg evs1 evs2 c :
  run cfg (evs1 ++ evs2) c
  = ((run cfg evs1 c).1 ++ (run cfg evs2 (run cfg evs1 c).2).1,
     (run cfg evs2 (run cfg evs1 c).2).2).
Proof.
  revert c. induction evs1 as [|ev evs1 IH]; intros c; cbn.
  - by destruct (run cfg evs2 c).
  - destruct (step cfg ev c) as [d c1]. rewrite IH.
    destruct (run cfg evs1 c1) as [ds1 c2]. cbn. by destruct (run cfg evs2 c2).
Qed.

(** Failures add up while the circuit is closed and below the threshold. *)
Lemma run_closed_failures cfg evs : ∀ c,
  ChannelAdapterState.circuit_state (adapter c) = closed ->
  forallb (fun ev => negb (is_success ev)) evs = true ->
  (ChannelAdapterState.consecutive_failure_count (adapter c)
   + length (filter (fun ev => is_failure ev = true) evs) < failure_threshold cfg)%nat ->
  let c' := (run cfg evs c).2 in
  ChannelAdapterState.circuit_state (adapter c') = closed ∧
  ChannelAdapterState.consecutive_failure_count (adapter c')
  = (ChannelAdapterState.consecutive_failure_count (adapter c)
     + length (filter (fun ev => is_failure ev = true) evs))%nat.
Proof.
  induction evs as [|ev evs IH]; intros c Hc Hs Hn; cbn [run].
  - cbn. split; [done|lia].
  - cbn [forallb] in Hs. apply andb_true_iff in Hs as [Hev Hs].
    assert (Hlen : length (filter (fun ev => is_failure ev = true) (ev :: evs))
                   = ((if is_failure ev then 1 else 0)
                      + length (filter (fun ev => is_failure ev = true) evs))%nat).
    { destruct (is_failure ev) eqn:Hf.
      - by rewrite filter_cons_True.
      - rewrite filter_cons_False; [done|]. by rewrite Hf. }
    rewrite Hlen in *. clear Hlen.
    destruct (step cfg ev c) as [d c1] eqn:Hstep.
    assert (Hc1 : ChannelAdapterState.circuit_state (adapter c1) = closed ∧
                  ChannelAdapterState.consecutive_failure_count (adapter c1)
                  = (ChannelAdapterState.consecutive_failure_count (adapter c)
                     + if is_failure ev then 1 else 0)%nat).
    { destruct ev as [now|now task [|]]; cbn in Hstep, Hev; [|done|].
      - unfold tick in Hstep. rewrite Hc in Hstep.
        destruct (now <? _); [inversion Hstep; subst; cbn; split; [done|lia]|].
        destruct (take _ _); inversion Hstep; subst; cbn; split; try done; lia.
      - inversion Hstep; subst. unfold result. cbn. rewrite Hc.
        cbn in Hn. rewrite bool_decide_false by lia. split; [done|lia]. }
    destruct Hc1 as [Hc1 Hcount].
    destruct (IH c1 Hc1 Hs) as [IH1 IH2]; [rewrite Hcount; lia|].
    destruct (run cfg evs c1) as [ds c2]. cbn [snd] in *. split; [done|].
    rewrite IH2, Hcount. lia.
Qed.

(** The failure that reaches the threshold opens the circuit. *)
Lemma result_opens cfg now task c :
  ChannelAdapterState.circuit_state (adapter c) = closed ->
  (failure_threshold cfg <= S (ChannelAdapterState.consecutive_failure_count (adapter c)))%nat ->
  let c' := result cfg now task false c in
  ChannelAdapterState.circuit_state (adapter c') = open ∧
  ChannelAdapterState.opened_at (adapter c') = now.
Proof.
  intros Hc Hk. unfold result. cbn. rewrite Hc. by rewrite bool_decide_true.
Qed.

(** No dispatch while the circuit is open and the window has not elapsed. *)
Lemma run_ticks_open_early cfg ticks : ∀ c,
  ChannelAdapterState.circuit_state (adapter c) = open ->
  Forall (fun now => now < ChannelAdapterState.opened_at (adapter c) + cool_down cfg) ticks ->
  run cfg (Tick <$> ticks) c = (replicate (length ticks) idle, c).
Proof.
  induction ticks as [|now ticks IH]; intros c Hc Hall; [done|].
  apply Forall_cons in Hall as [Hnow Hall]. cbn. unfold tick. rewrite Hc.
  rewrite (proj2 (Z.ltb_lt _ _) Hnow). by rewrite IH.
Qed.

(** No dispatch while the probe is out. *)
Lemma run_ticks_half_open cfg ticks : ∀ c,
  ChannelAdapterState.circuit_state (adapter c) = half_open ->
  run cfg (Tick <$> ticks) c = (replicate (length ticks) idle, c).
Proof.
  induction ticks as [|now ticks IH]; intros c Hc; [done|].
  cbn. unfold tick. rewrite Hc. by rewrite IH.
Qed.

Lemma tick_open_late cfg now c :
  ChannelAdapterState.circuit_state (adapter c) = open ->
  ChannelAdapterState.opened_at (adapter c) + cool_down cfg <= now ->
  ∃ c', tick cfg now c = (probe (head (pending c)), c') ∧
        ChannelAdapterState.circuit_state (adapter c') = half_open.
Proof.
  intros Hc Hnow. unfold tick. rewrite Hc.
  rewrite (proj2 (Z.ltb_ge _ _) Hnow). eauto.
Qed.

(** C7. Circuit breaking.  With the default threshold of 5, a channel whose
    circuit is closed opens it at its fifth consecutive failure; dispatch
    cycles that run before the cool-down window has elapsed send nothing and
    leave the channel as it is; the first cycle at or after the end of the
    window sends the probe and leaves the circuit half-open, and no cycle
    after it sends anything while the probe is out: over any sequence of
    cycles exactly one probe task is sent, and no other task. *)
Theorem circuit_breaker
    (cfg : Config) (c : Channel) (evs : list Event) (t : Z) (task : option SyncTask.t) :
  failure_threshold cfg = 5%nat ->
  ChannelAdapterState.circuit_state (adapter c) = closed ->
  ChannelAdapterState.consecutive_failure_count (adapter c) = 0%nat ->
  forallb (fun ev => negb (is_success ev)) evs = true ->
  length (filter (fun ev => is_failure ev = true) evs) = 4%nat ->
  let c4 := (run cfg evs c).2 in
  let c5 := (run cfg (evs ++ [Result t task false]) c).2 in
  ChannelAdapterState.circuit_state (adapter c4) = closed ∧
  ChannelAdapterState.circuit_state (adapter c5) = open ∧
  ChannelAdapterState.opened_at (adapter c5) = t ∧
  (∀ ticks,
     Forall (fun now => now < t + cool_down cfg) ticks ->
     run cfg (Tick <$> ticks) c5 = (replicate (length ticks) idle, c5)) ∧
  (∀ before now after,
     Forall (fun now' => now' < t + cool_down cfg) before ->
     t + cool_down cfg <= now ->
     ∃ c',
       run cfg (Tick <$> (before ++ now :: after)) c5
       = (replicate (length before) idle
            ++ probe (head (pending c5)) :: replicate (length after) idle, c') ∧
       ChannelAdapterState.circuit_state (adapter c') = half_open).
Proof.
  intros HK Hc H0 Hs H4 c4 c5.
  destruct (run_closed_failures cfg evs c Hc Hs) as [Hc4 Hn4]; [rewrite HK, H0, H4; lia|].
  fold c4 in Hc4, Hn4.
  assert (Hc5 : c5 = result cfg t task false c4).
  { unfold c5, c4. rewrite run_app. cbn. done. }
  destruct (result_opens cfg t task c4 Hc4) as [Ho Ht]; [rewrite Hn4, HK, H0, H4; lia|].
  rewrite <- Hc5 in Ho, Ht.
  split; [done|]. split; [done|]. split; [done|]. split.
  - intros ticks Hall. apply run_ticks_open_early; [done|]. by rewrite Ht.
  - intros before now after Hbefore Hnow.
    destruct (tick_open_late cfg now c5 Ho) as (c' & Htick & Hh); [by rewrite Ht|].
    exists c'. rewrite fmap_app, run_app.
    rewrite run_ticks_open_early by (by rewrite ?Ht). cbn [fst snd].
    rewrite fmap_cons. cbn [run step]. rewrite Htick.
    rewrite run_ticks_half_open by done. done.
Qed.

(** *** The scenarios of section 8 *)

(** A then B: B moves to CONFLICT, A stays confirmed, and the Ledger holds
    8 available units for 06-01 and 06-02. *)
Example scenario_A_then_B :
  let '(outcome, e) :=
    receive_confirmation (receive_confirmation Scenario.e0 Scenario.A).2 Scenario.B in
  (outcome,
   Booking.status <$> bookings e !! key_of Scenario.A,
   Booking.status <$> bookings e !! key_of Scenario.B,
   InventoryDay.available_units <$> Ledger.get (ledger e) "deluxe" 19875 19877)
  = (CONFLICT_QUEUED, Some confirmed, Some conflict, [8; 8]).
Proof. vm_compute. reflexivity. Qed.

(** B then A: the same Bookings win and lose, the same units remain. *)
Example scenario_B_then_A :
  let '(outcome, e) :=
    receive_confirmation (receive_confirmation Scenario.e0 Scenario.B).2 Scenario.A in
  (outcome,
   Booking.status <$> bookings e !! key_of Scenario.A,
   Booking.status <$> bookings e !! key_of Scenario.B,
   InventoryDay.available_units <$> Ledger.get (ledger e) "deluxe" 19875 19877)
  = (APPLIED [(19875, 3); (19876, 3)], Some confirmed, Some conflict, [8; 8]).
Proof. vm_compute. reflexivity. Qed.

(** A third Booking in the slot, created before both: with C confirmed, A
    and B resolve the same way in both orders of arrival, and C keeps its
    confirmation. *)
Example third_booking_either_order :
  let e_ab :=
    (receive_confirmation (receive_confirmation Scenario.e_C Scenario.A).2 Scenario.B).2 in
  let e_ba :=
    (receive_confirmation (receive_confirmation Scenario.e_C Scenario.B).2 Scenario.A).2 in
  let statuses e :=
    (fun r => Booking.status <$> bookings e !! key_of r)
      <$> [Scenario.A; Scenario.B; Scenario.C] in
  (statuses e_ab, statuses e_ba,
   InventoryDay.available_units <$> Ledger.get (ledger e_ab) "deluxe" 19875 19877,
   InventoryDay.available_units <$> Ledger.get (ledger e_ba) "deluxe" 19875 19877)
  = ([Some confirmed; Some conflict; Some confirmed],
     [Some confirmed; Some conflict; Some confirmed], [7; 7], [7; 7]).
Proof. vm_compute. reflexivity. Qed.

(** A Booking created after both: when A arrives last and wins, only B is
    pushed out; D, judged after B has gone, keeps its confirmation. *)
Example later_booking_keeps_its_place :
  let e_dba :=
    (receive_confirmation
       (receive_confirmation (receive_confirmation Scenario.e0 Scenario.D).2 Scenario.B).2
       Scenario.A).2 in
  ((fun r => Booking.status <$> bookings e_dba !! key_of r)
     <$> [Scenario.A; Scenario.B; Scenario.D],
   InventoryDay.available_units <$> Ledger.get (ledger e_dba) "deluxe" 19875 19877)
  = ([Some confirmed; Some conflict; Some confirmed], [7; 7]).
Proof. vm_compute. reflexivity. Qed.

(** Why the earlier of the two has to be a Booking that is confirmed when
    it is received: beside a Booking of 9 units created before both, A is
    never confirmed, and A and B both end in CONFLICT, in either order. *)
Example earlier_booking_crowds_out :
  let e9 := (receive_confirmation Scenario.e0 Scenario.C9).2 in
  let e_ab := (receive_confirmation (receive_confirmation e9 Scenario.A).2 Scenario.B).2 in
  let e_ba := (receive_confirmation (receive_confirmation e9 Scenario.B).2 Scenario.A).2 in
  let statuses e :=
    (fun r => Booking.status <$> bookings e !! key_of r)
      <$> [Scenario.A; Scenario.B; Scenario.C9] in
  (Booking.status <$> bookings (receive_confirmation e9 Scenario.A).2 !! key_of Scenario.A,
   statuses e_ab, statuses e_ba)
  = (Some conflict,
     [Some conflict; Some conflict; Some confirmed],
     [Some conflict; Some conflict; Some confirmed]).
Proof. vm_compute. reflexivity. Qed.

(** Equal created_at: the specification names no winner; the model keeps
    the Booking that is already confirmed, whichever arrived first. *)
Example tie_keeps_incumbent :
  let A' := Reservation.mk "booking.com" "BK-1" "deluxe" 19875 19877 2 2000 in
  let e_ab := (receive_confirmation (receive_confirmation Scenario.e0 A').2 Scenario.B).2 in
  let e_ba := (receive_confirmation (receive_confirmation Scenario.e0 Scenario.B).2 A').2 in
  (Booking.status <$> bookings e_ab !! key_of A',
   Booking.status <$> bookings e_ab !! key_of Scenario.B,
   Booking.status <$> bookings e_ba !! key_of A',
   Booking.status <$> bookings e_ba !! key_of Scenario.B)
  = (Some confirmed, Some conflict, Some conflict, Some confirmed).
Proof. vm_compute. reflexivity. Qed.

(** A stale write after a fresh one. *)
Example stale_write_fails :
  let m := Mutation.mk ("deluxe", 19875) 7 150 true manual in
  let '(r1, l1) := Ledger.apply (Ledger.mk [] ∅) m None in
  let '(r2, l2) := Ledger.apply l1 m None in
  let '(r3, l3) := Ledger.apply l2 m (Some 1) in
  (r1, r2, r3, Ledger.stored_version l3 ("deluxe", 19875))
  = (Ledger.new_version 1, Ledger.fails VersionConflict, Ledger.new_version 2, Some 2).
Proof. vm_compute. reflexivity. Qed.

(** An airbnb feed that holds B, then the same feed again, then an empty one. *)
Example ingest_twice :
  let e1 := ingest_ical Scenario.e0 "airbnb" [Scenario.B] in
  let e2 := ingest_ical e1 "airbnb" [Scenario.B] in
  let e3 := ingest_ical e2 "airbnb" [] in
  (Booking.status <$> bookings e1 !! key_of Scenario.B,
   Booking.status <$> bookings e2 !! key_of Scenario.B,
   Booking.status <$> bookings e3 !! key_of Scenario.B,
   length (Ledger.change_log (ledger e1)),
   length (Ledger.change_log (ledger e2)),
   length (Ledger.change_log (ledger e3)))
  = (Some confirmed, Some confirmed, Some cancelled, 2%nat, 2%nat, 4%nat).
Proof. vm_compute. reflexivity. Qed.

(** Five failures open the circuit at time 7; cycles at 100 and 306 send
    nothing, the cycle at 307 sends the probe, the one at 400 nothing. *)
Example circuit_opens_and_probes :
  let '(ds, c) :=
    run Scenario.cfg
      (Scenario.four_failures
         ++ [Result 7 None false; Tick 100; Tick 306; Tick 307; Tick 400])
      Scenario.expedia in
  (drop 8 ds, ChannelAdapterState.circuit_state (adapter c),
   ChannelAdapterState.consecutive_failure_count (adapter c))
  = ([idle; idle; probe (Some Scenario.task); idle], half_open, 5%nat).
Proof. vm_compute. reflexivity. Qed.

(** *** Witnesses *)

Lemma cancelling_cancelled_is_noop_witness :
  bookings Scenario.e_cancelled !! ("booking.com", "BK-1")
  = Some (booking_of Scenario.A 1 cancelled) ∧
  (Booking.status (booking_of Scenario.A 1 cancelled) = cancelled ->
   receive_cancellation Scenario.e_cancelled "booking.com" "BK-1"
   = (APPLIED (current_versions (ledger Scenario.e_cancelled) "deluxe" 19875 19877),
      Scenario.e_cancelled)) ∧
  ∀ n,
    Nat.iter n (fun s => (receive_cancellation s "booking.com" "BK-1").2)
      (receive_cancellation Scenario.e_cancelled "booking.com" "BK-1").2
    = (receive_cancellation Scenario.e_cancelled "booking.com" "BK-1").2 ∧
    receive_cancellation
      (Nat.iter n (fun s => (receive_cancellation s "booking.com" "BK-1").2)
         (receive_cancellation Scenario.e_cancelled "booking.com" "BK-1").2)
      "booking.com" "BK-1"
    = (APPLIED
         (current_versions
            (ledger (receive_cancellation Scenario.e_cancelled "booking.com" "BK-1").2)
            "deluxe" 19875 19877),
       (receive_cancellation Scenario.e_cancelled "booking.com" "BK-1").2).
Proof.
  assert (Hl : bookings Scenario.e_cancelled !! ("booking.com", "BK-1")
               = Some (booking_of Scenario.A 1 cancelled)) by (vm_compute; reflexivity).
  split; [exact Hl|].
  exact (cancelling_cancelled_is_noop Scenario.e_cancelled "booking.com" "BK-1"
           (booking_of Scenario.A 1 cancelled) Hl).
Defined.

Lemma earliest_created_at_wins_witness :
  capacity Scenario.e_C !! Reservation.room_type_id Scenario.A = Some 10 ∧
  Reservation.channel_id Scenario.A ≠ Reservation.channel_id Scenario.B ∧
  Reservation.room_type_id Scenario.B = Reservation.room_type_id Scenario.A ∧
  Reservation.check_in Scenario.A < Reservation.check_out Scenario.B ∧
  Reservation.check_in Scenario.B < Reservation.check_out Scenario.A ∧
  10 < Z.of_N (Reservation.units Scenario.A) + Z.of_N (Reservation.units Scenario.B) ∧
  bookings Scenario.e_C !! key_of Scenario.A = None ∧
  bookings Scenario.e_C !! key_of Scenario.B = None ∧
  Booking.status <$> bookings (receive_confirmation Scenario.e_C Scenario.A).2
                       !! key_of Scenario.A = Some confirmed ∧
  valid Scenario.e_C Scenario.B = true ∧
  Reservation.created_at Scenario.A < Reservation.created_at Scenario.B ∧
  Booking.status <$> bookings Scenario.e_C !! key_of Scenario.C = Some confirmed ∧
  (receive_confirmation (receive_confirmation Scenario.e_C Scenario.A).2 Scenario.B).1
  = CONFLICT_QUEUED ∧
  Booking.status
    <$> bookings (receive_confirmation (receive_confirmation Scenario.e_C Scenario.A).2
                    Scenario.B).2 !! key_of Scenario.A = Some confirmed ∧
  Booking.status
    <$> bookings (receive_confirmation (receive_confirmation Scenario.e_C Scenario.A).2
                    Scenario.B).2 !! key_of Scenario.B = Some conflict ∧
  (∃ versions,
     (receive_confirmation (receive_confirmation Scenario.e_C Scenario.B).2 Scenario.A).1
     = APPLIED versions) ∧
  Booking.status
    <$> bookings (receive_confirmation (receive_confirmation Scenario.e_C Scenario.B).2
                    Scenario.A).2 !! key_of Scenario.A = Some confirmed ∧
  Booking.status
    <$> bookings (receive_confirmation (receive_confirmation Scenario.e_C Scenario.B).2
                    Scenario.A).2 !! key_of Scenario.B = Some conflict.
Proof.
  assert (Hcap : capacity Scenario.e_C !! Reservation.room_type_id Scenario.A = Some 10)
    by (vm_compute; reflexivity).
  assert (Hch : Reservation.channel_id Scenario.A ≠ Reservation.channel_id Scenario.B)
    by discriminate.
  assert (Hka : bookings Scenario.e_C !! key_of Scenario.A = None)
    by (vm_compute; reflexivity).
  assert (Hkb : bookings Scenario.e_C !! key_of Scenario.B = None)
    by (vm_compute; reflexivity).
  assert (Hconf : Booking.status <$> bookings (receive_confirmation Scenario.e_C Scenario.A).2
                                       !! key_of Scenario.A = Some confirmed)
    by (vm_compute; reflexivity).
  assert (Hvb : valid Scenario.e_C Scenario.B = true) by (vm_compute; reflexivity).
  split; [exact Hcap|]. split; [exact Hch|].
  do 4 (split; [vm_compute; reflexivity|]).
  split; [exact Hka|]. split; [exact Hkb|]. split; [exact Hconf|]. split; [exact Hvb|].
  do 2 (split; [vm_compute; reflexivity|]).
  exact (earliest_created_at_wins Scenario.e_C Scenario.A Scenario.B 10
           Hcap Hch eq_refl eq_refl eq_refl eq_refl Hka Hkb Hconf Hvb eq_refl).
Defined.

Lemma circuit_breaker_witness :
  failure_threshold Scenario.cfg = 5%nat ∧
  ChannelAdapterState.circuit_state (adapter Scenario.expedia) = closed ∧
  ChannelAdapterState.consecutive_failure_count (adapter Scenario.expedia) = 0%nat ∧
  forallb (fun ev => negb (is_success ev)) Scenario.four_failures = true ∧
  length (filter (fun ev => is_failure ev = true) Scenario.four_failures) = 4%nat ∧
  ChannelAdapterState.circuit_state
    (adapter (run Scenario.cfg Scenario.four_failures Scenario.expedia).2) = closed ∧
  ChannelAdapterState.circuit_state
    (adapter (run Scenario.cfg (Scenario.four_failures ++ [Result 7 None false])
                Scenario.expedia).2) = open ∧
  ChannelAdapterState.opened_at
    (adapter (run Scenario.cfg (Scenario.four_failures ++ [Result 7 None false])
                Scenario.expedia).2) = 7 ∧
  (∀ ticks,
     Forall (fun now => now < 7 + cool_down Scenario.cfg) ticks ->
     run Scenario.cfg (Tick <$> ticks)
       (run Scenario.cfg (Scenario.four_failures ++ [Result 7 None false])
          Scenario.expedia).2
     = (replicate (length ticks) idle,
        (run Scenario.cfg (Scenario.four_failures ++ [Result 7 None false])
           Scenario.expedia).2)) ∧
  (∀ before now after,
     Forall (fun now' => now' < 7 + cool_down Scenario.cfg) before ->
     7 + cool_down Scenario.cfg <= now ->
     ∃ c',
       run Scenario.cfg (Tick <$> (before ++ now :: after))
         (run Scenario.cfg (Scenario.four_failures ++ [Result 7 None false])
            Scenario.expedia).2
       = (replicate (length before) idle
            ++ probe (head (pending
                 (run Scenario.cfg (Scenario.four_failures ++ [Result 7 None false])
                    Scenario.expedia).2))
               :: replicate (length after) idle, c') ∧
       ChannelAdapterState.circuit_state (adapter c') = half_open).
Proof.
  do 5 (split; [reflexivity|]).
  exact (circuit_breaker Scenario.cfg Scenario.expedia Scenario.four_failures 7 None
           eq_refl eq_refl eq_refl eq_refl eq_refl).
Defined.

End CoreFacts.

(** ** More of the dashboard *)
Module CoverageFacts.
Import Dashboard DashboardFacts Coverage.

Lemma foldl_ext_in {A B} (f g : B -> A -> B) (l : list A) : ∀ b,
  (∀ b' a, a ∈ l -> f b' a = g b' a) -> foldl f b l = foldl g b l.
Proof.
  induction l as [|a l IH]; intros b H; [done|]. cbn.
  rewrite (H b a) by (by left). apply IH. intros b' a' Ha'. apply H. by right.
Qed.

(** The ranges of a cell built from two doubles in [0, 1). *)
Lemma mock_cell_ranges draw n dateStr :
  Float64.in_unit_interval (draw n) = true ->
  Float64.in_unit_interval (draw (S n)) = true ->
  let cell := mock_cell draw n dateStr in
  0 <= DailyStats.inventory cell <= 10 ∧
  100 <= DailyStats.rate cell <= 149 ∧
  DailyStats.isSoldOut cell = (DailyStats.inventory cell =? 0).
Proof.
  intros Hn HSn. cbn.
  pose proof (Float64Facts.mul_literal_lt (draw n) 11 3 Hn ltac:(lia) ltac:(lia)) as [Hi0 Hi1].
  pose proof (Float64Facts.mul_literal_lt (draw (S n)) 50 5 HSn ltac:(lia) ltac:(lia))
    as [Hr0 Hr1].
  assert (Hone : 0 < Float64.one) by reflexivity.
  unfold Float64.floor.
  pose proof (Z.div_pos _ _ Hi0 Hone). pose proof (Z.div_pos _ _ Hr0 Hone).
  assert (Float64.mul_literal (draw n) 11 / Float64.one < 11)
    by (apply Z.div_lt_upper_bound; lia).
  assert (Float64.mul_literal (draw (S n)) 50 / Float64.one < 50)
    by (apply Z.div_lt_upper_bound; lia).
  split; [lia|]. split; [lia|done].
Qed.

Lemma mapM_Forall2 {A B} (P : A -> B -> Prop) (f : A -> M B) l w :
  (∀ a, a ∈ l -> ∃ b, f a w = (Ok b, w) ∧ P a b) ->
  ∃ bs, mapM f l w = (Ok bs, w) ∧ Forall2 P l bs.
Proof.
  induction l as [|a l IH]; intros Hf; cbn [mapM].
  - exists []. by split.
  - destruct (Hf a) as (b & Hb & HP); [by left|].
    destruct IH as (bs & Hbs & HF); [intros a' Ha'; apply Hf; by right|].
    exists (b :: bs). split; [|by constructor].
    eapply bind_ok; [exact Hb|]. eapply bind_ok; [exact Hbs|]. done.
Qed.

Lemma Forall2_flat_map {A B C} (f : A -> list C) (g : B -> list C) l k :
  Forall2 (fun a b => g b = f a) l k -> flat_map g k = flat_map f l.
Proof. induction 1 as [|a b l k H _ IH]; cbn; [done|]. by rewrite H, IH. Qed.

Lemma Forall2_sum_zero {A B} (g : B -> nat) (l : list A) k :
  Forall2 (fun _ b => g b = 0%nat) l k -> foldr Nat.add 0%nat (map g k) = 0%nat.
Proof. induction 1 as [|a b l k H _ IH]; cbn; [done|]. by rewrite H, IH. Qed.

(** No listener touches what the grid is generated from. *)
Lemma fire_keeps_inputs {A} (h : Handler A) : ∀ (a : A) w,
  random_stream (fire h a w).2 = random_stream w ∧
  random_used (fire h a w).2 = random_used w ∧
  now (fire h a w).2 = now w.
Proof.
  induction h as [| | | | | |cb IH]; intros a w; try done.
  cbn [fire]. unfold handleUpdate.
  destruct (IH false (console_log "Updating" (drawer w) w).2) as (Hs & Hu & Hn).
  unfold mbind, M_bind. cbn. done.
Qed.

Lemma Node_children_ind (P : Node -> Prop) :
  (∀ tag attrs children, Forall P children -> P (El tag attrs children)) ->
  (∀ s, P (Txt s)) -> (∀ z, P (Num z)) -> ∀ n, P n.
Proof.
  intros HEl HTxt HNum. fix IH 1. intros [tag attrs children|s|z]; [|apply HTxt|apply HNum].
  apply HEl. induction children as [|c cs IHcs]; constructor; [apply IH|exact IHcs].
Qed.

Lemma listeners_length n : length (listeners n) = listener_count n.
Proof.
  induction n as [tag attrs children IH| |] using Node_children_ind; [|done..].
  cbn [listeners listener_count]. rewrite length_app. f_equal.
  - induction attrs as [|a attrs IHa]; [done|].
    cbn [flat_map]. rewrite length_app, IHa.
    destruct a; cbn [attr_listeners length Nat.add].
    all: rewrite filter_cons; destruct (decide _) as [H|H]; cbn in H; done.
  - induction IH as [|c cs Hc _ IHcs]; [done|].
    cbn [flat_map map foldr]. by rewrite length_app, Hc, IHcs.
Qed.

Lemma listeners_none n : listener_count n = 0%nat -> listeners n = [].
Proof. intros H. apply length_zero_iff_nil. by rewrite listeners_length. Qed.

Lemma last_omap_cons {A B} (pick : A -> option B) a l init :
  default init (last (omap pick (a :: l)))
  = default (default init (pick a)) (last (omap pick l)).
Proof.
  cbn [omap list_omap]. destruct (pick a) as [b|]; cbn [default from_option]; [|done].
  rewrite last_cons. by destruct (last _).
Qed.

Lemma last_edit_cons {A} (pick : FormEdit -> option A) e es init :
  last_edit pick (e :: es) init = last_edit pick es (default init (pick e)).
Proof. apply last_omap_cons. Qed.

Lemma edited_cons e es f : edited (e :: es) f = edited es (edited [e] f).
Proof. unfold edited. rewrite !last_edit_cons. by destruct e. Qed.

Lemma edited_nil f : edited [] f = f.
Proof. by destruct f. Qed.

Lemma fire_edit_run e w :
  fire_edit e w
  = (Ok tt, mkWorld (random_stream w) (random_used w) (now w) (console w)
              (requests w) (storage w) (isDrawerOpen w) (edited [e] (drawer w))).
Proof. by destruct e. Qed.

Lemma session_cons a acts w :
  session (a :: acts) w = session acts (act a w).2.
Proof.
  cbn [session]. unfold mbind, M_bind.
  assert (H : (act a w).1 = Ok tt) by (by destruct a as [[]| | |]).
  by destruct (act a w) as [[[]|] w1].
Qed.

Lemma act_run a w :
  act a w
  = (Ok tt,
     mkWorld (random_stream w) (random_used w) (now w)
       (console w ++ (if is_apply a then [mkLog "Updating" (drawer w)] else []))
       (requests w) (storage w)
       (default (isDrawerOpen w) (opening a))
       (edited (option_list (edit_of a)) (drawer w))).
Proof.
  destruct a as [e| |b|]; cbn [act is_apply]; rewrite ?app_nil_r, ?edited_nil;
    [apply fire_edit_run|done..].
Qed.

Lemma session_run acts : ∀ w,
  ∃ entries,
    session acts w
    = (Ok tt, mkWorld (random_stream w) (random_used w) (now w) (console w ++ entries)
                (requests w) (storage w) (open_after acts (isDrawerOpen w))
                (edited (edits_of acts) (drawer w))) ∧
    length entries = applies acts.
Proof.
  induction acts as [|a acts IH]; intros w.
  { exists []. rewrite app_nil_r, edited_nil. by destruct w. }
  rewrite session_cons, act_run. cbn [snd].
  destruct (IH (mkWorld (random_stream w) (random_used w) (now w)
                  (console w ++ (if is_apply a then [mkLog "Updating" (drawer w)] else []))
                  (requests w) (storage w)
                  (default (isDrawerOpen w) (opening a))
                  (edited (option_list (edit_of a)) (drawer w))))
    as (entries & -> & Hlen).
  cbn [random_stream random_used now console requests storage isDrawerOpen drawer].
  exists ((if is_apply a then [mkLog "Updating" (drawer w)] else []) ++ entries).
  unfold open_after, edits_of, applies in *. rewrite last_omap_cons, filter_cons.
  rewrite length_app, Hlen, <- app_assoc. split.
  - do 2 f_equal. destruct a as [e| |b|]; cbn [edit_of option_list omap list_omap];
      rewrite ?edited_nil; [|done..].
    symmetry. apply edited_cons.
  - by destruct a; destruct (decide _).
Qed.

Lemma session_app pre post w :
  session (pre ++ post) w = session post (session pre w).2.
Proof.
  revert w. induction pre as [|a pre IH]; intros w; [done|].
  cbn [app]. by rewrite !session_cons, IH.
Qed.

(** X8. The form outlives the drawer.  Whatever a user does, in any order,
    each field of the form ends up holding what its last edit wrote, or its
    value from before when it was not edited: closing the drawer, by Cancel
    or by Apply Changes, resets nothing.  The drawer is open or closed as the
    last click that opens or closes it left it; the console only grows, by
    one entry per click on Apply Changes; the draws, the clock, the network
    history and the storage are as before. *)
Theorem form_outlives_the_drawer (acts : list UserAction) (w : World) :
  ∃ entries,
    session acts w
    = (Ok tt,
       mkWorld (random_stream w) (random_used w) (now w) (console w ++ entries)
         (requests w) (storage w)
         (open_after acts (isDrawerOpen w))
         (Form.mk
            (last_edit picked_date (edits_of acts) (Form.date (drawer w)))
            (last_edit selected_roomType (edits_of acts) (Form.roomType (drawer w)))
            (last_edit typed_rate (edits_of acts) (Form.rate (drawer w)))
            (last_edit toggled_open (edits_of acts) (Form.isOpen (drawer w))))) ∧
    length entries = applies acts.
Proof. exact (session_run acts w). Qed.

(** X9. Apply Changes logs the form as edited so far.  In any session, a
    click on Apply Changes appends to the console the one entry "Updating"
    with the form as the edits before the click left it; the entries before
    it are those of the earlier clicks on Apply Changes and the entries
    after it those of the later ones, so nothing else ever writes to the
    console and no entry is rewritten. *)
Theorem apply_logs_the_form_as_edited (before after : list UserAction) (w : World) :
  ∃ earlier later,
    console (session (before ++ ClickApply :: after) w).2
    = console w ++ earlier
      ++ mkLog "Updating" (edited (edits_of before) (drawer w)) :: later ∧
    length earlier = applies before ∧
    length later = applies after.
Proof.
  rewrite session_app, session_cons.
  destruct (session_run before w) as (earlier & -> & Hb). cbn [snd].
  rewrite act_run. cbn [snd is_apply console drawer].
  match goal with |- context [session after ?w1] =>
    destruct (session_run after w1) as (later & -> & Ha) end.
  exists earlier, later. split; [|done]. cbn [snd console]. by rewrite <- !app_assoc.
Qed.

Section Generation.
Context (addDays : Z -> Z -> Z) (format : Z -> string -> string).

Local Abbreviation key := (date_key addDays format).
Local Abbreviation fill := (fill_days addDays format).

(** *** generateMockData as a fold *)

Lemma fill_days_S draw start u i0 count (row : Row) :
  fill draw start u i0 (S count) row
  = <[key start (i0 + count)%nat := mock_cell draw (u + 2 * count) (key start (i0 + count)%nat)]>
      (fill draw start u i0 count row).
Proof.
  unfold fill_days. rewrite seq_S, foldl_app. cbn [foldl].
  by replace (i0 + count - i0)%nat with count by lia.
Qed.

Lemma fill_days_cons draw start u i0 count (row : Row) :
  fill draw start u i0 (S count) row
  = fill draw start (2 + u) (S i0) count
      (<[key start i0 := mock_cell draw u (key start i0)]> row).
Proof.
  unfold fill_days. cbn [seq foldl].
  replace (u + 2 * (i0 - i0))%nat with u by lia.
  apply foldl_ext_in. intros row' i Hi%list_elem_of_In%in_seq.
  by replace (u + 2 * (i - i0))%nat with (2 + u + 2 * (i - S i0))%nat by lia.
Qed.

Lemma set_cell_insert (data : Grid) rid d cell (row : Row) :
  data !! rid = Some row ->
  set_cell rid d cell data = <[rid := <[d := cell]> row]> data.
Proof.
  intros Hl. unfold set_cell. apply map_eq. intros k.
  destruct (decide (k = rid)) as [->|Hne].
  - by rewrite lookup_alter_eq, lookup_insert_eq, Hl.
  - by rewrite lookup_alter_ne, lookup_insert_ne.
Qed.

(** The loop leaves, in the row of its room, the fold of its inserts. *)
Lemma generate_days_fill start rid count : ∀ i (data : Grid) w (row : Row),
  data !! rid = Some row ->
  generate_days addDays format start rid i count data w
  = (Ok (<[rid := fill (random_stream w) start (random_used w) i count row]> data),
     advance (2 * count) w).
Proof.
  induction count as [|count IH]; intros i data w row Hl.
  - cbn [generate_days]. rewrite advance_0. unfold fill_days. cbn.
    by rewrite insert_id.
  - cbn [generate_days].
    eapply bind_ok; [apply Math_random_run|].
    eapply bind_ok; [apply Math_random_run|].
    rewrite advance_advance. cbn [Nat.add].
    rewrite (set_cell_insert _ _ _ _ row Hl).
    rewrite (IH (S i) _ (advance 2 w) _ (lookup_insert_eq _ _ _)).
    rewrite insert_insert_eq, advance_advance.
    rewrite fill_days_cons. cbn [advance random_stream random_used].
    do 2 f_equal. f_equal. lia.
Qed.

Lemma generate_room_fill start days room (data : Grid) w :
  generate_room addDays format start days room data w
  = (Ok (<[RoomType.id room := fill (random_stream w) start (random_used w) 0 days ∅]> data),
     advance (2 * days) w).
Proof.
  unfold generate_room.
  rewrite (generate_days_fill _ _ _ _ _ _ ∅ (lookup_insert_eq _ _ _)).
  by rewrite insert_insert_eq.
Qed.

Lemma forEach_rooms_fill start days rooms : ∀ (data : Grid) w,
  forEach rooms (generate_room addDays format start days) data w
  = (Ok (fill_rooms addDays format (random_stream w) start days (random_used w) rooms data),
     advance (2 * days * length rooms) w).
Proof.
  induction rooms as [|room rooms IH]; intros data w.
  - cbn. by rewrite Nat.mul_0_r, advance_0.
  - cbn [forEach fill_rooms length].
    eapply bind_ok; [apply generate_room_fill|].
    rewrite IH, advance_advance. cbn [advance random_stream random_used].
    f_equal; [do 2 f_equal; lia|f_equal; lia].
Qed.

Lemma generateMockData_fill start days w :
  generateMockData addDays format start days w
  = (Ok (fill_rooms addDays format (random_stream w) start days (random_used w) ROOM_TYPES ∅),
     advance (8 * days) w).
Proof.
  unfold generateMockData. rewrite forEach_rooms_fill. do 2 f_equal. cbn. lia.
Qed.


(** What a row holds after the fold: what it held, or a cell the fold
    stored under the key of one of its days. *)
Lemma fill_days_lookup draw start u i0 count (row : Row) d c :
  fill draw start u i0 count row !! d = Some c ->
  row !! d = Some c ∨
  ∃ k, (i0 <= k < i0 + count)%nat ∧ d = key start k
       ∧ c = mock_cell draw (u + 2 * (k - i0)) d.
Proof.
  induction count as [|count IH].
  - unfold fill_days. cbn. by left.
  - rewrite fill_days_S, lookup_insert. case_decide as Hd.
    + intros [= <-]. right. exists (i0 + count)%nat. split; [lia|]. split; [done|].
      rewrite <- Hd. f_equal. lia.
    + intros [Hl|(k & Hk & -> & ->)]%IH; [by left|]. right. exists k.
      split; [lia|done].
Qed.

Lemma fill_days_dom draw start u i0 count (row : Row) d :
  is_Some (fill draw start u i0 count row !! d)
  ↔ is_Some (row !! d) ∨ ∃ k, (i0 <= k < i0 + count)%nat ∧ d = key start k.
Proof.
  induction count as [|count IH].
  - unfold fill_days. cbn. split; [by left|]. intros [H|(k & Hk & _)]; [done|lia].
  - rewrite fill_days_S, lookup_insert. case_decide as Hd.
    + split; [|by eauto]. intros _. right. exists (i0 + count)%nat. split; [lia|done].
    + rewrite IH. split.
      * intros [H|(k & Hk & ->)]; [by left|]. right. exists k. split; [lia|done].
      * intros [H|(k & Hk & ->)]; [by left|]. right. exists k. split; [|done].
        destruct (decide (k = i0 + count)%nat) as [->|Hne]; [done|lia].
Qed.

(** With distinct keys, day [k] holds the cell of its own two draws. *)
Lemma fill_days_lookup_day draw start u i0 count (row : Row) k :
  NoDup (key start <$> seq i0 count) ->
  (i0 <= k < i0 + count)%nat ->
  fill draw start u i0 count row !! key start k
  = Some (mock_cell draw (u + 2 * (k - i0)) (key start k)).
Proof.
  induction count as [|count IH]; intros Hnd Hk; [lia|].
  rewrite seq_S, fmap_app in Hnd. apply NoDup_app in Hnd as (Hnd & Hnot & _).
  rewrite fill_days_S. destruct (decide (k = i0 + count)%nat) as [->|Hne].
  - rewrite lookup_insert_eq. do 2 f_equal. lia.
  - rewrite lookup_insert_ne; [apply IH; [done|lia]|].
    intros Heq. apply (Hnot (key start k)); [|rewrite <- Heq; by left].
    apply list_elem_of_fmap. exists k. split; [done|].
    apply list_elem_of_In, in_seq. lia.
Qed.

Local Abbreviation fillr := (fill_rooms addDays format).

Lemma fill_rooms_lookup draw start days rooms : ∀ u (data : Grid) rid (row : Row),
  fillr draw start days u rooms data !! rid = Some row ->
  data !! rid = Some row ∨
  ∃ r room, rooms !! r = Some room ∧ rid = RoomType.id room
            ∧ row = fill draw start (u + 2 * days * r) 0 days ∅.
Proof.
  induction rooms as [|room rooms IH]; intros u data rid row Hl; cbn in Hl; [by left|].
  apply IH in Hl as [Hl|(r & room' & Hr & -> & ->)].
  - rewrite lookup_insert in Hl. case_decide as Hd; [|by left].
    injection Hl as <-. right. exists 0%nat, room. split; [done|]. split; [done|].
    f_equal. lia.
  - right. exists (S r), room'. split; [done|]. split; [done|]. f_equal. lia.
Qed.

Lemma fill_rooms_dom draw start days rooms : ∀ u (data : Grid) rid,
  is_Some (fillr draw start days u rooms data !! rid)
  ↔ is_Some (data !! rid) ∨ ∃ room, room ∈ rooms ∧ rid = RoomType.id room.
Proof.
  induction rooms as [|room rooms IH]; intros u data rid; cbn [fill_rooms].
  - split; [by left|]. intros [H|(room & Hin & _)]; [done|inversion Hin].
  - rewrite IH, lookup_insert. case_decide as Hd.
    + split; [|by eauto]. intros _. right. exists room. split; [by left|done].
    + split.
      * intros [H|(room' & Hin & ->)]; [by left|]. right. exists room'. split; [by right|done].
      * intros [H|(room' & [->|Hin]%elem_of_cons & ->)]; [by left|done|].
        right. by exists room'.
Qed.

Lemma fill_rooms_lookup_other draw start days rooms : ∀ u (data : Grid) rid,
  rid ∉ RoomType.id <$> rooms ->
  fillr draw start days u rooms data !! rid = data !! rid.
Proof.
  induction rooms as [|room rooms IH]; intros u data rid Hnot; cbn; [done|].
  rewrite fmap_cons, not_elem_of_cons in Hnot. destruct Hnot as [Hne Hnot].
  rewrite IH by done. by rewrite lookup_insert_ne.
Qed.

(** With distinct ids, the room at position [r] holds the row of its own
    [2 * days] draws. *)
Lemma fill_rooms_lookup_room draw start days rooms : ∀ u (data : Grid) r room,
  NoDup (RoomType.id <$> rooms) ->
  rooms !! r = Some room ->
  fillr draw start days u rooms data !! RoomType.id room
  = Some (fill draw start (u + 2 * days * r) 0 days ∅).
Proof.
  induction rooms as [|room0 rooms IH]; intros u data r room Hnd Hr; [done|].
  rewrite fmap_cons in Hnd. apply NoDup_cons in Hnd as [Hnot Hnd]. cbn [fill_rooms].
  destruct r as [|r]; cbn in Hr.
  - injection Hr as ->. rewrite fill_rooms_lookup_other by done.
    rewrite lookup_insert_eq. do 2 f_equal. lia.
  - rewrite (IH _ _ r room) by done. do 2 f_equal. lia.
Qed.

Lemma ROOM_TYPES_ids_distinct : NoDup (RoomType.id <$> ROOM_TYPES).
Proof. apply (bool_decide_unpack _). by vm_compute. Qed.

(** X1. The grid [generateMockData] returns holds exactly the ids of
    ROOM_TYPES; each of its rows holds exactly the date strings of the days
    0 .. days-1 (no key at all for zero days); every cell records as its
    [date] the key it is stored under; and the call consumes eight draws
    per day and changes nothing else in the environment. *)
Theorem generateMockData_keys (startDate : Z) (days : nat) (w : World) :
  ∃ data : Grid,
    generateMockData addDays format startDate days w = (Ok data, advance (8 * days) w) ∧
    (∀ roomId,
       is_Some (data !! roomId)
       ↔ ∃ room, room ∈ ROOM_TYPES ∧ roomId = RoomType.id room) ∧
    (∀ roomId (row : Row) dateStr,
       data !! roomId = Some row ->
       (is_Some (row !! dateStr) ↔ ∃ i, (i < days)%nat ∧ dateStr = key startDate i)) ∧
    (∀ roomId (row : Row) dateStr cell,
       data !! roomId = Some row -> row !! dateStr = Some cell ->
       DailyStats.date cell = dateStr).
Proof.
  eexists. split; [apply generateMockData_fill|]. split; [|split].
  - intros roomId. rewrite fill_rooms_dom, lookup_empty. split.
    + intros [[? [=]]|H]; done.
    + by right.
  - intros roomId row dateStr [Hl|(r & room & _ & _ & ->)]%fill_rooms_lookup;
      [by rewrite lookup_empty in Hl|].
    rewrite fill_days_dom, lookup_empty. split.
    + intros [[? [=]]|(k & Hk & ->)]. exists k. split; [lia|done].
    + intros (i & Hi & ->). right. exists i. split; [lia|done].
  - intros roomId row dateStr cell [Hl|(r & room & _ & _ & ->)]%fill_rooms_lookup Hc;
      [by rewrite lookup_empty in Hl|].
    apply fill_days_lookup in Hc as [Hc|(k & _ & _ & ->)]; [by rewrite lookup_empty in Hc|done].
Qed.

(** X2. The order in which [generateMockData] consumes [Math.random]: when
    the days have distinct date strings, the cell of the room at position r
    of ROOM_TYPES for day i is built from the draws number 2(r*days + i)
    (inventory) and 2(r*days + i) + 1 (rate) after the call starts: room by
    room, day by day, inventory before rate. *)
Theorem generateMockData_draw_order (startDate : Z) (days : nat) (w : World) :
  NoDup (key startDate <$> seq 0 days) ->
  ∃ data : Grid,
    generateMockData addDays format startDate days w = (Ok data, advance (8 * days) w) ∧
    ∀ r room i,
      ROOM_TYPES !! r = Some room -> (i < days)%nat ->
      ∃ row : Row,
        data !! RoomType.id room = Some row ∧
        row !! key startDate i
        = Some (DailyStats.mk (key startDate i)
                  (Float64.floor
                     (Float64.mul_literal
                        (random_stream w (random_used w + 2 * (r * days + i))) 11))
                  (100 + Float64.floor
                           (Float64.mul_literal
                              (random_stream w (S (random_used w + 2 * (r * days + i)))) 50))
                  (Float64.floor
                     (Float64.mul_literal
                        (random_stream w (random_used w + 2 * (r * days + i))) 11) =? 0)).
Proof.
  intros Hnd. eexists. split; [apply generateMockData_fill|].
  intros r room i Hr Hi. eexists. split.
  - by apply fill_rooms_lookup_room; [apply ROOM_TYPES_ids_distinct|].
  - rewrite fill_days_lookup_day by (done || lia). unfold mock_cell.
    replace (random_used w + 2 * days * r + 2 * (i - 0))%nat
      with (random_used w + 2 * (r * days + i))%nat by lia.
    done.
Qed.


(** X3. On the grid [generateMockData] returns, the three colours of
    [getCellColor] split the cells by inventory: red exactly for the sold-out
    cells (inventory 0, flag set, shown as SOLD), amber for 1 to 5, green
    for 6 to 10; the flag and the inventory test of the red branch never
    disagree.  [Math.random] is assumed to return doubles in [0, 1). *)
Theorem generated_cells_colours (startDate : Z) (days : nat) (w : World) :
  (∀ n, (random_used w <= n)%nat ->
        Float64.in_unit_interval (random_stream w n) = true) ->
  ∃ data w',
    generateMockData addDays format startDate days w = (Ok data, w') ∧
    ∀ roomId (row : Row) dateStr cell,
      data !! roomId = Some row -> row !! dateStr = Some cell ->
      let inventory := DailyStats.inventory cell in
      let isSoldOut := DailyStats.isSoldOut cell in
      (inventory = 0 ∧ isSoldOut = true ∧
       getCellColor inventory isSoldOut = "bg-red-50 text-red-900" ∧
       head (cell_texts cell) = Some "SOLD") ∨
      (1 <= inventory <= 5 ∧ isSoldOut = false ∧
       getCellColor inventory isSoldOut = "bg-amber-50 text-amber-900" ∧
       head (cell_texts cell) = Some (pretty inventory)) ∨
      (6 <= inventory <= 10 ∧ isSoldOut = false ∧
       getCellColor inventory isSoldOut = "bg-emerald-50 text-emerald-900" ∧
       head (cell_texts cell) = Some (pretty inventory)).
Proof.
  intros Hrandom. eexists _, _. split; [apply generateMockData_fill|].
  intros roomId row dateStr cell [Hl|(r & room & _ & _ & ->)]%fill_rooms_lookup Hc;
    [by rewrite lookup_empty in Hl|].
  apply fill_days_lookup in Hc as [Hc|(k & _ & _ & ->)]; [by rewrite lookup_empty in Hc|].
  destruct (mock_cell_ranges (random_stream w)
              (random_used w + 2 * days * r + 2 * (k - 0)) dateStr) as (Hi & _ & Hs);
    [apply Hrandom; lia|apply Hrandom; lia|].
  cbv zeta. unfold cell_texts, getCellColor. rewrite Hs.
  destruct (Z.eqb_spec (DailyStats.inventory
              (mock_cell (random_stream w) (random_used w + 2 * days * r + 2 * (k - 0))
                 dateStr)) 0) as [H0|H0].
  - left. by rewrite H0.
  - cbn [orb head]. destruct (Z.leb_spec (DailyStats.inventory
              (mock_cell (random_stream w) (random_used w + 2 * days * r + 2 * (k - 0))
                 dateStr)) 5) as [H5|H5].
    + right; left. repeat split; try done; lia.
    + right; right. repeat split; try done; lia.
Qed.

End Generation.

Section Rendering.
Context (addDays : Z -> Z -> Z) (format : Z -> string -> string)
        (startOfDay : Z -> Z) (Date_toString : Z -> string)
        (cn : list (option string) -> string).

Local Abbreviation key := (date_key addDays format).
Local Abbreviation headers today := (Array_from_map 30 (fun i => addDays today i)).

(** X4. A data cell renders exactly when the grid holds a cell for the
    room and the date: then the node shows the inventory (or SOLD) and the
    rate of that cell and carries no listener; when the room or the date is
    missing the render throws a TypeError.  Either way the environment is
    left as it was. *)
Theorem data_cell_defined_iff (g : Grid) (room : RoomType.t) (date : Z) (w : World) :
  match grid_cell format g room date with
  | Some cell =>
      ∃ node, data_cell format cn g room date w = (Ok node, w) ∧
              texts node = cell_texts cell ∧ listener_count node = 0%nat
  | None => ∃ msg, data_cell format cn g room date w = (Throw (TypeError msg), w)
  end.
Proof.
  unfold grid_cell, data_cell, get_cell.
  destruct (g !! RoomType.id room) as [row|]; cbn [mbind option_bind]; [|by eexists].
  destruct (row !! format date "yyyy-MM-dd") as [cell|]; [|by eexists].
  eexists. split; [reflexivity|]. unfold cell_texts.
  by destruct (DailyStats.isSoldOut cell).
Qed.




Lemma data_cell_node (g : Grid) room date (row : Row) cell w :
  g !! RoomType.id room = Some row ->
  row !! format date "yyyy-MM-dd" = Some cell ->
  ∃ node, data_cell format cn g room date w = (Ok node, w) ∧
          texts node = from_option cell_texts [] (grid_cell format g room date) ∧
          listener_count node = 0%nat.
Proof.
  intros Hg Hr. unfold grid_cell, data_cell, get_cell. rewrite Hg. cbn [mbind option_bind].
  rewrite Hr. eexists. split; [reflexivity|]. unfold cell_texts. cbn [from_option].
  by destruct (DailyStats.isSoldOut cell).
Qed.

Lemma room_row_node (g : Grid) today days room (row : Row) w :
  g !! RoomType.id room = Some row ->
  populated addDays format today days row ->
  let dateHeaders := Array_from_map days (fun i => addDays today i) in
  ∃ node, room_row format cn g dateHeaders room w = (Ok node, w) ∧
          texts node = row_texts format g dateHeaders room ∧
          listener_count node = 0%nat.
Proof.
  intros Hg Hp dateHeaders.
  destruct (mapM_Forall2
              (fun date node =>
                 texts node = from_option cell_texts [] (grid_cell format g room date)
                 ∧ listener_count node = 0%nat)
              (data_cell format cn g room) dateHeaders w) as (cells & Hcells & HF).
  { intros date (k & Hk & ->)%elem_of_dateHeaders.
    destruct (Hp k Hk) as [cell Hcell]. by eapply data_cell_node. }
  eexists. split; [unfold room_row; eapply bind_ok; [exact Hcells|reflexivity]|].
  split.
  - unfold row_texts. cbn [texts flat_map div app]. f_equal.
    apply Forall2_flat_map. eapply Forall2_impl; [exact HF|]. by intros ? ? [? ?].
  - cbn [listener_count div map foldr]. cbn.
    apply (Forall2_sum_zero listener_count dateHeaders).
    eapply Forall2_impl; [exact HF|]. by intros ? ? [? ?].
Qed.

Lemma date_columns_texts (dateHeaders : list Z) :
  flat_map texts (map (date_column format Date_toString) dateHeaders)
  = flat_map (fun date => [format date "EEE"; format date "d MMM"]) dateHeaders.
Proof. induction dateHeaders as [|d l IH]; [done|]. cbn. by rewrite IH. Qed.

Lemma date_columns_listeners (dateHeaders : list Z) :
  foldr Nat.add 0%nat (map listener_count (map (date_column format Date_toString) dateHeaders))
  = 0%nat.
Proof. induction dateHeaders as [|d l IH]; [done|]. cbn. by rewrite IH. Qed.

(** The grid as rendered: the JSX around one node per room, each showing
    the row of the generated data and carrying no listener. *)
Lemma InventoryGrid_rows w :
  let today := startOfDay (now w) in
  ∃ (gridData : Grid) rows,
    generateMockData addDays format today 30 w = (Ok gridData, advance 240 w) ∧
    InventoryGrid addDays format startOfDay Date_toString cn w
    = (Ok (InventoryGrid_jsx format Date_toString (headers today) rows), advance 240 w) ∧
    Forall2 (fun room node =>
               texts node = row_texts format gridData (headers today) room
               ∧ listener_count node = 0%nat)
            ROOM_TYPES rows.
Proof.
  intros today.
  destruct (generateMockData_run addDays format today 30 w) as (g & Hrun & Hrooms & _).
  change (2 * 30 * length ROOM_TYPES)%nat with 240%nat in Hrun.
  destruct (mapM_Forall2
              (fun room node =>
                 texts node = row_texts format g (headers today) room
                 ∧ listener_count node = 0%nat)
              (room_row format cn g (headers today)) ROOM_TYPES (advance 240 w))
    as (rows & Hrows & HF).
  { intros room Hin. destruct (Hrooms room Hin) as (row & Hl & Hp).
    by eapply room_row_node. }
  exists g, rows. split; [done|]. split; [|done].
  unfold InventoryGrid.
  eapply bind_ok; [reflexivity|].
  eapply bind_ok; [exact Hrun|].
  eapply bind_ok; [exact Hrows|]. reflexivity.
Qed.

(** X5. What InventoryGrid shows is the generated data: the texts of its
    tree are the corner label, the weekday and the day of each of the 30
    dates, and then, room by room in the order of ROOM_TYPES, the room's
    name followed by the inventory (or SOLD) and the rate of the cell that
    [generateMockData] stored for each date. *)
Theorem InventoryGrid_shows_generated_data (w : World) :
  let today := startOfDay (now w) in
  let dateHeaders := Array_from_map 30 (fun i => addDays today i) in
  ∃ (gridData : Grid) tree,
    generateMockData addDays format today 30 w = (Ok gridData, advance 240 w) ∧
    InventoryGrid addDays format startOfDay Date_toString cn w = (Ok tree, advance 240 w) ∧
    texts tree
    = "Room Type"
      :: flat_map (fun date => [format date "EEE"; format date "d MMM"]) dateHeaders
      ++ flat_map
           (fun room =>
              RoomType.name room
              :: flat_map
                   (fun date =>
                      from_option cell_texts []
                        (gridData !! RoomType.id room ≫= (.!! format date "yyyy-MM-dd")))
                   dateHeaders)
           ROOM_TYPES.
Proof.
  intros today dateHeaders.
  destruct (InventoryGrid_rows w) as (g & rows & Hg & Hrender & HF).
  eexists g, _. split; [done|]. split; [exact Hrender|].
  unfold InventoryGrid_jsx. cbn [texts flat_map div app].
  rewrite !app_nil_r, date_columns_texts. do 2 f_equal.
  apply (Forall2_flat_map (row_texts format g dateHeaders)).
  eapply Forall2_impl; [exact HF|]. by intros ? ? [? ?].
Qed.

Lemma generateMockData_cell start days w r room i :
  NoDup (key start <$> seq 0 days) ->
  ROOM_TYPES !! r = Some room -> (i < days)%nat ->
  ∃ data : Grid,
    generateMockData addDays format start days w = (Ok data, advance (8 * days) w) ∧
    data !! RoomType.id room ≫= (.!! key start i)
    = Some (mock_cell (random_stream w) (random_used w + 2 * (r * days + i)) (key start i)).
Proof.
  intros Hnd Hr Hi. eexists. split; [apply generateMockData_fill|].
  rewrite (fill_rooms_lookup_room addDays format _ _ _ _ _ _ r room ROOM_TYPES_ids_distinct Hr).
  cbn [mbind option_bind].
  rewrite fill_days_lookup_day by (done || lia). do 2 f_equal. lia.
Qed.

(** X7. Every render regenerates the grid.  [today] is a fresh Date in
    every render, so the dependency lists of the two [useMemo] never compare
    equal and [generateMockData] runs in each render.  A render of the page
    consumes 240 draws; no listener gives any back or moves the clock.  So
    whenever the page renders again, as it does when the drawer is opened
    or closed, and whichever listener ran in between, InventoryGrid builds
    its data anew: with distinct date strings, the cell of room r and day i
    comes from the draws 2(30r + i) in the first render and from the draws
    240 + 2(30r + i) in the second. *)
Theorem rerender_regenerates_grid {A} (h : Handler A) (a : A) (w : World) :
  let today := startOfDay (now w) in
  NoDup (key today <$> seq 0 30) ->
  let w1 := (ControlCenterPage addDays format startOfDay Date_toString cn w).2 in
  let w2 := (fire h a w1).2 in
  (∃ page1 page2,
     ControlCenterPage addDays format startOfDay Date_toString cn w = (Ok page1, w1) ∧
     ControlCenterPage addDays format startOfDay Date_toString cn w2
     = (Ok page2, advance 240 w2)) ∧
  random_used w2 = (random_used w + 240)%nat ∧
  startOfDay (now w2) = today ∧
  ∀ r room i,
    ROOM_TYPES !! r = Some room -> (i < 30)%nat ->
    ∃ data1 data2 : Grid,
      generateMockData addDays format today 30 w = (Ok data1, w1) ∧
      generateMockData addDays format today 30 w2 = (Ok data2, advance 240 w2) ∧
      data1 !! RoomType.id room ≫= (.!! key today i)
      = Some (mock_cell (random_stream w) (random_used w + 2 * (r * 30 + i)) (key today i)) ∧
      data2 !! RoomType.id room ≫= (.!! key today i)
      = Some (mock_cell (random_stream w) (random_used w + 240 + 2 * (r * 30 + i))
                (key today i)).
Proof.
  intros today Hnd w1 w2.
  destruct (InventoryGrid_run addDays format startOfDay Date_toString cn w)
    as (g1 & rows1 & _ & _ & Hi1).
  pose proof (ControlCenterPage_run addDays format startOfDay Date_toString cn w _ _ Hi1)
    as Hp1.
  assert (Hw1 : w1 = advance 240 w) by (unfold w1; by rewrite Hp1).
  destruct (fire_keeps_inputs h a w1) as (Hs & Hu & Hn). fold w2 in Hs, Hu, Hn.
  rewrite Hw1 in Hs, Hu, Hn. cbn [advance random_stream random_used now] in Hs, Hu, Hn.
  destruct (InventoryGrid_run addDays format startOfDay Date_toString cn w2)
    as (g2 & rows2 & _ & _ & Hi2).
  pose proof (ControlCenterPage_run addDays format startOfDay Date_toString cn w2 _ _ Hi2)
    as Hp2.
  split; [eexists _, _; split; [by rewrite Hw1|exact Hp2]|].
  split; [lia|]. split; [unfold today; by rewrite Hn|].
  intros r room i Hr Hi.
  destruct (generateMockData_cell today 30 w r room i Hnd Hr Hi) as (d1 & Hd1 & Hc1).
  destruct (generateMockData_cell today 30 w2 r room i Hnd Hr Hi) as (d2 & Hd2 & Hc2).
  exists d1, d2. split; [by rewrite Hw1|]. split; [done|]. split; [done|].
  rewrite Hc2, Hs, Hu. do 2 f_equal. lia.
Qed.

(** X10. The controls of the drawer are controlled by the state.  After any
    session, the drawer the page renders carries, as the values of its
    controls, what the last edits wrote: the Sheet is open as the last
    opening or closing click left it, the calendar has the picked range
    selected and opens on the month of its start, the select, the input and
    the switch hold the last selected room type, typed rate and toggle. *)
Theorem controls_show_the_last_edits (acts : list UserAction) (w : World) :
  let form := edited (edits_of acts) (drawer w) in
  ∃ w' bulk,
    session acts w = (Ok tt, w') ∧
    BulkUpdateDrawer format cn (isDrawerOpen w') H_setIsDrawerOpen w' = (Ok bulk, w') ∧
    props "Sheet" "open" bulk = [flag "open" (open_after acts (isDrawerOpen w))] ∧
    props "Calendar" "selected" bulk = [range_attr "selected" (Form.date form)] ∧
    props "Calendar" "defaultMonth" bulk
    = [date_attr "defaultMonth" (Form.date form ≫= DateRange.from)] ∧
    props "Select" "value" bulk = [attr "value" (Form.roomType form)] ∧
    props "Input" "value" bulk = [attr "value" (Form.rate form)] ∧
    props "Switch" "checked" bulk = [flag "checked" (Form.isOpen form)].
Proof.
  intros form. destruct (session_run acts w) as (entries & Hrun & _).
  eexists _, _. split; [exact Hrun|]. split; [reflexivity|].
  cbn [isDrawerOpen drawer]. fold form.
  assert (Hlabel : ∀ tag name,
            flat_map (props tag name) (date_button_label format (Form.date form)) = []).
  { intros tag name. unfold date_button_label.
    destruct (Form.date form ≫= DateRange.from);
      [by destruct (Form.date form ≫= DateRange.to)|].
    cbn [flat_map props]. rewrite !app_nil_r. by case_match. }
  unfold BulkUpdateDrawer_jsx, div, span.
  repeat split; cbn -[date_button_label]; by rewrite ?Hlabel.
Qed.

(** X12. A channel card shows the last synchronisation only of a channel
    that is online.  For every channel record, not only the four of
    CHANNELS, the card shows the name and then either "Synced" with the
    [lastSync] text, or "Auth Failed" and a Reconnect button, in which
    case [lastSync] is not shown at all; the card, its Reconnect button
    included, carries no listener. *)
Theorem channel_card_texts (channel : ChannelStatus.t) :
  texts (channel_card cn channel)
  = ChannelStatus.name channel
    :: match ChannelStatus.status channel with
       | online => ["Synced "; ChannelStatus.lastSync channel]
       | error => ["Auth Failed"; "Reconnect"]
       end ∧
  listeners (channel_card cn channel) = [].
Proof. by destruct channel as [id name [] lastSync]. Qed.

Lemma InventoryGrid_listener_count w :
  ∃ tree,
    InventoryGrid addDays format startOfDay Date_toString cn w = (Ok tree, advance 240 w) ∧
    listener_count tree = 0%nat.
Proof.
  destruct (InventoryGrid_rows w)
    as (g & rows & Hg & Hrender & HF).
  eexists. split; [exact Hrender|].
  unfold InventoryGrid_jsx. cbn [listener_count div map foldr].
  rewrite date_columns_listeners.
  rewrite (Forall2_sum_zero listener_count ROOM_TYPES rows);
    [done|eapply Forall2_impl; [exact HF|]; by intros ? ? [? ?]].
Qed.

(** X6. The grid is not interactive: the tree InventoryGrid renders carries
    no event listener, on the date columns as on the 120 data cells (which
    are styled with a pointer cursor). *)
Theorem InventoryGrid_has_no_listener (w : World) :
  ∃ tree,
    InventoryGrid addDays format startOfDay Date_toString cn w = (Ok tree, advance 240 w) ∧
    listener_count tree = 0%nat.
Proof. exact (InventoryGrid_listener_count w). Qed.

Lemma BulkUpdateDrawer_listeners open (onOpenChange : Handler bool) date roomType rate isOpen :
  listeners (BulkUpdateDrawer_jsx format cn open onOpenChange date roomType rate isOpen)
  = [on "onOpenChange" onOpenChange; on "onSelect" H_setDate;
     on "onValueChange" H_setRoomType; on "onChange" H_setRate;
     on "onCheckedChange" H_setIsOpen; on "onClick" (H_handleUpdate onOpenChange)].
Proof.
  assert (Hlabel : flat_map listeners (date_button_label format date) = []).
  { unfold date_button_label.
    destruct (date ≫= DateRange.from); [by destruct (date ≫= DateRange.to)|done]. }
  unfold BulkUpdateDrawer_jsx, div, span. cbn -[date_button_label]. by rewrite Hlabel.
Qed.

(** X11. The page offers seven listeners and no other.  In every
    environment the tree the page renders carries, in document order, the
    click on Bulk Update, the open change of the Sheet, the four setters of
    the form on the calendar, the select, the input and the switch, and
    the click on Apply Changes; the header, the channel widget (its Refresh
    All and Reconnect buttons included), the grid and the Cancel button
    carry none.  Calling any of them is one of the actions of a session. *)
Theorem page_listeners (w : World) :
  ∃ tree,
    ControlCenterPage addDays format startOfDay Date_toString cn w
    = (Ok tree, advance 240 w) ∧
    listeners tree
    = [on "onClick" H_openDrawer;
       on "onOpenChange" H_setIsDrawerOpen;
       on "onSelect" H_setDate;
       on "onValueChange" H_setRoomType;
       on "onChange" H_setRate;
       on "onCheckedChange" H_setIsOpen;
       on "onClick" (H_handleUpdate H_setIsDrawerOpen)] ∧
    Forall (fun l => match l with
                     | on _ h => ∀ x, ∃ a : UserAction, fire h x = act a
                     end) (listeners tree).
Proof.
  destruct (InventoryGrid_listener_count w) as (grid & Hrender & Hcount).
  pose proof (ControlCenterPage_run _ _ _ _ _ w _ _ Hrender) as Hpage.
  eexists. split; [exact Hpage|].
  assert (Hl : ∀ bulk,
            listeners (ControlCenterPage_jsx (ChannelHealthWidget_jsx cn) grid bulk)
            = on "onClick" H_openDrawer :: listeners bulk).
  { intros bulk. unfold ControlCenterPage_jsx, div.
    cbn -[ChannelHealthWidget_jsx].
    rewrite (listeners_none grid Hcount).
    rewrite (listeners_none (ChannelHealthWidget_jsx cn)) by reflexivity.
    cbn [app]. by rewrite app_nil_r. }
  rewrite Hl. rewrite BulkUpdateDrawer_listeners. split; [reflexivity|].
  repeat (apply Forall_cons; split); [..|apply Forall_nil_2].
  - intros x. by exists ClickBulkUpdate.
  - intros b. by exists (SheetOpenChange b).
  - intros d. by exists (EditForm (PickDate d)).
  - intros v. by exists (EditForm (SelectRoomType v)).
  - intros v. by exists (EditForm (TypeRate v)).
  - intros b. by exists (EditForm (ToggleOpen b)).
  - intros x. by exists ClickApply.
Qed.

End Rendering.

(** *** The properties above at work, on the reference instance *)

Lemma utc_date_keys_distinct :
  NoDup (date_key Utc.addDays Utc.format (Utc.startOfDay (now Utc.world)) <$> seq 0 30).
Proof. apply (bool_decide_unpack _). by vm_compute. Qed.

Lemma generateMockData_draw_order_witness :
  NoDup (date_key Utc.addDays Utc.format (Utc.startOfDay (now Utc.world)) <$> seq 0 30) ∧
  ∃ data : Grid,
    generateMockData Utc.addDays Utc.format (Utc.startOfDay (now Utc.world)) 30 Utc.world
    = (Ok data, advance (8 * 30) Utc.world) ∧
    ∀ r room i,
      ROOM_TYPES !! r = Some room -> (i < 30)%nat ->
      ∃ row : Row,
        data !! RoomType.id room = Some row ∧
        row !! date_key Utc.addDays Utc.format (Utc.startOfDay (now Utc.world)) i
        = Some (mock_cell (random_stream Utc.world)
                  (random_used Utc.world + 2 * (r * 30 + i))
                  (date_key Utc.addDays Utc.format (Utc.startOfDay (now Utc.world)) i)).
Proof.
  split; [exact utc_date_keys_distinct|].
  exact (generateMockData_draw_order Utc.addDays Utc.format
           (Utc.startOfDay (now Utc.world)) 30 Utc.world utc_date_keys_distinct).
Defined.

Lemma generated_cells_colours_witness :
  (∀ n, (random_used Utc.world <= n)%nat ->
        Float64.in_unit_interval (random_stream Utc.world n) = true) ∧
  ∃ data w',
    generateMockData Utc.addDays Utc.format (Utc.startOfDay (now Utc.world)) 30 Utc.world
    = (Ok data, w') ∧
    ∀ roomId (row : Row) dateStr cell,
      data !! roomId = Some row -> row !! dateStr = Some cell ->
      (DailyStats.inventory cell = 0 ∧ DailyStats.isSoldOut cell = true ∧
       getCellColor (DailyStats.inventory cell) (DailyStats.isSoldOut cell)
       = "bg-red-50 text-red-900" ∧
       head (cell_texts cell) = Some "SOLD") ∨
      (1 <= DailyStats.inventory cell <= 5 ∧ DailyStats.isSoldOut cell = false ∧
       getCellColor (DailyStats.inventory cell) (DailyStats.isSoldOut cell)
       = "bg-amber-50 text-amber-900" ∧
       head (cell_texts cell) = Some (pretty (DailyStats.inventory cell))) ∨
      (6 <= DailyStats.inventory cell <= 10 ∧ DailyStats.isSoldOut cell = false ∧
       getCellColor (DailyStats.inventory cell) (DailyStats.isSoldOut cell)
       = "bg-emerald-50 text-emerald-900" ∧
       head (cell_texts cell) = Some (pretty (DailyStats.inventory cell))).
Proof.
  split.
  - intros n _. apply draws_in_unit_interval.
  - apply (generated_cells_colours Utc.addDays Utc.format
             (Utc.startOfDay (now Utc.world)) 30 Utc.world).
    intros n _. apply draws_in_unit_interval.
Defined.

Lemma rerender_regenerates_grid_witness :
  NoDup (date_key Utc.addDays Utc.format (Utc.startOfDay (now Utc.world)) <$> seq 0 30) ∧
  let today := Utc.startOfDay (now Utc.world) in
  let w1 := (ControlCenterPage Utc.addDays Utc.format Utc.startOfDay Utc.Date_toString
               Utc.cn Utc.world).2 in
  let w2 := (fire H_openDrawer tt w1).2 in
  random_used w2 = (random_used Utc.world + 240)%nat ∧
  ∀ r room i,
    ROOM_TYPES !! r = Some room -> (i < 30)%nat ->
    ∃ data1 data2 : Grid,
      generateMockData Utc.addDays Utc.format today 30 Utc.world = (Ok data1, w1) ∧
      generateMockData Utc.addDays Utc.format today 30 w2 = (Ok data2, advance 240 w2) ∧
      data1 !! RoomType.id room ≫= (.!! date_key Utc.addDays Utc.format today i)
      = Some (mock_cell (random_stream Utc.world)
                (random_used Utc.world + 2 * (r * 30 + i))
                (date_key Utc.addDays Utc.format today i)) ∧
      data2 !! RoomType.id room ≫= (.!! date_key Utc.addDays Utc.format today i)
      = Some (mock_cell (random_stream Utc.world)
                (random_used Utc.world + 240 + 2 * (r * 30 + i))
                (date_key Utc.addDays Utc.format today i)).
Proof.
  split; [exact utc_date_keys_distinct|].
  intros today w1 w2.
  destruct (rerender_regenerates_grid Utc.addDays Utc.format Utc.startOfDay
              Utc.Date_toString Utc.cn H_openDrawer tt Utc.world utc_date_keys_distinct)
    as (_ & Hused & _ & Hcells).
  split; [exact Hused|exact Hcells].
Defined.

End CoverageFacts.
